(** * django-tenant-schemas: tenant life cycle and schema-aware introspection

    A shallow embedding of [tenant_schemas/models.py] and of
    [tenant_schemas/postgresql_backend/introspection.py].

    Python objects become records, the database and the connection become an
    explicit [World] threaded through a state-and-exception monad (a raised
    exception keeps the mutations made before it, as in Python), the SQL
    text of the introspection queries becomes list comprehensions over the
    catalog relations it names, and the [constraints] dict becomes a
    [gmap string ConstraintInfo]. *)

From Stdlib Require Import String Ascii ZArith NArith Bool List Lia.
From Stdlib Require Import Sorted Permutation.
From stdpp Require Import base option list gmap strings fin_maps.

Open Scope string_scope.
Open Scope Z_scope.

(** ** Python string primitives used by the sources *)

Module Py.

(** A Python [str] is a sequence of Unicode code points.  It is held here
    as the bytes of its UTF-8 encoding, a surrogate code point being encoded
    like its neighbours, so that every [str] has exactly one encoding and
    equal strings have equal bytes.  A byte string that encodes no [str] is
    not a value of the program; [lower] and [len] leave it as it is. *)

Definition byte (n : N) : ascii := ascii_of_N n.

Definition encode_cp (c : N) : string :=
  if (c <? 128)%N then String (byte c) EmptyString
  else if (c <? 2048)%N then
    String (byte (192 + c / 64)) (String (byte (128 + c mod 64)) EmptyString)
  else if (c <? 65536)%N then
    String (byte (224 + c / 4096))
      (String (byte (128 + (c / 64) mod 64))
         (String (byte (128 + c mod 64)) EmptyString))
  else
    String (byte (240 + c / 262144))
      (String (byte (128 + (c / 4096) mod 64))
         (String (byte (128 + (c / 64) mod 64))
            (String (byte (128 + c mod 64)) EmptyString))).

Fixpoint encode (l : list N) : string :=
  match l with
  | [] => EmptyString
  | c :: l => encode_cp c ++ encode l
  end.

(** The code points of a byte string: at each position the shortest
    sequence of bytes that is the encoding of a code point. *)
Fixpoint decode (s : string) : option (list N) :=
  match s with
  | EmptyString => Some []
  | String b0 s1 =>
      let n0 := N_of_ascii b0 in
      if (n0 <? 128)%N then option_map (cons n0) (decode s1)
      else match s1 with
      | EmptyString => None
      | String b1 s2 =>
          let n1 := N_of_ascii b1 in
          let c2 := ((n0 - 192) * 64 + (n1 - 128))%N in
          if String.eqb (encode_cp c2) (String b0 (String b1 EmptyString))
          then option_map (cons c2) (decode s2)
          else match s2 with
          | EmptyString => None
          | String b2 s3 =>
              let n2 := N_of_ascii b2 in
              let c3 := ((n0 - 224) * 4096 + (n1 - 128) * 64 + (n2 - 128))%N in
              if String.eqb (encode_cp c3)
                   (String b0 (String b1 (String b2 EmptyString)))
              then option_map (cons c3) (decode s3)
              else match s3 with
              | EmptyString => None
              | String b3 s4 =>
                  let n3 := N_of_ascii b3 in
                  let c4 := ((n0 - 240) * 262144 + (n1 - 128) * 4096
                             + (n2 - 128) * 64 + (n3 - 128))%N in
                  if ((c4 <? 1114112)%N
                      && String.eqb (encode_cp c4)
                           (String b0 (String b1 (String b2 (String b3 EmptyString)))))%bool
                  then option_map (cons c4) (decode s4)
                  else None
              end
          end
      end
  end.

(** [len(s)]: the number of code points. *)
Definition len (s : string) : nat :=
  match decode s with
  | Some l => length l
  | None => String.length s
  end.

(** *** [str.lower()]

    CPython 3 lowers a string code point by code point with the full
    lowercase mapping of the Unicode Character Database (version 14.0 in
    Python 3.11), except for the capital sigma, which becomes a final sigma
    when it ends a word.  [lower_blocks] lists the mapping in runs
    [(first, last, step, target)]: the code points [first], [first + step],
    ..., [last] are mapped to [target], [target + step], ...  The one code
    point whose lowercase form has two code points is U+0130. *)

Definition lower_blocks : list (N * N * N * N) := [
  (65, 90, 1, 97); (192, 214, 1, 224); (216, 222, 1, 248); (256, 302, 2, 257);
  (306, 310, 2, 307); (313, 327, 2, 314); (330, 374, 2, 331); (376, 376, 1, 255);
  (377, 381, 2, 378); (385, 385, 1, 595); (386, 388, 2, 387); (390, 390, 1, 596);
  (391, 391, 1, 392); (393, 394, 1, 598); (395, 395, 1, 396); (398, 398, 1, 477);
  (399, 399, 1, 601); (400, 400, 1, 603); (401, 401, 1, 402); (403, 403, 1, 608);
  (404, 404, 1, 611); (406, 406, 1, 617); (407, 407, 1, 616); (408, 408, 1, 409);
  (412, 412, 1, 623); (413, 413, 1, 626); (415, 415, 1, 629); (416, 420, 2, 417);
  (422, 422, 1, 640); (423, 423, 1, 424); (425, 425, 1, 643); (428, 428, 1, 429);
  (430, 430, 1, 648); (431, 431, 1, 432); (433, 434, 1, 650); (435, 437, 2, 436);
  (439, 439, 1, 658); (440, 440, 1, 441); (444, 444, 1, 445); (452, 452, 1, 454);
  (453, 453, 1, 454); (455, 455, 1, 457); (456, 456, 1, 457); (458, 458, 1, 460);
  (459, 475, 2, 460); (478, 494, 2, 479); (497, 497, 1, 499); (498, 500, 2, 499);
  (502, 502, 1, 405); (503, 503, 1, 447); (504, 542, 2, 505); (544, 544, 1, 414);
  (546, 562, 2, 547); (570, 570, 1, 11365); (571, 571, 1, 572); (573, 573, 1, 410);
  (574, 574, 1, 11366); (577, 577, 1, 578); (579, 579, 1, 384); (580, 580, 1, 649);
  (581, 581, 1, 652); (582, 590, 2, 583); (880, 882, 2, 881); (886, 886, 1, 887);
  (895, 895, 1, 1011); (902, 902, 1, 940); (904, 906, 1, 941); (908, 908, 1, 972);
  (910, 911, 1, 973); (913, 929, 1, 945); (932, 939, 1, 964); (975, 975, 1, 983);
  (984, 1006, 2, 985); (1012, 1012, 1, 952); (1015, 1015, 1, 1016); (1017, 1017, 1, 1010);
  (1018, 1018, 1, 1019); (1021, 1023, 1, 891); (1024, 1039, 1, 1104); (1040, 1071, 1, 1072);
  (1120, 1152, 2, 1121); (1162, 1214, 2, 1163); (1216, 1216, 1, 1231); (1217, 1229, 2, 1218);
  (1232, 1326, 2, 1233); (1329, 1366, 1, 1377); (4256, 4293, 1, 11520); (4295, 4295, 1, 11559);
  (4301, 4301, 1, 11565); (5024, 5103, 1, 43888); (5104, 5109, 1, 5112); (7312, 7354, 1, 4304);
  (7357, 7359, 1, 4349); (7680, 7828, 2, 7681); (7838, 7838, 1, 223); (7840, 7934, 2, 7841);
  (7944, 7951, 1, 7936); (7960, 7965, 1, 7952); (7976, 7983, 1, 7968); (7992, 7999, 1, 7984);
  (8008, 8013, 1, 8000); (8025, 8031, 2, 8017); (8040, 8047, 1, 8032); (8072, 8079, 1, 8064);
  (8088, 8095, 1, 8080); (8104, 8111, 1, 8096); (8120, 8121, 1, 8112); (8122, 8123, 1, 8048);
  (8124, 8124, 1, 8115); (8136, 8139, 1, 8050); (8140, 8140, 1, 8131); (8152, 8153, 1, 8144);
  (8154, 8155, 1, 8054); (8168, 8169, 1, 8160); (8170, 8171, 1, 8058); (8172, 8172, 1, 8165);
  (8184, 8185, 1, 8056); (8186, 8187, 1, 8060); (8188, 8188, 1, 8179); (8486, 8486, 1, 969);
  (8490, 8490, 1, 107); (8491, 8491, 1, 229); (8498, 8498, 1, 8526); (8544, 8559, 1, 8560);
  (8579, 8579, 1, 8580); (9398, 9423, 1, 9424); (11264, 11311, 1, 11312); (11360, 11360, 1, 11361);
  (11362, 11362, 1, 619); (11363, 11363, 1, 7549); (11364, 11364, 1, 637); (11367, 11371, 2, 11368);
  (11373, 11373, 1, 593); (11374, 11374, 1, 625); (11375, 11375, 1, 592); (11376, 11376, 1, 594);
  (11378, 11378, 1, 11379); (11381, 11381, 1, 11382); (11390, 11391, 1, 575); (11392, 11490, 2, 11393);
  (11499, 11501, 2, 11500); (11506, 11506, 1, 11507); (42560, 42604, 2, 42561); (42624, 42650, 2, 42625);
  (42786, 42798, 2, 42787); (42802, 42862, 2, 42803); (42873, 42875, 2, 42874); (42877, 42877, 1, 7545);
  (42878, 42886, 2, 42879); (42891, 42891, 1, 42892); (42893, 42893, 1, 613); (42896, 42898, 2, 42897);
  (42902, 42920, 2, 42903); (42922, 42922, 1, 614); (42923, 42923, 1, 604); (42924, 42924, 1, 609);
  (42925, 42925, 1, 620); (42926, 42926, 1, 618); (42928, 42928, 1, 670); (42929, 42929, 1, 647);
  (42930, 42930, 1, 669); (42931, 42931, 1, 43859); (42932, 42946, 2, 42933); (42948, 42948, 1, 42900);
  (42949, 42949, 1, 642); (42950, 42950, 1, 7566); (42951, 42953, 2, 42952); (42960, 42960, 1, 42961);
  (42966, 42968, 2, 42967); (42997, 42997, 1, 42998); (65313, 65338, 1, 65345); (66560, 66599, 1, 66600);
  (66736, 66771, 1, 66776); (66928, 66938, 1, 66967); (66940, 66954, 1, 66979); (66956, 66962, 1, 66995);
  (66964, 66965, 1, 67003); (68736, 68786, 1, 68800); (71840, 71871, 1, 71872); (93760, 93791, 1, 93792);
  (125184, 125217, 1, 125218)
]%N.

Definition case_ignorable_ranges : list (N * N) := [
  (39, 39); (46, 46); (58, 58); (94, 94); (96, 96); (168, 168);
  (173, 173); (175, 175); (180, 180); (183, 184); (688, 879); (884, 885);
  (890, 890); (900, 901); (903, 903); (1155, 1161); (1369, 1369); (1375, 1375);
  (1425, 1469); (1471, 1471); (1473, 1474); (1476, 1477); (1479, 1479); (1524, 1524);
  (1536, 1541); (1552, 1562); (1564, 1564); (1600, 1600); (1611, 1631); (1648, 1648);
  (1750, 1757); (1759, 1768); (1770, 1773); (1807, 1807); (1809, 1809); (1840, 1866);
  (1958, 1968); (2027, 2037); (2042, 2042); (2045, 2045); (2070, 2093); (2137, 2139);
  (2184, 2184); (2192, 2193); (2200, 2207); (2249, 2306); (2362, 2362); (2364, 2364);
  (2369, 2376); (2381, 2381); (2385, 2391); (2402, 2403); (2417, 2417); (2433, 2433);
  (2492, 2492); (2497, 2500); (2509, 2509); (2530, 2531); (2558, 2558); (2561, 2562);
  (2620, 2620); (2625, 2626); (2631, 2632); (2635, 2637); (2641, 2641); (2672, 2673);
  (2677, 2677); (2689, 2690); (2748, 2748); (2753, 2757); (2759, 2760); (2765, 2765);
  (2786, 2787); (2810, 2815); (2817, 2817); (2876, 2876); (2879, 2879); (2881, 2884);
  (2893, 2893); (2901, 2902); (2914, 2915); (2946, 2946); (3008, 3008); (3021, 3021);
  (3072, 3072); (3076, 3076); (3132, 3132); (3134, 3136); (3142, 3144); (3146, 3149);
  (3157, 3158); (3170, 3171); (3201, 3201); (3260, 3260); (3263, 3263); (3270, 3270);
  (3276, 3277); (3298, 3299); (3328, 3329); (3387, 3388); (3393, 3396); (3405, 3405);
  (3426, 3427); (3457, 3457); (3530, 3530); (3538, 3540); (3542, 3542); (3633, 3633);
  (3636, 3642); (3654, 3662); (3761, 3761); (3764, 3772); (3782, 3782); (3784, 3789);
  (3864, 3865); (3893, 3893); (3895, 3895); (3897, 3897); (3953, 3966); (3968, 3972);
  (3974, 3975); (3981, 3991); (3993, 4028); (4038, 4038); (4141, 4144); (4146, 4151);
  (4153, 4154); (4157, 4158); (4184, 4185); (4190, 4192); (4209, 4212); (4226, 4226);
  (4229, 4230); (4237, 4237); (4253, 4253); (4348, 4348); (4957, 4959); (5906, 5908);
  (5938, 5939); (5970, 5971); (6002, 6003); (6068, 6069); (6071, 6077); (6086, 6086);
  (6089, 6099); (6103, 6103); (6109, 6109); (6155, 6159); (6211, 6211); (6277, 6278);
  (6313, 6313); (6432, 6434); (6439, 6440); (6450, 6450); (6457, 6459); (6679, 6680);
  (6683, 6683); (6742, 6742); (6744, 6750); (6752, 6752); (6754, 6754); (6757, 6764);
  (6771, 6780); (6783, 6783); (6823, 6823); (6832, 6862); (6912, 6915); (6964, 6964);
  (6966, 6970); (6972, 6972); (6978, 6978); (7019, 7027); (7040, 7041); (7074, 7077);
  (7080, 7081); (7083, 7085); (7142, 7142); (7144, 7145); (7149, 7149); (7151, 7153);
  (7212, 7219); (7222, 7223); (7288, 7293); (7376, 7378); (7380, 7392); (7394, 7400);
  (7405, 7405); (7412, 7412); (7416, 7417); (7468, 7530); (7544, 7544); (7579, 7679);
  (8125, 8125); (8127, 8129); (8141, 8143); (8157, 8159); (8173, 8175); (8189, 8190);
  (8203, 8207); (8216, 8217); (8228, 8228); (8231, 8231); (8234, 8238); (8288, 8292);
  (8294, 8303); (8305, 8305); (8319, 8319); (8336, 8348); (8400, 8432); (11388, 11389);
  (11503, 11505); (11631, 11631); (11647, 11647); (11744, 11775); (11823, 11823); (12293, 12293);
  (12330, 12333); (12337, 12341); (12347, 12347); (12441, 12446); (12540, 12542); (40981, 40981);
  (42232, 42237); (42508, 42508); (42607, 42610); (42612, 42621); (42623, 42623); (42652, 42655);
  (42736, 42737); (42752, 42785); (42864, 42864); (42888, 42890); (42994, 42996); (43000, 43001);
  (43010, 43010); (43014, 43014); (43019, 43019); (43045, 43046); (43052, 43052); (43204, 43205);
  (43232, 43249); (43263, 43263); (43302, 43309); (43335, 43345); (43392, 43394); (43443, 43443);
  (43446, 43449); (43452, 43453); (43471, 43471); (43493, 43494); (43561, 43566); (43569, 43570);
  (43573, 43574); (43587, 43587); (43596, 43596); (43632, 43632); (43644, 43644); (43696, 43696);
  (43698, 43700); (43703, 43704); (43710, 43711); (43713, 43713); (43741, 43741); (43756, 43757);
  (43763, 43764); (43766, 43766); (43867, 43871); (43881, 43883); (44005, 44005); (44008, 44008);
  (44013, 44013); (64286, 64286); (64434, 64450); (65024, 65039); (65043, 65043); (65056, 65071);
  (65106, 65106); (65109, 65109); (65279, 65279); (65287, 65287); (65294, 65294); (65306, 65306);
  (65342, 65342); (65344, 65344); (65392, 65392); (65438, 65439); (65507, 65507); (65529, 65531);
  (66045, 66045); (66272, 66272); (66422, 66426); (67456, 67461); (67463, 67504); (67506, 67514);
  (68097, 68099); (68101, 68102); (68108, 68111); (68152, 68154); (68159, 68159); (68325, 68326);
  (68900, 68903); (69291, 69292); (69446, 69456); (69506, 69509); (69633, 69633); (69688, 69702);
  (69744, 69744); (69747, 69748); (69759, 69761); (69811, 69814); (69817, 69818); (69821, 69821);
  (69826, 69826); (69837, 69837); (69888, 69890); (69927, 69931); (69933, 69940); (70003, 70003);
  (70016, 70017); (70070, 70078); (70089, 70092); (70095, 70095); (70191, 70193); (70196, 70196);
  (70198, 70199); (70206, 70206); (70367, 70367); (70371, 70378); (70400, 70401); (70459, 70460);
  (70464, 70464); (70502, 70508); (70512, 70516); (70712, 70719); (70722, 70724); (70726, 70726);
  (70750, 70750); (70835, 70840); (70842, 70842); (70847, 70848); (70850, 70851); (71090, 71093);
  (71100, 71101); (71103, 71104); (71132, 71133); (71219, 71226); (71229, 71229); (71231, 71232);
  (71339, 71339); (71341, 71341); (71344, 71349); (71351, 71351); (71453, 71455); (71458, 71461);
  (71463, 71467); (71727, 71735); (71737, 71738); (71995, 71996); (71998, 71998); (72003, 72003);
  (72148, 72151); (72154, 72155); (72160, 72160); (72193, 72202); (72243, 72248); (72251, 72254);
  (72263, 72263); (72273, 72278); (72281, 72283); (72330, 72342); (72344, 72345); (72752, 72758);
  (72760, 72765); (72767, 72767); (72850, 72871); (72874, 72880); (72882, 72883); (72885, 72886);
  (73009, 73014); (73018, 73018); (73020, 73021); (73023, 73029); (73031, 73031); (73104, 73105);
  (73109, 73109); (73111, 73111); (73459, 73460); (78896, 78904); (92912, 92916); (92976, 92982);
  (92992, 92995); (94031, 94031); (94095, 94111); (94176, 94177); (94179, 94180); (110576, 110579);
  (110581, 110587); (110589, 110590); (113821, 113822); (113824, 113827); (118528, 118573); (118576, 118598);
  (119143, 119145); (119155, 119170); (119173, 119179); (119210, 119213); (119362, 119364); (121344, 121398);
  (121403, 121452); (121461, 121461); (121476, 121476); (121499, 121503); (121505, 121519); (122880, 122886);
  (122888, 122904); (122907, 122913); (122915, 122916); (122918, 122922); (123184, 123197); (123566, 123566);
  (123628, 123631); (125136, 125142); (125252, 125259); (127995, 127999); (917505, 917505); (917536, 917631);
  (917760, 917999)
]%N.

Definition cased_ranges : list (N * N) := [
  (65, 90); (97, 122); (170, 170); (181, 181); (186, 186); (192, 214);
  (216, 246); (248, 442); (444, 447); (452, 659); (661, 696); (704, 705);
  (736, 740); (837, 837); (880, 883); (886, 887); (890, 893); (895, 895);
  (902, 902); (904, 906); (908, 908); (910, 929); (931, 1013); (1015, 1153);
  (1162, 1327); (1329, 1366); (1376, 1416); (4256, 4293); (4295, 4295); (4301, 4301);
  (4304, 4346); (4349, 4351); (5024, 5109); (5112, 5117); (7296, 7304); (7312, 7354);
  (7357, 7359); (7424, 7615); (7680, 7957); (7960, 7965); (7968, 8005); (8008, 8013);
  (8016, 8023); (8025, 8025); (8027, 8027); (8029, 8029); (8031, 8061); (8064, 8116);
  (8118, 8124); (8126, 8126); (8130, 8132); (8134, 8140); (8144, 8147); (8150, 8155);
  (8160, 8172); (8178, 8180); (8182, 8188); (8305, 8305); (8319, 8319); (8336, 8348);
  (8450, 8450); (8455, 8455); (8458, 8467); (8469, 8469); (8473, 8477); (8484, 8484);
  (8486, 8486); (8488, 8488); (8490, 8493); (8495, 8500); (8505, 8505); (8508, 8511);
  (8517, 8521); (8526, 8526); (8544, 8575); (8579, 8580); (9398, 9449); (11264, 11492);
  (11499, 11502); (11506, 11507); (11520, 11557); (11559, 11559); (11565, 11565); (42560, 42605);
  (42624, 42653); (42786, 42887); (42891, 42894); (42896, 42954); (42960, 42961); (42963, 42963);
  (42965, 42969); (42997, 42998); (43000, 43002); (43824, 43866); (43868, 43880); (43888, 43967);
  (64256, 64262); (64275, 64279); (65313, 65338); (65345, 65370); (66560, 66639); (66736, 66771);
  (66776, 66811); (66928, 66938); (66940, 66954); (66956, 66962); (66964, 66965); (66967, 66977);
  (66979, 66993); (66995, 67001); (67003, 67004); (67456, 67456); (67459, 67461); (67463, 67504);
  (67506, 67514); (68736, 68786); (68800, 68850); (71840, 71903); (93760, 93823); (119808, 119892);
  (119894, 119964); (119966, 119967); (119970, 119970); (119973, 119974); (119977, 119980); (119982, 119993);
  (119995, 119995); (119997, 120003); (120005, 120069); (120071, 120074); (120077, 120084); (120086, 120092);
  (120094, 120121); (120123, 120126); (120128, 120132); (120134, 120134); (120138, 120144); (120146, 120485);
  (120488, 120512); (120514, 120538); (120540, 120570); (120572, 120596); (120598, 120628); (120630, 120654);
  (120656, 120686); (120688, 120712); (120714, 120744); (120746, 120770); (120772, 120779); (122624, 122633);
  (122635, 122654); (125184, 125251); (127280, 127305); (127312, 127337); (127344, 127369)
]%N.

Definition covers (c : N) (b : N * N * N * N) : bool :=
  let '(first, last, step, _) := b in
  ((first <=? c) && (c <=? last) && ((c - first) mod step =? 0))%N.

Definition capital_sigma : N := 931%N.
Definition small_sigma : N := 963%N.
Definition final_sigma : N := 962%N.

(** The lowercase form of one code point other than the capital sigma. *)
Definition lower_cp (c : N) : list N :=
  if (c =? 304)%N then [105; 775]%N
  else match find (covers c) lower_blocks with
       | Some (first, _, _, target) => [target + (c - first)]%N
       | None => [c]
       end.

Definition in_ranges (c : N) (rs : list (N * N)) : bool :=
  existsb (fun r => ((fst r <=? c) && (c <=? snd r))%N) rs.

Definition case_ignorable (c : N) : bool := in_ranges c case_ignorable_ranges.
Definition cased (c : N) : bool := in_ranges c cased_ranges.

(** The first code point of [l] that is not case-ignorable, if any. *)
Definition first_not_ignorable (l : list N) : option N :=
  find (fun c => negb (case_ignorable c)) l.

(** The capital sigma standing between [before] (nearest first) and
    [after] is in final position when a cased letter precedes it and none
    follows it, case-ignorable code points being skipped on both sides. *)
Definition lower_sigma (before after : list N) : N :=
  match first_not_ignorable before with
  | Some c =>
      if cased c then
        match first_not_ignorable after with
        | Some c' => if cased c' then small_sigma else final_sigma
        | None => final_sigma
        end
      else small_sigma
  | None => small_sigma
  end.

Fixpoint lower_from (before l : list N) : list N :=
  match l with
  | [] => []
  | c :: rest =>
      ((if (c =? capital_sigma)%N then [lower_sigma before rest] else lower_cp c)
       ++ lower_from (c :: before) rest)%list
  end.

Definition lower_code_points (l : list N) : list N := lower_from [] l.

(** [s.lower()] *)
Definition lower (s : string) : string :=
  match decode s with
  | Some l => encode (lower_code_points l)
  | None => s
  end.

(** *** Notions used to state facts about [lower] *)

Definition valid (c : N) : Prop := (c < 1114112)%N.

Definition block_elements (b : N * N * N * N) : list N :=
  let '(first, last, step, _) := b in
  map (fun k => (first + step * N.of_nat k)%N)
    (seq 0 (S (N.to_nat ((last - first) / step)))).

(** A code point that [lower] leaves alone wherever it stands. *)
Definition stable_b (x : N) : bool :=
  (negb (x =? capital_sigma) && negb (x =? 304)
   && match find (covers x) lower_blocks with Some _ => false | None => true end
   && (x <? 1114112))%N.

Definition stable (x : N) : Prop :=
  x <> capital_sigma /\ lower_cp x = [x] /\ valid x.

(** A string of ASCII characters only. *)
Fixpoint is_ascii (s : string) : bool :=
  match s with
  | EmptyString => true
  | String b rest => (N_of_ascii b <? 128)%N && is_ascii rest
  end.

(** Modelled from the spec: the lowercase form of a string of ASCII
    characters, letter by letter, as in ["Example.COM"] giving
    ["example.com"]. *)
Definition ascii_lowercase_letter (b : ascii) : ascii :=
  let n := N_of_ascii b in
  if ((65 <=? n) && (n <=? 90))%N then ascii_of_N (n + 32) else b.

Fixpoint ascii_lowercase (s : string) : string :=
  match s with
  | EmptyString => EmptyString
  | String b rest => String (ascii_lowercase_letter b) (ascii_lowercase rest)
  end.

(** [s.split(sep, 1)] for a one-character separator: at most one cut, at the
    first occurrence of [sep]; the result has one or two elements. *)
Fixpoint split1 (sep : ascii) (s : string) : list string :=
  match s with
  | EmptyString => [EmptyString]
  | String c rest =>
      if Ascii.eqb c sep then [EmptyString; rest]
      else match split1 sep rest with
           | h :: t => String c h :: t
           | [] => [String c EmptyString]
           end
  end.

(** [sep.join(parts)] *)
Fixpoint join (sep : string) (parts : list string) : string :=
  match parts with
  | [] => EmptyString
  | [p] => p
  | p :: ps => p ++ sep ++ join sep ps
  end.

(** [sep in s] for a one-character [sep] *)
Fixpoint contains (sep : ascii) (s : string) : bool :=
  match s with
  | EmptyString => false
  | String c rest => Ascii.eqb c sep || contains sep rest
  end.

Definition dot : ascii := "."%char.

End Py.

(** ** What the server makes of a name spliced into a statement *)

Module Pg.

(** [downcase_identifier]: an unquoted identifier is folded to lower case,
    the letters A-Z byte by byte; in a UTF-8 database the bytes above 127
    are kept as they are. *)
Definition downcase_byte (b : ascii) : ascii :=
  let n := N_of_ascii b in
  if ((65 <=? n) && (n <=? 90))%N then ascii_of_N (n + 32) else b.

Fixpoint downcase (s : string) : string :=
  match s with
  | EmptyString => EmptyString
  | String b rest => String (downcase_byte b) (downcase rest)
  end.

(** [pg_utf_mblen]: the number of bytes of the character that starts with
    the byte [b]. *)
Definition mblen (b : ascii) : nat :=
  let n := N_of_ascii b in
  if (n <? 128)%N then 1%nat
  else if ((192 <=? n) && (n <? 224))%N then 2%nat
  else if ((224 <=? n) && (n <? 240))%N then 3%nat
  else if ((240 <=? n) && (n <? 248))%N then 4%nat
  else 1%nat.

(** [pg_mbcliplen]: the longest prefix of whole characters that fits in
    [limit] bytes. *)
Fixpoint clip (fuel limit : nat) (s : string) : string :=
  match fuel, s with
  | S fuel, String b _ =>
      let l := mblen b in
      if Nat.ltb limit l then EmptyString
      else String.substring 0 l s
           ++ clip fuel (limit - l) (String.substring l (String.length s - l) s)
  | _, _ => EmptyString
  end.

Definition NAMEDATALEN : nat := 64.

(** [truncate_identifier]: a name of [NAMEDATALEN] bytes or more is cut to
    [NAMEDATALEN - 1] bytes. *)
Definition truncate (s : string) : string :=
  if Nat.leb NAMEDATALEN (String.length s)
  then clip (String.length s) (NAMEDATALEN - 1) s
  else s.

(** The name under which the server knows the schema that a statement
    reaches with the unquoted identifier [n]. *)
Definition identifier (n : string) : string := truncate (downcase n).

(** The double quote that the server puts around a name in its messages. *)
Definition quoted (n : string) : string :=
  String (ascii_of_N 34) n ++ String (ascii_of_N 34) EmptyString.

(** The text of the server's error about the schema [n], as the driver
    hands it on, with its final newline. *)
Definition schema_error (n what : string) : string :=
  "schema " ++ quoted n ++ " " ++ what ++ String (ascii_of_N 10) EmptyString.

End Pg.

(** ** tenant_schemas/models.py *)

Module Models.

(** *** Exceptions and outcomes *)

(** The exception classes that can reach a caller of the models.  The
    sources raise a bare [Exception(msg)] for a wrong connection context;
    the other classes come from Django and from the database driver. *)
Inductive Exn : Type :=
| Exception_ (msg : string)
| ValidationError
| ProgrammingError (msg : string)
| IntegrityError
| DataError
| DoesNotExist
| MultipleObjectsReturned
| AssertionError
| ValueError
| CommandError (msg : string).

Inductive Res (A : Type) : Type :=
| Ok (a : A)
| Raise (e : Exn).
Arguments Ok {A} a.
Arguments Raise {A} e.

(** *** The database and the connection *)

(** Statements sent to the database, in the order they are issued. *)
Inductive Event : Type :=
| SqlCreateSchema (n : string)
| SqlDropSchemaCascade (n : string)
| SqlInsertTenant (id : Z)
| SqlUpdateTenant (id : Z)
| SqlDeleteTenant (id : Z)
| SqlInsertDomain (id : Z)
| SqlUpdateDomain (id : Z).

Record TenantRow : Type := {
  row_id : Z;
  row_schema_name : string;
  row_name : string
}.

Record DomainRow : Type := {
  drow_id : Z;
  drow_tenant_id : Z;
  drow_domain : string
}.

Record World : Type := {
  connection_schema_name : string;      (* connection.schema_name *)
  pg_schemas : gset string;             (* schemas that physically exist *)
  tenant_table : list TenantRow;
  tenant_seq : Z;
  domain_table : list DomainRow;
  domain_seq : Z;
  statements : list Event
}.

Definition with_connection_schema_name (n : string) (w : World) : World :=
  {| connection_schema_name := n; pg_schemas := pg_schemas w;
     tenant_table := tenant_table w; tenant_seq := tenant_seq w;
     domain_table := domain_table w; domain_seq := domain_seq w;
     statements := statements w |}.

Definition with_pg_schemas (s : gset string) (w : World) : World :=
  {| connection_schema_name := connection_schema_name w; pg_schemas := s;
     tenant_table := tenant_table w; tenant_seq := tenant_seq w;
     domain_table := domain_table w; domain_seq := domain_seq w;
     statements := statements w |}.

Definition with_tenant_table (t : list TenantRow) (q : Z) (w : World) : World :=
  {| connection_schema_name := connection_schema_name w; pg_schemas := pg_schemas w;
     tenant_table := t; tenant_seq := q;
     domain_table := domain_table w; domain_seq := domain_seq w;
     statements := statements w |}.

Definition with_domain_table (d : list DomainRow) (q : Z) (w : World) : World :=
  {| connection_schema_name := connection_schema_name w; pg_schemas := pg_schemas w;
     tenant_table := tenant_table w; tenant_seq := tenant_seq w;
     domain_table := d; domain_seq := q;
     statements := statements w |}.

Definition emit (e : Event) (w : World) : World :=
  {| connection_schema_name := connection_schema_name w; pg_schemas := pg_schemas w;
     tenant_table := tenant_table w; tenant_seq := tenant_seq w;
     domain_table := domain_table w; domain_seq := domain_seq w;
     statements := statements w ++ [e] |}.

(** *** State and exception monad

    A computation takes the world and gives an outcome and the world it
    leaves; after [Raise] the world keeps every mutation made so far. *)
Definition M (A : Type) : Type := World -> Res A * World.

Definition ret {A} (a : A) : M A := fun w => (Ok a, w).

Definition raise {A} (e : Exn) : M A := fun w => (Raise e, w).

Definition bind {A B} (c : M A) (k : A -> M B) : M B :=
  fun w =>
    match c w with
    | (Ok a, w1) => k a w1
    | (Raise e, w1) => (Raise e, w1)
    end.

(** [try: c  except: handler] with a bare [except] clause. *)
Definition try_except {A} (c : M A) (handler : Exn -> M A) : M A :=
  fun w =>
    match c w with
    | (Ok a, w1) => (Ok a, w1)
    | (Raise e, w1) => handler e w1
    end.

Definition gets {A} (f : World -> A) : M A := fun w => (Ok (f w), w).

Definition modify (f : World -> World) : M unit := fun w => (Ok tt, f w).

Declare Scope py_scope.
Delimit Scope py_scope with py.
Notation "'let*' x ':=' c 'in' k" := (bind c (fun x => k))
  (at level 10, x name, c at level 100, k at level 200) : py_scope.
Open Scope py_scope.

(** *** Model instances *)

(** A [Tenant] instance.  [pk] is [None] until the row has been inserted;
    the two class attributes are read through the instance. *)
Record Tenant : Type := {
  pk : option Z;
  schema_name : string;
  name : string;
  auto_create_schema : bool;
  auto_drop_schema : bool
}.

Definition with_pk (k : Z) (self : Tenant) : Tenant :=
  {| pk := Some k; schema_name := schema_name self; name := name self;
     auto_create_schema := auto_create_schema self;
     auto_drop_schema := auto_drop_schema self |}.

(** A [Domain] instance; [tenant] holds the primary key of the tenant it
    refers to ([None] for a tenant that was never saved). *)
Record Domain : Type := {
  domain_pk : option Z;
  tenant : option Z;
  domain : string
}.

Definition domain_of_row (r : DomainRow) : Domain :=
  {| domain_pk := Some (drow_id r); tenant := Some (drow_tenant_id r);
     domain := drow_domain r |}.

(** *** Collaborators that live outside these sources *)

(** The settings and the callables that [models.py] imports.  The migration
    command and the signal receivers are black boxes returning success or
    an exception; the only part of the world they share with this module is
    the connection's current schema, which they receive and hand back. *)
Record Collaborators : Type := {
  get_public_schema_name : string;
  check_schema_name : string -> bool;
  migrate_schemas : string -> Z -> string -> option Exn * string;
  post_schema_sync_send : Tenant -> string -> option Exn * string
}.

(** *** The ORM calls reached through [super()] and [Domain.objects] *)

Definition tenant_row (k : Z) (self : Tenant) : TenantRow :=
  {| row_id := k; row_schema_name := schema_name self; row_name := name self |}.

Definition has_tenant_row (k : Z) (w : World) : bool :=
  existsb (fun r => row_id r =? k) (tenant_table w).

(** [models.Model.save] for a tenant: INSERT when [pk] is [None] (the key
    comes from the table's sequence), otherwise UPDATE the row with that key
    and INSERT it when no such row exists.  [schema_name] is declared
    [unique=True] with [max_length=63], [name] with [max_length=100]. *)
Definition Model_save_Tenant (self : Tenant) : M Tenant :=
  fun w =>
    if (Nat.ltb 63 (Py.len (schema_name self))
        || Nat.ltb 100 (Py.len (name self)))%bool
    then (Raise DataError, w)
    else match pk self with
    | None =>
        let k := tenant_seq w + 1 in
        if existsb (fun r => String.eqb (row_schema_name r) (schema_name self)
                             || (row_id r =? k)) (tenant_table w)
        then (Raise IntegrityError, with_tenant_table (tenant_table w) k w)
        else (Ok (with_pk k self),
              emit (SqlInsertTenant k)
                (with_tenant_table (tenant_table w ++ [tenant_row k self]) k w))
    | Some k =>
        if existsb (fun r => String.eqb (row_schema_name r) (schema_name self)
                             && negb (row_id r =? k)) (tenant_table w)
        then (Raise IntegrityError, w)
        else if has_tenant_row k w
        then (Ok self,
              emit (SqlUpdateTenant k)
                (with_tenant_table
                   (map (fun r => if row_id r =? k then tenant_row k self else r)
                      (tenant_table w))
                   (tenant_seq w) w))
        else (Ok self,
              emit (SqlInsertTenant k)
                (with_tenant_table (tenant_table w ++ [tenant_row k self])
                   (tenant_seq w) w))
    end.

(** [models.Model.delete] for a tenant: the row goes, and with it the
    [Domain] rows whose foreign key points at it.  Django asserts that the
    instance has a primary key. *)
Definition tenant_deleted (k : Z) (w : World) : World :=
  emit (SqlDeleteTenant k)
    (with_domain_table
       (List.filter (fun r => negb (drow_tenant_id r =? k)) (domain_table w))
       (domain_seq w)
       (with_tenant_table
          (List.filter (fun r => negb (row_id r =? k)) (tenant_table w))
          (tenant_seq w) w)).

Definition Model_delete_Tenant (self : Tenant) : M unit :=
  match pk self with
  | None => raise AssertionError
  | Some k => modify (tenant_deleted k)
  end.

Definition domain_row (k t : Z) (d : string) : DomainRow :=
  {| drow_id := k; drow_tenant_id := t; drow_domain := d |}.

(** The database once the row [(k, t, d)] has been inserted, the sequence
    standing at [q]. *)
Definition domain_inserted (k t : Z) (d : string) (q : Z) (w : World) : World :=
  emit (SqlInsertDomain k)
    (with_domain_table (domain_table w ++ [domain_row k t d]) q w).

(** [models.Model.save] for a domain; [domain] is [unique=True] with
    [max_length=128], which the database counts in characters, and the
    foreign key cannot be null. *)
Definition Model_save_Domain (self : Domain) : M Domain :=
  fun w =>
    match tenant self with
    | None => (Raise ValueError, w)
    | Some t =>
        if Nat.ltb 128 (Py.len (domain self)) then (Raise DataError, w)
        else match domain_pk self with
        | None =>
            let k := domain_seq w + 1 in
            if existsb (fun r => String.eqb (drow_domain r) (domain self)
                                 || (drow_id r =? k)) (domain_table w)
            then (Raise IntegrityError, with_domain_table (domain_table w) k w)
            else (Ok {| domain_pk := Some k; tenant := Some t; domain := domain self |},
                  domain_inserted k t (domain self) k w)
        | Some k =>
            if existsb (fun r => String.eqb (drow_domain r) (domain self)
                                 && negb (drow_id r =? k)) (domain_table w)
            then (Raise IntegrityError, w)
            else if existsb (fun r => drow_id r =? k) (domain_table w)
            then (Ok self,
                  emit (SqlUpdateDomain k)
                    (with_domain_table
                       (map (fun r => if drow_id r =? k
                                      then domain_row k t (domain self)
                                      else r) (domain_table w))
                       (domain_seq w) w))
            else (Ok self, domain_inserted k t (domain self) (domain_seq w) w)
        end
    end.

(** Rows selected by [Domain.objects.filter(tenant=t, domain=d)]; a tenant
    that was never saved matches no row. *)
Definition Domain_filter (t : Tenant) (d : string) (w : World) : list DomainRow :=
  match pk t with
  | None => []
  | Some k =>
      List.filter (fun r => (drow_tenant_id r =? k) && String.eqb (drow_domain r) d)
        (domain_table w)
  end.

(** [Domain.objects.get(tenant=t, domain=d)] *)
Definition Domain_get (t : Tenant) (d : string) : M Domain :=
  fun w =>
    match Domain_filter t d w with
    | [] => (Raise DoesNotExist, w)
    | [r] => (Ok (domain_of_row r), w)
    | _ :: _ :: _ => (Raise MultipleObjectsReturned, w)
    end.

(** *** Connection and schema helpers imported by [models.py] *)

(** Modelled from the spec: [tenant_schemas.utils.schema_exists] is missing
    from the sources; it tells whether the schema physically exists, that
    is, whether the database has the schema that the statements below reach
    under the name [n]. *)
Definition schema_exists (n : string) : M bool :=
  gets (fun w => bool_decide (Pg.identifier n ∈ pg_schemas w)).

(** [connection.cursor()]: the cursor is the handle the statements below
    go through; asking for it changes nothing that this module reads. *)
Definition connection_cursor : M unit := ret tt.

(** The database once [CREATE SCHEMA n] has been carried out.  The name is
    spliced into the statement without quotes, so the schema that appears
    is the one the server reads there, [Pg.identifier n]; the statement
    text keeps [n] as written. *)
Definition schema_created (n : string) (w : World) : World :=
  emit (SqlCreateSchema n)
    (with_pg_schemas ({[ Pg.identifier n ]} ∪ pg_schemas w) w).

(** The database once [DROP SCHEMA n CASCADE] has been carried out. *)
Definition schema_dropped (n : string) (w : World) : World :=
  emit (SqlDropSchemaCascade n)
    (with_pg_schemas (pg_schemas w ∖ {[ Pg.identifier n ]}) w).

(** [cursor.execute('CREATE SCHEMA %s' % n)]: the database refuses a name
    that is already taken. *)
Definition execute_create_schema (n : string) : M unit :=
  fun w =>
    if bool_decide (Pg.identifier n ∈ pg_schemas w)
    then (Raise (ProgrammingError
                   (Pg.schema_error (Pg.identifier n) "already exists")), w)
    else (Ok tt, schema_created n w).

(** [cursor.execute('DROP SCHEMA %s CASCADE' % n)]: the schema goes with
    everything in it; the database refuses a name that does not exist. *)
Definition execute_drop_schema_cascade (n : string) : M unit :=
  fun w =>
    if bool_decide (Pg.identifier n ∈ pg_schemas w)
    then (Ok tt, schema_dropped n w)
    else (Raise (ProgrammingError
                   (Pg.schema_error (Pg.identifier n) "does not exist")), w).

Section Operations.

Context (env : Collaborators).

(** Modelled from the spec: [connection.set_schema_to_public] is missing
    from the sources; it resets the connection's current schema to the
    public schema. *)
Definition set_schema_to_public : M unit :=
  modify (with_connection_schema_name (get_public_schema_name env)).

(** [_check_schema_name(n)] raises when the validator rejects the name. *)
Definition _check_schema_name (n : string) : M unit :=
  if check_schema_name env n then ret tt else raise ValidationError.

(** [call_command('migrate_schemas', schema_name=n, interactive=False,
    verbosity=v)] *)
Definition call_command_migrate_schemas (n : string) (v : Z) : M unit :=
  fun w =>
    match migrate_schemas env n v (connection_schema_name w) with
    | (None, c) => (Ok tt, with_connection_schema_name c w)
    | (Some e, c) => (Raise e, with_connection_schema_name c w)
    end.

(** [post_schema_sync.send(sender=Tenant, tenant=t)] *)
Definition post_schema_sync (t : Tenant) : M unit :=
  fun w =>
    match post_schema_sync_send env t (connection_schema_name w) with
    | (None, c) => (Ok tt, with_connection_schema_name c w)
    | (Some e, c) => (Raise e, with_connection_schema_name c w)
    end.

(** [x in (self.schema_name, get_public_schema_name())] *)
Definition in_own_or_public (x : string) (self : Tenant) : bool :=
  String.eqb x (schema_name self) || String.eqb x (get_public_schema_name env).

(** *** class Domain *)

(** [Domain.save] *)
Definition Domain_save (self : Domain) : M Domain :=
  let self := {| domain_pk := domain_pk self; tenant := tenant self;
                 domain := Py.lower (domain self) |} in
  Model_save_Domain self.

(** [Domain.objects.create(tenant=t, domain=d)]: build the instance and
    call its [save]. *)
Definition Domain_create (t : Tenant) (d : string) : M Domain :=
  Domain_save {| domain_pk := None; tenant := pk t; domain := d |}.

(** [Domain.objects.get_or_create(tenant=t, domain=d)]: look the row up,
    create it when there is none; when the insert hits a unique constraint,
    look again before giving the error up. *)
Definition Domain_get_or_create (t : Tenant) (d : string) : M (Domain * bool) :=
  fun w =>
    match Domain_get t d w with
    | (Ok obj, w1) => (Ok (obj, false), w1)
    | (Raise DoesNotExist, w1) =>
        match Domain_create t d w1 with
        | (Ok obj, w2) => (Ok (obj, true), w2)
        | (Raise IntegrityError, w2) =>
            match Domain_get t d w2 with
            | (Ok obj, w3) => (Ok (obj, false), w3)
            | (Raise DoesNotExist, w3) => (Raise IntegrityError, w3)
            | (Raise e, w3) => (Raise e, w3)
            end
        | (Raise e, w2) => (Raise e, w2)
        end
    | (Raise e, w1) => (Raise e, w1)
    end.

(** *** class Tenant *)

(** [Tenant.get_domains]: the related manager [self.domains.all()]. *)
Definition get_domains (self : Tenant) (w : World) : list string :=
  match pk self with
  | None => []
  | Some k =>
      map drow_domain (List.filter (fun r => drow_tenant_id r =? k) (domain_table w))
  end.

(** [Tenant.add_domain] *)
Definition add_domain (self : Tenant) (domain : string) : M Domain :=
  let domain := Py.lower domain in
  let* oc := Domain_get_or_create self domain in
  ret (fst oc).

(** [Tenant.delete] *)
Definition delete (self : Tenant) (force_drop : bool) : M unit :=
  let* current := gets connection_schema_name in
  if negb (in_own_or_public current self)
  then raise (Exception_
                ("Can't delete tenant outside it's own schema or the public schema. Current schema is "
                 ++ current ++ "."))
  else
    let* present := schema_exists (schema_name self) in
    let* _ := (if present && (auto_drop_schema self || force_drop)
               then (let* _ := connection_cursor in
                     execute_drop_schema_cascade (schema_name self))
               else ret tt) in
    Model_delete_Tenant self.

(** [Tenant.create_schema].  The result is the Python value returned:
    [Some b] for the boolean [b], [None] for Python's [None] when the body
    ends without a [return]. *)
Definition create_schema (self : Tenant) (check_if_exists sync_schema : bool)
    (verbosity : Z) : M (option bool) :=
  let* _ := _check_schema_name (schema_name self) in
  let* _ := connection_cursor in
  let* present := (if check_if_exists then schema_exists (schema_name self)
                   else ret false) in
  if present then ret (Some false)
  else
    let* _ := execute_create_schema (schema_name self) in
    let* _ := (if sync_schema
               then call_command_migrate_schemas (schema_name self) verbosity
               else ret tt) in
    let* _ := set_schema_to_public in
    ret None.

(** The body of the [try] in [Tenant.save]. *)
Definition provision (self : Tenant) (verbosity : Z) : M unit :=
  let* _ := create_schema self true true verbosity in
  post_schema_sync self.

(** [Tenant.save].  Python mutates [self] (the ORM assigns [pk]); the
    instance as it is after the call is the result. *)
Definition save (self : Tenant) (verbosity : Z) : M Tenant :=
  let is_new := match pk self with None => true | Some _ => false end in
  let* current := gets connection_schema_name in
  if is_new && negb (String.eqb current (get_public_schema_name env))
  then raise (Exception_
                ("Can't create tenant outside the public schema. Current schema is "
                 ++ current ++ "."))
  else if negb is_new && negb (in_own_or_public current self)
  then raise (Exception_
                ("Can't update tenant outside it's own schema or the public schema. Current schema is "
                 ++ current ++ "."))
  else
    let* self := Model_save_Tenant self in
    if is_new && auto_create_schema self
    then try_except
           (let* _ := provision self verbosity in ret self)
           (fun e => let* _ := delete self true in raise e)
    else ret self.

End Operations.

(** *** Lookups and removals *)

(** A [Tenant] instance loaded from its row; the two flags are class
    attributes, so they are those of the class that loads it. *)
Definition tenant_of_row (auto_create auto_drop : bool) (r : TenantRow) : Tenant :=
  {| pk := Some (row_id r); schema_name := row_schema_name r; name := row_name r;
     auto_create_schema := auto_create; auto_drop_schema := auto_drop |}.

(** [Tenant.remove_domain]: [Domain.objects.filter(tenant=self,
    domain=domain.lower()).delete()].  The result is the number of rows
    deleted.  As in the cascade of [tenant_deleted], deleting domain rows
    adds nothing to [statements]. *)
Definition remove_domain (self : Tenant) (domain : string) : M nat :=
  let domain := Py.lower domain in
  fun w =>
    (Ok (length (Domain_filter self domain w)),
     with_domain_table
       (List.filter
          (fun r => negb (match pk self with
                          | None => false
                          | Some k => (drow_tenant_id r =? k)
                                      && String.eqb (drow_domain r) domain
                          end))
          (domain_table w))
       (domain_seq w) w).

Section Lookups.

(** The class attributes of the tenant model in use, and
    [settings.PUBLIC_SCHEMA_NAME], taken as defined. *)
Context (auto_create auto_drop : bool) (PUBLIC_SCHEMA_NAME : string).





(** *** management/commands/list_tenants.py *)

(** The list [all_tenants] built by [Command.handle]: for every tenant, in
    table order, its schema name and its domains joined by [", "]. *)
Definition all_tenants (w : World) : list (string * string) :=
  map (fun r =>
         let t := tenant_of_row auto_create auto_drop r in
         (schema_name t, Py.join ", " (get_domains t w)))
    (tenant_table w).

(** [Command.handle]: the rows handed to [out.writerow], in order. *)
Definition handle (w : World) : list (string * string) :=
  fold_left (fun written tenant => (written ++ [tenant])%list) (all_tenants w) [].

End Lookups.

End Models.

(** ** tenant_schemas/postgresql_backend/introspection.py *)

Module Introspection.

(** *** The catalog relations the queries read

    Only the columns the SQL mentions. *)

Record pg_namespace : Type := {
  nsp_oid : Z;
  nspname : string
}.

Record pg_class : Type := {
  oid : Z;
  relname : string;
  relkind : string;
  relnamespace : Z
}.

Record pg_index : Type := {
  indexrelid : Z;
  indrelid : Z;
  indkey : list Z;
  indisunique : bool;
  indisprimary : bool
}.

Record pg_attribute : Type := {
  attrelid : Z;
  attnum : Z;
  attname : string
}.

Record key_column_usage : Type := {
  kcu_table_schema : string;
  kcu_table_name : string;
  kcu_constraint_name : string;
  kcu_column_name : string;
  kcu_ordinal_position : Z
}.

Record table_constraints : Type := {
  tc_table_schema : string;
  tc_table_name : string;
  tc_constraint_name : string;
  tc_constraint_type : string
}.

Record constraint_column_usage : Type := {
  ccu_table_schema : string;
  ccu_table_name : string;
  ccu_column_name : string;
  ccu_constraint_name : string
}.

(** What a cursor can see: the rows of each relation, in scan order. *)
Record Catalog : Type := {
  namespaces : list pg_namespace;
  classes : list pg_class;
  indexes : list pg_index;
  attributes : list pg_attribute;
  key_columns : list key_column_usage;
  constraints_of_tables : list table_constraints;
  constraint_columns : list constraint_column_usage
}.

(** *** The introspection object *)

Record Connection : Type := {
  schema_name : string;
  public_schema_name : string
}.

Record DatabaseSchemaIntrospection : Type := {
  connection : Connection;
  ignored_tables : list string
}.

(** Django's [TableInfo(name, type)] named tuple; [type] is [None] when the
    kind is neither a table nor a view. *)
Record TableInfo : Type := {
  ti_name : string;
  ti_type : option string
}.

(** One value of the [constraints] dict. *)
Record ConstraintInfo : Type := {
  columns : list (option string);
  primary_key : bool;
  unique : bool;
  foreign_key : option (list string);
  check : bool;
  index : bool
}.

(** [get_constraints] either returns the dict or dies on [used_cols[0]]. *)
Inductive Result (A : Type) : Type :=
| Returned (a : A)
| IndexError.
Arguments Returned {A} a.
Arguments IndexError {A}.

(** *** PostgreSQL built-ins *)

(** Modelled from the spec: the connection wrapper is missing from the
    sources; it sets the search path to the current schema followed by the
    public schema, or to the public schema alone. *)
Definition search_path (c : Connection) : list string :=
  if String.eqb (schema_name c) (public_schema_name c)
  then [public_schema_name c]
  else [schema_name c; public_schema_name c].

Definition in_namespace (cat : Catalog) (s : string) (c : pg_class) : bool :=
  existsb (fun n => (nsp_oid n =? relnamespace c) && String.eqb (nspname n) s)
    (namespaces cat).

(** [pg_table_is_visible]: the relation is the first one of its name along
    the search path. *)
Fixpoint visible_along (cat : Catalog) (path : list string) (c : pg_class) : bool :=
  match path with
  | [] => false
  | s :: rest =>
      if in_namespace cat s c then true
      else if existsb (fun c' => String.eqb (relname c') (relname c)
                                 && in_namespace cat s c') (classes cat)
      then false
      else visible_along cat rest c
  end.

Definition pg_table_is_visible (cat : Catalog) (conn : Connection) (c : pg_class) : bool :=
  visible_along cat (search_path conn) c.

(** [ORDER BY key ASC], as a stable insertion sort. *)
Fixpoint insert_by {A} (key : A -> Z) (x : A) (l : list A) : list A :=
  match l with
  | [] => [x]
  | y :: l' => if key y <=? key x then y :: insert_by key x l' else x :: y :: l'
  end.

Definition sort_by {A} (key : A -> Z) (l : list A) : list A :=
  fold_left (fun acc x => insert_by key x acc) l [].

(** *** get_table_list *)

(** [LEFT JOIN pg_namespace n ON n.oid = c.relnamespace] *)
Definition left_join_namespace (cat : Catalog) (c : pg_class) : list (option pg_namespace) :=
  match List.filter (fun n => nsp_oid n =? relnamespace c) (namespaces cat) with
  | [] => [None]
  | ns => map Some ns
  end.

Definition mem_string (x : string) (l : list string) : bool :=
  existsb (String.eqb x) l.

(** The rows fetched by the query of [get_table_list]. *)
Definition table_list_rows (conn : Connection) (cat : Catalog) : list (string * string) :=
  flat_map (fun c =>
    flat_map (fun n : option pg_namespace =>
      if mem_string (relkind c) ["r"; "v"; ""]
         && match n with
            | Some n => String.eqb (nspname n) (schema_name conn)
            | None => false
            end
         && pg_table_is_visible cat conn c
      then [(relname c, relkind c)] else [])
      (left_join_namespace cat c))
    (classes cat).

(** [{'r': 't', 'v': 'v'}.get(kind)] *)
Definition kind_letter (kind : string) : option string :=
  if String.eqb kind "r" then Some "t"
  else if String.eqb kind "v" then Some "v"
  else None.

Definition get_table_list (self : DatabaseSchemaIntrospection) (cursor : Catalog)
    : list TableInfo :=
  map (fun row => {| ti_name := fst row; ti_type := kind_letter (snd row) |})
    (List.filter (fun row => negb (mem_string (fst row) (ignored_tables self)))
       (table_list_rows (connection self) cursor)).

(** *** get_constraints *)

(** The inner [array(SELECT table_name || '.' || column_name FROM
    information_schema.constraint_column_usage WHERE constraint_name = ...)] *)
Definition used_cols_of (cat : Catalog) (constraint : string) : list string :=
  map (fun u => ccu_table_name u ++ "." ++ ccu_column_name u)
    (List.filter (fun u => String.eqb (ccu_constraint_name u) constraint)
       (constraint_columns cat)).

Definition KeyRow : Type := string * string * string * list string.

(** First query: [key_column_usage] joined with [table_constraints],
    restricted to the schema and the table, ordered by ordinal position. *)
Definition key_rows (schema table : string) (cat : Catalog) : list KeyRow :=
  map snd
    (sort_by fst
       (flat_map (fun kc =>
          flat_map (fun c =>
            if String.eqb (kcu_table_schema kc) (tc_table_schema c)
               && String.eqb (kcu_table_name kc) (tc_table_name c)
               && String.eqb (kcu_constraint_name kc) (tc_constraint_name c)
               && String.eqb (kcu_table_schema kc) schema
               && String.eqb (kcu_table_name kc) table
            then [(kcu_ordinal_position kc,
                   (kcu_constraint_name kc, kcu_column_name kc,
                    tc_constraint_type c,
                    used_cols_of cat (kcu_constraint_name kc)))]
            else [])
            (constraints_of_tables cat))
          (key_columns cat))).

(** Second query: the columns of the CHECK constraints of the table. *)
Definition check_rows (schema table : string) (cat : Catalog) : list (string * string) :=
  flat_map (fun kc =>
    flat_map (fun c =>
      if String.eqb (ccu_table_schema kc) (tc_table_schema c)
         && String.eqb (ccu_table_name kc) (tc_table_name c)
         && String.eqb (ccu_constraint_name kc) (tc_constraint_name c)
         && String.eqb (tc_constraint_type c) "CHECK"
         && String.eqb (ccu_table_schema kc) schema
         && String.eqb (ccu_table_name kc) table
      then [(ccu_constraint_name kc, ccu_column_name kc)]
      else [])
      (constraints_of_tables cat))
    (constraint_columns cat).

(** [(SELECT attname FROM pg_attribute WHERE attnum = i AND attrelid = rel)]:
    the name, or NULL when the relation has no such attribute;
    [(attrelid, attnum)] is the key of [pg_attribute]. *)
Definition attname_of (cat : Catalog) (rel i : Z) : option string :=
  match List.filter (fun a => (attnum a =? i) && (attrelid a =? rel)) (attributes cat) with
  | [] => None
  | a :: _ => Some (attname a)
  end.

Definition IndexRow : Type := string * list (option string) * bool * bool.

(** Third query: every index on a relation called [table]. *)
Definition index_rows (table : string) (cat : Catalog) : list IndexRow :=
  flat_map (fun c =>
    flat_map (fun c2 =>
      flat_map (fun idx =>
        if (oid c =? indrelid idx)
           && (indexrelid idx =? oid c2)
           && String.eqb (relname c) table
        then [(relname c2, map (attname_of cat (oid c)) (indkey idx),
               indisunique idx, indisprimary idx)]
        else [])
        (indexes cat))
      (classes cat))
    (classes cat).

(** [constraints[name]['columns'].append(column)] *)
Definition append_column (name : string) (column : string)
    (constraints : gmap string ConstraintInfo) : gmap string ConstraintInfo :=
  alter (fun ci =>
    {| columns := columns ci ++ [Some column]; primary_key := primary_key ci;
       unique := unique ci; foreign_key := foreign_key ci;
       check := check ci; index := index ci |}) name constraints.

(** Body of the first loop. *)
Definition key_step (constraints : gmap string ConstraintInfo) (row : KeyRow)
    : Result (gmap string ConstraintInfo) :=
  let '(constraint, column, kind, used_cols) := row in
  match constraints !! constraint with
  | Some _ => Returned (append_column constraint column constraints)
  | None =>
      let fk : Result (option (list string)) :=
        if String.eqb (Py.lower kind) "foreign key"
        then match used_cols with
             | [] => IndexError
             | u :: _ => Returned (Some (Py.split1 Py.dot u))
             end
        else Returned None in
      match fk with
      | IndexError => IndexError
      | Returned fk =>
          Returned
            (append_column constraint column
               (<[constraint :=
                    {| columns := [];
                       primary_key := String.eqb (Py.lower kind) "primary key";
                       unique := mem_string (Py.lower kind) ["primary key"; "unique"];
                       foreign_key := fk;
                       check := false;
                       index := false |}]> constraints))
      end
  end.

Fixpoint key_loop (constraints : gmap string ConstraintInfo) (rows : list KeyRow)
    : Result (gmap string ConstraintInfo) :=
  match rows with
  | [] => Returned constraints
  | row :: rest =>
      match key_step constraints row with
      | IndexError => IndexError
      | Returned constraints => key_loop constraints rest
      end
  end.

(** Body of the second loop. *)
Definition check_step (constraints : gmap string ConstraintInfo)
    (row : string * string) : gmap string ConstraintInfo :=
  let '(constraint, column) := row in
  match constraints !! constraint with
  | Some _ => append_column constraint column constraints
  | None =>
      append_column constraint column
        (<[constraint :=
             {| columns := []; primary_key := false; unique := false;
                foreign_key := None; check := true; index := false |}]> constraints)
  end.

(** Body of the third loop. *)
Definition index_step (constraints : gmap string ConstraintInfo)
    (row : IndexRow) : gmap string ConstraintInfo :=
  let '(index_name, cols, uniq, primary) := row in
  match constraints !! index_name with
  | Some _ => constraints
  | None =>
      <[index_name :=
          {| columns := cols; primary_key := primary; unique := uniq;
             foreign_key := None; check := false; index := true |}]> constraints
  end.

(** The dict as it stands after the first two loops. *)
Definition constraints_before_indexes (self : DatabaseSchemaIntrospection)
    (cursor : Catalog) (table_name : string) : Result (gmap string ConstraintInfo) :=
  match key_loop ∅ (key_rows (schema_name (connection self)) table_name cursor) with
  | IndexError => IndexError
  | Returned constraints =>
      Returned
        (fold_left check_step
           (check_rows (schema_name (connection self)) table_name cursor)
           constraints)
  end.

Definition get_constraints (self : DatabaseSchemaIntrospection)
    (cursor : Catalog) (table_name : string) : Result (gmap string ConstraintInfo) :=
  match constraints_before_indexes self cursor table_name with
  | IndexError => IndexError
  | Returned constraints =>
      Returned (fold_left index_step (index_rows table_name cursor) constraints)
  end.

(** [get_constraints(...)[name]], when the call returns and has the key. *)
Definition constraint_named (name : string)
    (r : Result (gmap string ConstraintInfo)) : option ConstraintInfo :=
  match r with
  | Returned constraints => constraints !! name
  | IndexError => None
  end.

(** The dict a call returned, or the empty dict when it raised. *)
Definition returned_dict (r : Result (gmap string ConstraintInfo))
    : gmap string ConstraintInfo :=
  match r with
  | Returned m => m
  | IndexError => ∅
  end.

(** *** Two catalogs that differ only outside one schema *)

Definition class_with_oid_in (cat : Catalog) (s : string) (o : Z) : bool :=
  existsb (fun c => (oid c =? o) && in_namespace cat s c) (classes cat).

(** The part of a catalog that belongs to schema [s]: its namespace row,
    its relations with their attributes, the indexes that are in it or are
    on one of its tables, and the information-schema rows that name it as
    their table schema. *)
Definition restrict_to_schema (s : string) (cat : Catalog) : Catalog :=
  {| namespaces := List.filter (fun n => String.eqb (nspname n) s) (namespaces cat);
     classes := List.filter (in_namespace cat s) (classes cat);
     indexes := List.filter (fun i => class_with_oid_in cat s (indexrelid i)
                                      || class_with_oid_in cat s (indrelid i))
                  (indexes cat);
     attributes := List.filter (fun a => class_with_oid_in cat s (attrelid a))
                     (attributes cat);
     key_columns := List.filter (fun k => String.eqb (kcu_table_schema k) s)
                      (key_columns cat);
     constraints_of_tables := List.filter (fun c => String.eqb (tc_table_schema c) s)
                                (constraints_of_tables cat);
     constraint_columns := List.filter (fun u => String.eqb (ccu_table_schema u) s)
                             (constraint_columns cat) |}.

(** The rows of the table-list query, computed from the namespace rows and
    the relations of one schema alone. *)
Definition rows_within (nss : list pg_namespace) (cls : list pg_class)
    : list (string * string) :=
  flat_map (fun c =>
    flat_map (fun n =>
      if mem_string (relkind c) ["r"; "v"; ""] && (nsp_oid n =? relnamespace c)
      then [(relname c, relkind c)] else []) nss) cls.

(** *** Invariants of the dict while the loops run *)

(** A foreign-key target, when there is one, is the first usage string of
    the constraint's name cut by [split(".", 1)]. *)
Definition foreign_key_from_usage (cat : Catalog) (name : string)
    (ci : ConstraintInfo) : Prop :=
  forall fk, foreign_key ci = Some fk ->
    exists u, head (used_cols_of cat name) = Some u /\ fk = Py.split1 Py.dot u.

(** An entry as the first two loops leave it. *)
Definition made_by_constraint_loops (cat : Catalog) (name : string)
    (ci : ConstraintInfo) : Prop :=
  index ci = false /\ foreign_key_from_usage cat name ci.

(** The rows of the first query carry the usage strings of their own
    constraint name. *)
Definition carries_own_usage (cat : Catalog) (row : KeyRow) : Prop :=
  let '(constraint, _, _, used_cols) := row in
  used_cols = used_cols_of cat constraint.

(** *** The entries of the result, row list by row list *)

Definition key_row_name (row : KeyRow) : string :=
  let '(constraint, _, _, _) := row in constraint.

Definition key_row_column (row : KeyRow) : string :=
  let '(_, column, _, _) := row in column.

Definition index_row_name (row : IndexRow) : string :=
  let '(index_name, _, _, _) := row in index_name.

(** The first row of a name, as each loop meets it. *)
Definition first_key_row (name : string) (rows : list KeyRow) : option KeyRow :=
  List.find (fun row => String.eqb (key_row_name row) name) rows.

Definition first_check_row (name : string) (rows : list (string * string))
    : option (string * string) :=
  List.find (fun row => String.eqb (fst row) name) rows.

Definition first_index_row (name : string) (rows : list IndexRow) : option IndexRow :=
  List.find (fun row => String.eqb (index_row_name row) name) rows.

(** The columns the rows of a name append, in row order. *)
Definition key_columns_named (name : string) (rows : list KeyRow)
    : list (option string) :=
  map (fun row => Some (key_row_column row))
    (List.filter (fun row => String.eqb (key_row_name row) name) rows).

Definition check_columns_named (name : string) (rows : list (string * string))
    : list (option string) :=
  map (fun row => Some (snd row))
    (List.filter (fun row => String.eqb (fst row) name) rows).

(** [used_cols[0]] is evaluated on an empty list: a foreign-key row without
    usage strings. *)
Definition lacks_usage (row : KeyRow) : bool :=
  let '(_, _, kind, used_cols) := row in
  String.eqb (Py.lower kind) "foreign key"
  && match used_cols with [] => true | _ :: _ => false end.

(** The record the first loop makes for the first row of a name. *)
Definition key_entry (row : KeyRow) : ConstraintInfo :=
  let '(_, _, kind, used_cols) := row in
  {| columns := [];
     primary_key := String.eqb (Py.lower kind) "primary key";
     unique := mem_string (Py.lower kind) ["primary key"; "unique"];
     foreign_key := if String.eqb (Py.lower kind) "foreign key"
                    then option_map (Py.split1 Py.dot) (head used_cols)
                    else None;
     check := false;
     index := false |}.

(** The record the second loop makes. *)
Definition check_entry : ConstraintInfo :=
  {| columns := []; primary_key := false; unique := false;
     foreign_key := None; check := true; index := false |}.

(** The record the third loop makes. *)
Definition index_entry (row : IndexRow) : ConstraintInfo :=
  let '(_, cols, uniq, primary) := row in
  {| columns := cols; primary_key := primary; unique := uniq;
     foreign_key := None; check := false; index := true |}.

Definition more_columns (cols : list (option string)) (ci : ConstraintInfo)
    : ConstraintInfo :=
  {| columns := columns ci ++ cols; primary_key := primary_key ci;
     unique := unique ci; foreign_key := foreign_key ci;
     check := check ci; index := index ci |}.

(** What the three loops leave under [name], as a function of the three
    row lists: the first loop that has a row of that name makes the entry,
    the first two loops append their columns, the third never appends. *)
Definition expected_entry (name : string) (krows : list KeyRow)
    (crows : list (string * string)) (irows : list IndexRow)
    : option ConstraintInfo :=
  match first_key_row name krows with
  | Some row =>
      Some (more_columns
              (key_columns_named name krows ++ check_columns_named name crows)
              (key_entry row))
  | None =>
      match first_check_row name crows with
      | Some _ => Some (more_columns (check_columns_named name crows) check_entry)
      | None => option_map index_entry (first_index_row name irows)
      end
  end.

(** The joined rows of the first query, before ORDER BY, with their
    ordinal positions. *)
Definition key_rows_unordered (schema table : string) (cat : Catalog)
    : list (Z * KeyRow) :=
  flat_map (fun kc =>
    flat_map (fun c =>
      if String.eqb (kcu_table_schema kc) (tc_table_schema c)
         && String.eqb (kcu_table_name kc) (tc_table_name c)
         && String.eqb (kcu_constraint_name kc) (tc_constraint_name c)
         && String.eqb (kcu_table_schema kc) schema
         && String.eqb (kcu_table_name kc) table
      then [(kcu_ordinal_position kc,
             (kcu_constraint_name kc, kcu_column_name kc,
              tc_constraint_type c,
              used_cols_of cat (kcu_constraint_name kc)))]
      else [])
      (constraints_of_tables cat))
    (key_columns cat).

End Introspection.

(** ** Concrete databases used in the examples below *)

Module Scenarios.

Import Models.

Definition valid_name (n : string) : bool := negb (String.eqb n "").

(** Migrations and signal receivers that succeed and leave the connection
    in the public schema. *)
Definition env_ok : Collaborators :=
  {| get_public_schema_name := "public";
     check_schema_name := valid_name;
     migrate_schemas := fun _ _ _ => (None, "public");
     post_schema_sync_send := fun _ c => (None, c) |}.

(** A migration command that switches the connection to the schema it
    migrates and fails there. *)
Definition env_migration_fails : Collaborators :=
  {| get_public_schema_name := "public";
     check_schema_name := valid_name;
     migrate_schemas := fun n _ _ => (Some (CommandError "migration failed"), n);
     post_schema_sync_send := fun _ c => (None, c) |}.

(** A migration command that fails without touching the connection. *)
Definition env_migration_fails_in_place : Collaborators :=
  {| get_public_schema_name := "public";
     check_schema_name := valid_name;
     migrate_schemas := fun _ _ c => (Some (CommandError "migration failed"), c);
     post_schema_sync_send := fun _ c => (None, c) |}.

Definition empty_db (current : string) (schemas : gset string) : World :=
  {| connection_schema_name := current; pg_schemas := schemas;
     tenant_table := []; tenant_seq := 0;
     domain_table := []; domain_seq := 0; statements := [] |}.

Definition w_public : World := empty_db "public" {[ "public" ]}.

Definition new_tenant : Tenant :=
  {| pk := None; schema_name := "t1"; name := "Tenant one";
     auto_create_schema := true; auto_drop_schema := false |}.

Definition saved_tenant : Tenant := with_pk 1 new_tenant.

(** A tenant whose schema name is written with capital letters. *)
Definition new_tenant_capitals : Tenant :=
  {| pk := None; schema_name := "T1"; name := "Tenant one";
     auto_create_schema := true; auto_drop_schema := false |}.

(** A database holding the tenant [t1] with its schema. *)
Definition w_with_t1 (current : string) : World :=
  {| connection_schema_name := current; pg_schemas := {[ "public"; "t1" ]};
     tenant_table := [tenant_row 1 new_tenant]; tenant_seq := 1;
     domain_table := []; domain_seq := 0; statements := [] |}.

(** A catalog with the schemas [public], [t1] and [t2].  Schema [t1] has a
    table [foo] with a primary key (backed by the index of the same name),
    a CHECK constraint, and a foreign key to the table named [bar.archive];
    schema [t2] has its own table [foo]. *)
Definition catalog_one : Introspection.Catalog :=
  {| Introspection.namespaces :=
       [ {| Introspection.nsp_oid := 1; Introspection.nspname := "public" |};
         {| Introspection.nsp_oid := 2; Introspection.nspname := "t1" |};
         {| Introspection.nsp_oid := 3; Introspection.nspname := "t2" |} ];
     Introspection.classes :=
       [ {| Introspection.oid := 10; Introspection.relname := "foo";
            Introspection.relkind := "r"; Introspection.relnamespace := 2 |};
         {| Introspection.oid := 11; Introspection.relname := "foo_pkey";
            Introspection.relkind := "i"; Introspection.relnamespace := 2 |};
         {| Introspection.oid := 12; Introspection.relname := "foo_view";
            Introspection.relkind := "v"; Introspection.relnamespace := 2 |};
         {| Introspection.oid := 13; Introspection.relname := "bar.archive";
            Introspection.relkind := "r"; Introspection.relnamespace := 2 |};
         {| Introspection.oid := 20; Introspection.relname := "foo";
            Introspection.relkind := "r"; Introspection.relnamespace := 3 |} ];
     Introspection.indexes :=
       [ {| Introspection.indexrelid := 11; Introspection.indrelid := 10;
            Introspection.indkey := [1]; Introspection.indisunique := true;
            Introspection.indisprimary := true |} ];
     Introspection.attributes :=
       [ {| Introspection.attrelid := 10; Introspection.attnum := 1;
            Introspection.attname := "id" |};
         {| Introspection.attrelid := 10; Introspection.attnum := 2;
            Introspection.attname := "bar_id" |};
         {| Introspection.attrelid := 13; Introspection.attnum := 1;
            Introspection.attname := "id" |};
         {| Introspection.attrelid := 20; Introspection.attnum := 1;
            Introspection.attname := "id" |} ];
     Introspection.key_columns :=
       [ {| Introspection.kcu_table_schema := "t1"; Introspection.kcu_table_name := "foo";
            Introspection.kcu_constraint_name := "foo_pkey";
            Introspection.kcu_column_name := "id";
            Introspection.kcu_ordinal_position := 1 |};
         {| Introspection.kcu_table_schema := "t1"; Introspection.kcu_table_name := "foo";
            Introspection.kcu_constraint_name := "foo_bar_fk";
            Introspection.kcu_column_name := "bar_id";
            Introspection.kcu_ordinal_position := 1 |} ];
     Introspection.constraints_of_tables :=
       [ {| Introspection.tc_table_schema := "t1"; Introspection.tc_table_name := "foo";
            Introspection.tc_constraint_name := "foo_pkey";
            Introspection.tc_constraint_type := "PRIMARY KEY" |};
         {| Introspection.tc_table_schema := "t1"; Introspection.tc_table_name := "foo";
            Introspection.tc_constraint_name := "foo_bar_fk";
            Introspection.tc_constraint_type := "FOREIGN KEY" |};
         {| Introspection.tc_table_schema := "t1"; Introspection.tc_table_name := "foo";
            Introspection.tc_constraint_name := "foo_id_check";
            Introspection.tc_constraint_type := "CHECK" |} ];
     Introspection.constraint_columns :=
       [ {| Introspection.ccu_table_schema := "t1"; Introspection.ccu_table_name := "foo";
            Introspection.ccu_column_name := "id";
            Introspection.ccu_constraint_name := "foo_pkey" |};
         {| Introspection.ccu_table_schema := "t1";
            Introspection.ccu_table_name := "bar.archive";
            Introspection.ccu_column_name := "id";
            Introspection.ccu_constraint_name := "foo_bar_fk" |};
         {| Introspection.ccu_table_schema := "t1"; Introspection.ccu_table_name := "foo";
            Introspection.ccu_column_name := "id";
            Introspection.ccu_constraint_name := "foo_id_check" |} ] |}.

(** The same catalog after [CREATE INDEX foo_t2_idx ON t2.foo (id)]: one
    more relation and one more index, both in schema [t2]. *)
Definition catalog_two : Introspection.Catalog :=
  {| Introspection.namespaces := Introspection.namespaces catalog_one;
     Introspection.classes :=
       Introspection.classes catalog_one ++
       [ {| Introspection.oid := 21; Introspection.relname := "foo_t2_idx";
            Introspection.relkind := "i"; Introspection.relnamespace := 3 |} ];
     Introspection.indexes :=
       Introspection.indexes catalog_one ++
       [ {| Introspection.indexrelid := 21; Introspection.indrelid := 20;
            Introspection.indkey := [1]; Introspection.indisunique := false;
            Introspection.indisprimary := false |} ];
     Introspection.attributes := Introspection.attributes catalog_one;
     Introspection.key_columns := Introspection.key_columns catalog_one;
     Introspection.constraints_of_tables :=
       Introspection.constraints_of_tables catalog_one;
     Introspection.constraint_columns := Introspection.constraint_columns catalog_one |}.

(** Two tenant schemas with the same tables.  In [t1] the table [foo] has
    the foreign key [foo_bar_fk] to [bar (id)]. *)
Definition catalog_fk_plain : Introspection.Catalog :=
  {| Introspection.namespaces :=
       [ {| Introspection.nsp_oid := 1; Introspection.nspname := "public" |};
         {| Introspection.nsp_oid := 2; Introspection.nspname := "t1" |};
         {| Introspection.nsp_oid := 3; Introspection.nspname := "t2" |} ];
     Introspection.classes :=
       [ {| Introspection.oid := 10; Introspection.relname := "foo";
            Introspection.relkind := "r"; Introspection.relnamespace := 2 |};
         {| Introspection.oid := 11; Introspection.relname := "bar";
            Introspection.relkind := "r"; Introspection.relnamespace := 2 |};
         {| Introspection.oid := 20; Introspection.relname := "foo";
            Introspection.relkind := "r"; Introspection.relnamespace := 3 |};
         {| Introspection.oid := 21; Introspection.relname := "baz";
            Introspection.relkind := "r"; Introspection.relnamespace := 3 |} ];
     Introspection.indexes := [];
     Introspection.attributes := [];
     Introspection.key_columns :=
       [ {| Introspection.kcu_table_schema := "t1"; Introspection.kcu_table_name := "foo";
            Introspection.kcu_constraint_name := "foo_bar_fk";
            Introspection.kcu_column_name := "bar_id";
            Introspection.kcu_ordinal_position := 1 |} ];
     Introspection.constraints_of_tables :=
       [ {| Introspection.tc_table_schema := "t1"; Introspection.tc_table_name := "foo";
            Introspection.tc_constraint_name := "foo_bar_fk";
            Introspection.tc_constraint_type := "FOREIGN KEY" |} ];
     Introspection.constraint_columns :=
       [ {| Introspection.ccu_table_schema := "t1"; Introspection.ccu_table_name := "bar";
            Introspection.ccu_column_name := "id";
            Introspection.ccu_constraint_name := "foo_bar_fk" |} ] |}.

(** The same catalog once [t2.foo] has a foreign key of the same name,
    [foo_bar_fk], to [t2.baz (code)]; its usage row is met first. *)
Definition catalog_fk_shadowed : Introspection.Catalog :=
  {| Introspection.namespaces := Introspection.namespaces catalog_fk_plain;
     Introspection.classes := Introspection.classes catalog_fk_plain;
     Introspection.indexes := Introspection.indexes catalog_fk_plain;
     Introspection.attributes := Introspection.attributes catalog_fk_plain;
     Introspection.key_columns :=
       {| Introspection.kcu_table_schema := "t2"; Introspection.kcu_table_name := "foo";
          Introspection.kcu_constraint_name := "foo_bar_fk";
          Introspection.kcu_column_name := "baz_code";
          Introspection.kcu_ordinal_position := 1 |}
       :: Introspection.key_columns catalog_fk_plain;
     Introspection.constraints_of_tables :=
       {| Introspection.tc_table_schema := "t2"; Introspection.tc_table_name := "foo";
          Introspection.tc_constraint_name := "foo_bar_fk";
          Introspection.tc_constraint_type := "FOREIGN KEY" |}
       :: Introspection.constraints_of_tables catalog_fk_plain;
     Introspection.constraint_columns :=
       {| Introspection.ccu_table_schema := "t2"; Introspection.ccu_table_name := "baz";
          Introspection.ccu_column_name := "code";
          Introspection.ccu_constraint_name := "foo_bar_fk" |}
       :: Introspection.constraint_columns catalog_fk_plain |}.

(** An introspection object whose connection is in schema [t1]. *)
Definition introspection_t1 : Introspection.DatabaseSchemaIntrospection :=
  {| Introspection.connection :=
       {| Introspection.schema_name := "t1";
          Introspection.public_schema_name := "public" |};
     Introspection.ignored_tables := [] |}.


(** A migration command that fails and leaves the connection in a schema
    that is neither the public one nor the tenant's. *)
Definition env_migration_strays : Collaborators :=
  {| get_public_schema_name := "public";
     check_schema_name := valid_name;
     migrate_schemas := fun _ _ _ => (Some (CommandError "migration failed"), "elsewhere");
     post_schema_sync_send := fun _ c => (None, c) |}.

(** The schema [t1] exists already, and no tenant row refers to it. *)
Definition w_schema_without_tenant : World :=
  empty_db "public" {[ "public"; "t1" ]}.

(** The public tenant and two tenants with one domain each. *)
Definition w_three_tenants : World :=
  {| connection_schema_name := "public";
     pg_schemas := {[ "public"; "t1"; "t2" ]};
     tenant_table :=
       [ {| row_id := 1; row_schema_name := "public"; row_name := "Public" |};
         {| row_id := 2; row_schema_name := "t1"; row_name := "Tenant one" |};
         {| row_id := 3; row_schema_name := "t2"; row_name := "Tenant two" |} ];
     tenant_seq := 3;
     domain_table :=
       [ domain_row 1 2 "one.example.com"; domain_row 2 3 "two.example.com" ];
     domain_seq := 2;
     statements := [] |}.

Definition tenant_one : Tenant :=
  tenant_of_row true false
    {| row_id := 2; row_schema_name := "t1"; row_name := "Tenant one" |}.

Definition tenant_two : Tenant :=
  tenant_of_row true false
    {| row_id := 3; row_schema_name := "t2"; row_name := "Tenant two" |}.

(** [catalog_one] without the usage row of the foreign key [foo_bar_fk]. *)
Definition catalog_fk_without_usage : Introspection.Catalog :=
  {| Introspection.namespaces := Introspection.namespaces catalog_one;
     Introspection.classes := Introspection.classes catalog_one;
     Introspection.indexes := Introspection.indexes catalog_one;
     Introspection.attributes := Introspection.attributes catalog_one;
     Introspection.key_columns := Introspection.key_columns catalog_one;
     Introspection.constraints_of_tables :=
       Introspection.constraints_of_tables catalog_one;
     Introspection.constraint_columns :=
       List.filter
         (fun u => negb (String.eqb (Introspection.ccu_constraint_name u) "foo_bar_fk"))
         (Introspection.constraint_columns catalog_one) |}.

End Scenarios.

(** * Facts about the Python string primitives *)

Module PyFacts.

Import Py.

#[local] Ltac Zify.zify_post_hook ::= Z.to_euclidean_division_equations.

Lemma byte_value n : (n < 256)%N -> N_of_ascii (byte n) = n.
Proof. apply N_ascii_embedding. Qed.

Lemma encode_cp_length c :
  String.length (encode_cp c)
  = if (c <? 128)%N then 1%nat else if (c <? 2048)%N then 2%nat
    else if (c <? 65536)%N then 3%nat else 4%nat.
Proof.
  unfold encode_cp.
  destruct (c <? 128)%N; [done|]. destruct (c <? 2048)%N; [done|].
  by destruct (c <? 65536)%N.
Qed.

Lemma eqb_other_length s t :
  String.length s <> String.length t -> String.eqb s t = false.
Proof.
  intros H. destruct (String.eqb s t) eqn:E; [|done].
  apply String.eqb_eq in E. by subst.
Qed.

Lemma encode_cp_cases c :
  ((c < 128)%N /\ encode_cp c = String (byte c) EmptyString) \/
  ((128 <= c < 2048)%N /\
   encode_cp c = String (byte (192 + c / 64)) (String (byte (128 + c mod 64)) EmptyString)) \/
  ((2048 <= c < 65536)%N /\
   encode_cp c = String (byte (224 + c / 4096))
                   (String (byte (128 + (c / 64) mod 64))
                      (String (byte (128 + c mod 64)) EmptyString))) \/
  ((65536 <= c)%N /\
   encode_cp c = String (byte (240 + c / 262144))
                   (String (byte (128 + (c / 4096) mod 64))
                      (String (byte (128 + (c / 64) mod 64))
                         (String (byte (128 + c mod 64)) EmptyString)))).
Proof.
  unfold encode_cp.
  destruct (N.ltb_spec c 128); [left; split; [lia|done]|].
  destruct (N.ltb_spec c 2048); [right; left; split; [lia|done]|].
  destruct (N.ltb_spec c 65536); [right; right; left; split; [lia|done]|].
  right; right; right. split; [lia|done].
Qed.

(** A candidate code point that needs another number of bytes is not the
    one encoded at this position. *)
Lemma not_encoded c (n : nat) bytes :
  String.length bytes = n ->
  (n = 2%nat -> (2048 <= c)%N) ->
  (n = 3%nat -> (65536 <= c)%N) ->
  (n = 2%nat \/ n = 3%nat) ->
  String.eqb (encode_cp c) bytes = false.
Proof.
  intros Hlen H2 H3 Hn. apply eqb_other_length. rewrite encode_cp_length, Hlen.
  destruct Hn as [-> | ->].
  - specialize (H2 eq_refl).
    assert ((c <? 128)%N = false) as -> by (apply N.ltb_ge; lia).
    assert ((c <? 2048)%N = false) as -> by (apply N.ltb_ge; lia).
    by destruct (c <? 65536)%N.
  - specialize (H3 eq_refl).
    assert ((c <? 128)%N = false) as -> by (apply N.ltb_ge; lia).
    assert ((c <? 2048)%N = false) as -> by (apply N.ltb_ge; lia).
    by assert ((c <? 65536)%N = false) as -> by (apply N.ltb_ge; lia).
Qed.

Lemma decode_encode_cp c s :
  valid c -> decode (encode_cp c ++ s) = option_map (cons c) (decode s).
Proof.
  unfold valid. intros Hc.
  destruct (encode_cp_cases c) as [[Hr E]|[[Hr E]|[[Hr E]|[Hr E]]]].
  - rewrite E. cbv [String.append]; cbn [decode].
    rewrite byte_value by lia.
    by assert ((c <? 128)%N = true) as -> by (apply N.ltb_lt; lia).
  - rewrite E. cbv [String.append]; cbn [decode].
    rewrite !byte_value by lia.
    assert ((192 + c / 64 <? 128)%N = false) as -> by (apply N.ltb_ge; lia).
    assert ((192 + c / 64 - 192) * 64 + (128 + c mod 64 - 128) = c)%N as -> by lia.
    by rewrite E, String.eqb_refl.
  - rewrite E. cbv [String.append]; cbn [decode].
    rewrite !byte_value by lia.
    assert ((224 + c / 4096 <? 128)%N = false) as -> by (apply N.ltb_ge; lia).
    rewrite (not_encoded _ 2) by (cbn [String.length]; first [done|lia|by left]).
    assert ((224 + c / 4096 - 224) * 4096 + (128 + (c / 64) mod 64 - 128) * 64
            + (128 + c mod 64 - 128) = c)%N as -> by lia.
    by rewrite E, String.eqb_refl.
  - rewrite E. cbv [String.append]; cbn [decode].
    rewrite !byte_value by lia.
    assert ((240 + c / 262144 <? 128)%N = false) as -> by (apply N.ltb_ge; lia).
    rewrite (not_encoded _ 2) by (cbn [String.length]; first [done|lia|by left]).
    rewrite (not_encoded _ 3) by (cbn [String.length]; first [done|lia|by right]).
    assert ((240 + c / 262144 - 240) * 262144 + (128 + (c / 4096) mod 64 - 128) * 4096
            + (128 + (c / 64) mod 64 - 128) * 64 + (128 + c mod 64 - 128) = c)%N
      as -> by lia.
    assert ((c <? 1114112)%N = true) as -> by (apply N.ltb_lt; lia).
    by rewrite E, String.eqb_refl.
Qed.


Lemma decode_encode l : Forall valid l -> decode (encode l) = Some l.
Proof.
  induction 1 as [|c l Hc _ IH]; [done|].
  cbn [encode]. by rewrite decode_encode_cp, IH.
Qed.

Lemma encoded_valid c bytes :
  String.eqb (encode_cp c) bytes = true -> (String.length bytes <= 3)%nat -> valid c.
Proof.
  intros E Hlen. apply String.eqb_eq in E. subst bytes.
  rewrite encode_cp_length in Hlen. unfold valid.
  destruct (N.ltb_spec c 128); [lia|]. destruct (N.ltb_spec c 2048); [lia|].
  destruct (N.ltb_spec c 65536); lia.
Qed.

Lemma option_map_cons_valid c (o : option (list N)) l :
  valid c -> (forall l', o = Some l' -> Forall valid l') ->
  option_map (cons c) o = Some l -> Forall valid l.
Proof.
  intros Hc Ho. destruct o as [l'|]; [|done]. cbn. intros [= <-].
  constructor; [done|]. by apply Ho.
Qed.

Lemma decode_valid_upto (n : nat) s l :
  (String.length s <= n)%nat -> decode s = Some l -> Forall valid l.
Proof.
  revert s l. induction n as [|n IH]; intros s l Hn.
  { destruct s; [|cbn in Hn; lia]. cbn. intros [= <-]. constructor. }
  destruct s as [|b0 s1]; [cbn; intros [= <-]; constructor|].
  cbn [String.length] in Hn. cbn [decode].
  destruct (N.ltb_spec (N_of_ascii b0) 128) as [H0|H0].
  { apply option_map_cons_valid; [unfold valid; lia|].
    intros l'. apply IH. lia. }
  destruct s1 as [|b1 s2]; [done|]. cbn [String.length] in Hn.
  destruct (String.eqb (encode_cp _) (String b0 (String b1 EmptyString))) eqn:E2.
  { apply option_map_cons_valid; [by apply (encoded_valid _ _ E2); cbn; lia|].
    intros l'. apply IH. lia. }
  destruct s2 as [|b2 s3]; [done|]. cbn [String.length] in Hn.
  destruct (String.eqb (encode_cp _) (String b0 (String b1 (String b2 EmptyString)))) eqn:E3.
  { apply option_map_cons_valid; [by apply (encoded_valid _ _ E3); cbn; lia|].
    intros l'. apply IH. lia. }
  destruct s3 as [|b3 s4]; [done|]. cbn [String.length] in Hn.
  match goal with |- context [(?c <? 1114112)%N] => destruct (N.ltb_spec c 1114112) as [H4|H4] end;
    cbn [andb]; [|intros; discriminate].
  match goal with |- context [if ?b then _ else _] => destruct b end;
    [|intros; discriminate].
  apply option_map_cons_valid; [done|].
  intros l'. apply IH. lia.
Qed.

Lemma decode_valid s l : decode s = Some l -> Forall valid l.
Proof. by apply (decode_valid_upto (String.length s)). Qed.

(** *** The lowercase mapping *)

Lemma covers_elements c b : covers c b = true -> In c (block_elements b).
Proof.
  destruct b as [[[first last] step] target]. unfold covers, block_elements.
  rewrite !andb_true_iff, !N.leb_le, N.eqb_eq. intros [[H1 H2] H3].
  apply in_map_iff. exists (N.to_nat ((c - first) / step)). split.
  - rewrite N2Nat.id. pose proof (N.div_mod' (c - first) step) as Hdm.
    rewrite H3, N.add_0_r in Hdm. rewrite <- Hdm. clear Hdm H3. lia.
  - assert (Hle : ((c - first) / step <= (last - first) / step)%N).
    { apply N.Div0.div_le_mono. clear H3. lia. }
    revert Hle. generalize ((c - first) / step)%N ((last - first) / step)%N.
    clear. intros a b Hle. apply in_seq. lia.
Qed.

Lemma stable_b_stable x : stable_b x = true -> stable x.
Proof.
  unfold stable_b, stable, lower_cp, valid.
  rewrite !andb_true_iff, !negb_true_iff, !N.eqb_neq, N.ltb_lt.
  intros [[[H1 H2] H3] H4]. split; [done|]. split; [|done].
  apply N.eqb_neq in H2. rewrite H2.
  by destruct (find (covers x) lower_blocks).
Qed.

Lemma blocks_stable :
  forallb (fun b => let '(first, _, _, target) := b in
                    forallb (fun c => stable_b (target + (c - first))) (block_elements b))
    lower_blocks = true.
Proof. vm_compute. reflexivity. Qed.

Lemma lower_cp_stable c :
  c <> capital_sigma -> valid c -> Forall stable (lower_cp c).
Proof.
  intros Hs Hv. unfold lower_cp.
  destruct (N.eqb_spec c 304) as [->|H304].
  { repeat constructor; by apply stable_b_stable. }
  destruct (find (covers c) lower_blocks) as [[[[first last] step] target]|] eqn:Hf.
  - apply find_some in Hf as [Hin Hc].
    pose proof blocks_stable as Hall.
    rewrite forallb_forall in Hall. specialize (Hall _ Hin). cbn beta iota in Hall.
    rewrite forallb_forall in Hall.
    constructor; [|constructor]. apply stable_b_stable, Hall.
    by apply covers_elements.
  - constructor; [|constructor]. split; [done|]. split; [|done].
    unfold lower_cp. apply N.eqb_neq in H304. by rewrite H304, Hf.
Qed.

Lemma lower_sigma_stable before after : stable (lower_sigma before after).
Proof.
  unfold lower_sigma.
  destruct (first_not_ignorable before) as [c|]; [|by apply stable_b_stable].
  destruct (cased c); [|by apply stable_b_stable].
  destruct (first_not_ignorable after) as [c'|]; [|by apply stable_b_stable].
  destruct (cased c'); by apply stable_b_stable.
Qed.

Lemma lower_from_stable before l :
  Forall valid l -> Forall stable (lower_from before l).
Proof.
  intros Hl. revert before. induction Hl as [|c l Hc _ IH]; intros before; [constructor|].
  cbn [lower_from]. apply Forall_app. split; [|apply IH].
  destruct (N.eqb_spec c capital_sigma) as [->|Hs].
  - constructor; [apply lower_sigma_stable|constructor].
  - by apply lower_cp_stable.
Qed.

Lemma lower_from_fixed before l : Forall stable l -> lower_from before l = l.
Proof.
  intros Hl. revert before. induction Hl as [|c l [Hs [Hc _]] _ IH]; intros before; [done|].
  cbn [lower_from]. apply N.eqb_neq in Hs. by rewrite Hs, Hc, IH.
Qed.

Lemma stable_valid l : Forall stable l -> Forall valid l.
Proof. intros H. eapply Forall_impl; [exact H|]. by intros c (_ & _ & Hv). Qed.

(** [str.lower] changes nothing in a string that it produced. *)
Lemma lower_idempotent s : lower (lower s) = lower s.
Proof.
  unfold lower at 2 3. destruct (decode s) as [l|] eqn:Hd.
  - pose proof (lower_from_stable [] l (decode_valid _ _ Hd)) as Hst.
    unfold lower, lower_code_points.
    rewrite decode_encode by (by apply stable_valid).
    by rewrite lower_from_fixed.
  - unfold lower. by rewrite Hd.
Qed.


(** On ASCII strings [str.lower] is the letter-by-letter lowercase form. *)
Lemma lower_cp_ascii b :
  (N_of_ascii b < 128)%N ->
  (N_of_ascii b =? capital_sigma)%N = false /\
  lower_cp (N_of_ascii b) = [N_of_ascii (ascii_lowercase_letter b)].
Proof.
  destruct b as [b0 b1 b2 b3 b4 b5 b6 []].
  - intros H. exfalso. revert H.
    destruct b0, b1, b2, b3, b4, b5, b6; vm_compute; by intros [=].
  - intros _. destruct b0, b1, b2, b3, b4, b5, b6; vm_compute; by split.
Qed.

Lemma ascii_lowercase_letter_ascii b :
  (N_of_ascii b < 128)%N -> (N_of_ascii (ascii_lowercase_letter b) < 128)%N.
Proof.
  destruct b as [b0 b1 b2 b3 b4 b5 b6 []].
  - intros H. exfalso. revert H.
    destruct b0, b1, b2, b3, b4, b5, b6; vm_compute; by intros [=].
  - intros _. destruct b0, b1, b2, b3, b4, b5, b6; vm_compute; done.
Qed.

Lemma decode_ascii s :
  is_ascii s = true ->
  decode s = Some (map N_of_ascii (list_ascii_of_string s)).
Proof.
  induction s as [|b s IH]; [done|]. cbn [is_ascii decode list_ascii_of_string map].
  rewrite andb_true_iff. intros [Hb Hs]. by rewrite Hb, (IH Hs).
Qed.

Lemma lower_from_ascii before s :
  is_ascii s = true ->
  encode (lower_from before (map N_of_ascii (list_ascii_of_string s)))
  = ascii_lowercase s.
Proof.
  revert before. induction s as [|b s IH]; intros before; [done|].
  cbn [is_ascii list_ascii_of_string map lower_from ascii_lowercase].
  rewrite andb_true_iff, N.ltb_lt. intros [Hb Hs].
  destruct (lower_cp_ascii b Hb) as [-> ->].
  cbn [app encode]. rewrite (IH _ Hs).
  pose proof (ascii_lowercase_letter_ascii b Hb) as Hl.
  unfold encode_cp. apply N.ltb_lt in Hl. rewrite Hl.
  unfold byte. by rewrite ascii_N_embedding.
Qed.

Lemma lower_ascii s : is_ascii s = true -> lower s = ascii_lowercase s.
Proof.
  intros H. unfold lower, lower_code_points. rewrite (decode_ascii s H).
  by apply lower_from_ascii.
Qed.

Lemma len_ascii s : is_ascii s = true -> len s = String.length s.
Proof.
  intros H. unfold len. rewrite (decode_ascii s H), length_map.
  clear H. induction s as [|b s IH]; [done|]. cbn. by rewrite IH.
Qed.

End PyFacts.

(** ** Properties of the tenant life cycle *)

Module ModelsProofs.

Import Models Scenarios PyFacts.

(** *** The ORM model *)

Lemma has_tenant_row_deleted k w : has_tenant_row k (tenant_deleted k w) = false.
Proof.
  unfold has_tenant_row, tenant_deleted. simpl.
  induction (tenant_table w) as [|r l IH]; simpl; [done|].
  destruct (row_id r =? k) eqn:E; simpl; [done|]. by rewrite E.
Qed.

Lemma schema_dropped_gone n w : Pg.identifier n ∉ pg_schemas (schema_dropped n w).
Proof.
  unfold schema_dropped. simpl. rewrite elem_of_difference, elem_of_singleton.
  intros [_ Hne]. by apply Hne.
Qed.

Lemma schema_created_there n w : Pg.identifier n ∈ pg_schemas (schema_created n w).
Proof.
  unfold schema_created. simpl. apply elem_of_union. left. by apply elem_of_singleton.
Qed.

Lemma In_replaced_row k self l :
  existsb (fun r => row_id r =? k) l = true ->
  In (tenant_row k self)
     (map (fun r => if row_id r =? k then tenant_row k self else r) l).
Proof.
  induction l as [|r l IH]; simpl; [done|].
  destruct (row_id r =? k) eqn:E; simpl; [by left|]. intros H. right. by apply IH.
Qed.

(** What a successful ORM save leaves behind. *)
Lemma Model_save_Tenant_ok self w self' w1 :
  Model_save_Tenant self w = (Ok self', w1) ->
  exists k,
    self' = with_pk k self /\
    (forall k0, pk self = Some k0 -> k0 = k) /\
    In (tenant_row k self) (tenant_table w1) /\
    connection_schema_name w1 = connection_schema_name w /\
    pg_schemas w1 = pg_schemas w /\
    statements w `prefix_of` statements w1.
Proof.
  unfold Model_save_Tenant.
  destruct (_ || _)%bool; [discriminate|].
  destruct self as [[k|] sn nm ac ad]; simpl.
  - destruct (existsb _ _); [discriminate|].
    destruct (has_tenant_row k w) eqn:Hrow; intros H; inversion H; subst; clear H;
      exists k; simpl; (split; [done|]); (split; [by intros ? [= ->]|]);
      (split; [|split; [done|split; [done|by apply prefix_app_r]]]).
    + by apply (In_replaced_row k {| pk := Some k; schema_name := sn; name := nm;
                  auto_create_schema := ac; auto_drop_schema := ad |}).
    + apply in_or_app. right. by left.
  - destruct (existsb _ _); [discriminate|].
    intros H; inversion H; subst; clear H.
    exists (tenant_seq w + 1); simpl. split; [done|]. split; [done|].
    split; [apply in_or_app; right; by left|].
    split; [done|]. split; [done|]. by apply prefix_app_r.
Qed.

Section Facts.

Context (env : Collaborators).

Lemma in_own_or_public_iff x self :
  in_own_or_public env x self = true <->
  x = schema_name self \/ x = get_public_schema_name env.
Proof.
  unfold in_own_or_public. rewrite orb_true_iff, !String.eqb_eq. done.
Qed.

(** *** The paths through [create_schema] *)

Lemma create_schema_invalid self cie sync v w :
  check_schema_name env (schema_name self) = false ->
  create_schema env self cie sync v w = (Raise ValidationError, w).
Proof.
  intros Hc. unfold create_schema, _check_schema_name, connection_cursor,bind. rewrite Hc. reflexivity.
Qed.

Lemma create_schema_short_circuit self sync v w :
  check_schema_name env (schema_name self) = true ->
  Pg.identifier (schema_name self) ∈ pg_schemas w ->
  create_schema env self true sync v w = (Ok (Some false), w).
Proof.
  intros Hc Hin. unfold create_schema, _check_schema_name, connection_cursor,schema_exists, bind, gets, ret.
  rewrite Hc. simpl. rewrite bool_decide_eq_true_2 by assumption. reflexivity.
Qed.

Lemma create_schema_refused self sync v w :
  check_schema_name env (schema_name self) = true ->
  Pg.identifier (schema_name self) ∈ pg_schemas w ->
  create_schema env self false sync v w =
    (Raise (ProgrammingError
              (Pg.schema_error (Pg.identifier (schema_name self)) "already exists")), w).
Proof.
  intros Hc Hin.
  unfold create_schema, _check_schema_name, connection_cursor,execute_create_schema, bind, gets, ret.
  rewrite Hc. simpl. rewrite bool_decide_eq_true_2 by assumption. reflexivity.
Qed.

Lemma create_schema_fresh self cie sync v w :
  check_schema_name env (schema_name self) = true ->
  Pg.identifier (schema_name self) ∉ pg_schemas w ->
  create_schema env self cie sync v w =
    (if sync
     then match migrate_schemas env (schema_name self) v (connection_schema_name w) with
          | (None, _) =>
              (Ok None, with_connection_schema_name (get_public_schema_name env)
                          (schema_created (schema_name self) w))
          | (Some e, c) =>
              (Raise e, with_connection_schema_name c (schema_created (schema_name self) w))
          end
     else (Ok None, with_connection_schema_name (get_public_schema_name env)
                      (schema_created (schema_name self) w))).
Proof.
  intros Hc Hin.
  unfold create_schema, _check_schema_name, connection_cursor,schema_exists, execute_create_schema,
    call_command_migrate_schemas, set_schema_to_public, bind, gets, ret, modify.
  rewrite Hc.
  destruct cie; simpl; rewrite ?bool_decide_eq_false_2 by assumption;
    destruct sync; simpl; try reflexivity;
    destruct (migrate_schemas env (schema_name self) v (connection_schema_name w)) as [[e|] c];
    reflexivity.
Qed.

Lemma create_schema_cases self cie sync v w :
  create_schema env self cie sync v w = (Raise ValidationError, w) \/
  create_schema env self cie sync v w = (Ok (Some false), w) \/
  (exists msg, create_schema env self cie sync v w = (Raise (ProgrammingError msg), w)) \/
  (exists r c, create_schema env self cie sync v w =
     (r, with_connection_schema_name c (schema_created (schema_name self) w))).
Proof.
  destruct (check_schema_name env (schema_name self)) eqn:Hc.
  2:{ left. by apply create_schema_invalid. }
  destruct (decide (Pg.identifier (schema_name self) ∈ pg_schemas w)) as [Hin|Hin].
  - destruct cie.
    + right; left. by apply create_schema_short_circuit.
    + right; right; left. eexists. by apply create_schema_refused.
  - right; right; right. rewrite create_schema_fresh by done.
    destruct sync; [|by eauto].
    destruct (migrate_schemas env (schema_name self) v (connection_schema_name w))
      as [[e|] c]; by eauto.
Qed.

(** [create_schema] and the signal leave the tenant table alone and only
    add statements. *)
Lemma create_schema_frame self cie sync v w r w' :
  create_schema env self cie sync v w = (r, w') ->
  tenant_table w' = tenant_table w /\ statements w `prefix_of` statements w'.
Proof.
  intros H.
  destruct (create_schema_cases self cie sync v w)
    as [E | [E | [[msg E] | (r0 & c & E)]]];
    rewrite E in H; inversion H; subst; simpl; split; try done.
  by apply prefix_app_r.
Qed.

Lemma post_schema_sync_frame t w r w' :
  post_schema_sync env t w = (r, w') ->
  tenant_table w' = tenant_table w /\ statements w' = statements w.
Proof.
  unfold post_schema_sync.
  destruct (post_schema_sync_send env t (connection_schema_name w)) as [[e|] c];
    by intros [= <- <-].
Qed.

Lemma provision_frame self v w r w' :
  provision env self v w = (r, w') ->
  tenant_table w' = tenant_table w /\ statements w `prefix_of` statements w'.
Proof.
  unfold provision, bind.
  destruct (create_schema env self true true v w) as [[o|e] w1] eqn:Hc;
    apply create_schema_frame in Hc as [Ht Hs].
  - intros Hp. apply post_schema_sync_frame in Hp as [Ht' Hs'].
    split; [congruence|]. by rewrite Hs'.
  - by intros [= <- <-].
Qed.

(** *** The paths through [delete] *)

Lemma delete_allowed self force w k :
  pk self = Some k ->
  in_own_or_public env (connection_schema_name w) self = true ->
  delete env self force w =
    (Ok tt,
     tenant_deleted k
       (if bool_decide (Pg.identifier (schema_name self) ∈ pg_schemas w)
           && (auto_drop_schema self || force)
        then schema_dropped (schema_name self) w else w)).
Proof.
  intros Hpk Hctx.
  unfold delete, connection_cursor, bind, gets, schema_exists,
    execute_drop_schema_cascade,
    Model_delete_Tenant, modify, ret.
  rewrite Hctx, Hpk. simpl.
  destruct (bool_decide (Pg.identifier (schema_name self) ∈ pg_schemas w)) eqn:Hin; simpl; [|done].
  destruct (auto_drop_schema self || force); simpl; [|done].
  rewrite Hin. done.
Qed.

Lemma delete_rejected self force w :
  in_own_or_public env (connection_schema_name w) self = false ->
  exists msg, delete env self force w = (Raise (Exception_ msg), w).
Proof.
  intros Hctx. unfold delete, bind, gets, raise. rewrite Hctx. simpl. eauto.
Qed.

Lemma delete_frame self force w r w' :
  delete env self force w = (r, w') ->
  statements w `prefix_of` statements w' /\
  connection_schema_name w' = connection_schema_name w.
Proof.
  unfold delete, connection_cursor, bind, gets, schema_exists,
    execute_drop_schema_cascade,
    Model_delete_Tenant, modify, ret, raise.
  destruct (negb _); simpl; [by intros [= <- <-]|].
  destruct (bool_decide (Pg.identifier (schema_name self) ∈ pg_schemas w)) eqn:Hin; simpl;
    destruct (auto_drop_schema self || force); simpl; rewrite ?Hin; simpl;
    destruct (pk self); simpl; intros [= <- <-]; simpl; (split; [|done]);
    rewrite <- ?app_assoc; try done; by apply prefix_app_r.
Qed.

(** *** Claims about [create_schema] *)

(** C2, as the code has it.  The connection context on exit of
    [create_schema] depends on the path taken: after CREATE SCHEMA and a
    completed run it is the public schema; on the short circuit (the value
    [False]) the world, and so the context, is untouched; when the call
    raises, either nothing has changed (the validator or the database
    refused), or the migration command failed, its error propagates, and
    the context is the one that command left: no reset takes place. *)
Theorem create_schema_exit_context self cie sync v w r w' :
  create_schema env self cie sync v w = (r, w') ->
  match r with
  | Ok None =>
      connection_schema_name w' = get_public_schema_name env
  | Ok (Some b) =>
      b = false /\ w' = w
  | Raise e =>
      w' = w \/
      (sync = true /\
       migrate_schemas env (schema_name self) v (connection_schema_name w)
         = (Some e, connection_schema_name w'))
  end.
Proof.
  intros H.
  destruct (check_schema_name env (schema_name self)) eqn:Hc.
  2:{ rewrite create_schema_invalid in H by assumption.
      inversion H; subst. by left. }
  destruct (decide (Pg.identifier (schema_name self) ∈ pg_schemas w)) as [Hin|Hin].
  - destruct cie.
    + rewrite create_schema_short_circuit in H by assumption.
      inversion H; subst. done.
    + rewrite create_schema_refused in H by assumption.
      inversion H; subst. by left.
  - rewrite create_schema_fresh in H by assumption.
    destruct sync.
    + destruct (migrate_schemas env (schema_name self) v (connection_schema_name w))
        as [[e|] c] eqn:Hm; inversion H; subst; simpl; [|done].
      right. done.
    + inversion H; subst. done.
Qed.

(** C4, on the code.  Whenever [create_schema] returns, its value is
    [False] on the short circuit (existence check requested, schema there,
    nothing issued) and Python's [None] after it has issued CREATE SCHEMA:
    the body ends without [return True], so the value is never [True]. *)
Theorem create_schema_result self cie sync v w r w' :
  create_schema env self cie sync v w = (Ok r, w') ->
  (r = Some false /\ cie = true /\ (Pg.identifier (schema_name self) ∈ pg_schemas w) /\ w' = w) \/
  (r = None /\ (Pg.identifier (schema_name self) ∉ pg_schemas w) /\
   statements w' = (statements w ++ [SqlCreateSchema (schema_name self)])%list /\
   (Pg.identifier (schema_name self) ∈ pg_schemas w')).
Proof.
  intros H.
  destruct (check_schema_name env (schema_name self)) eqn:Hc.
  2:{ rewrite create_schema_invalid in H by assumption. discriminate. }
  destruct (decide (Pg.identifier (schema_name self) ∈ pg_schemas w)) as [Hin|Hin].
  - destruct cie.
    + rewrite create_schema_short_circuit in H by assumption.
      inversion H; subst. by left.
    + rewrite create_schema_refused in H by assumption. discriminate.
  - rewrite create_schema_fresh in H by assumption. right.
    destruct sync.
    + destruct (migrate_schemas env (schema_name self) v (connection_schema_name w))
        as [[e|] c] eqn:Hm; inversion H; subst; simpl.
      repeat split; try done. apply (schema_created_there _ w).
    + inversion H; subst; simpl. repeat split; try done.
      apply (schema_created_there _ w).
Qed.

(** *** Claim about [delete] *)

(** C5.  A saved tenant deleted from its own schema or from the public
    schema: when the physical schema exists and [auto_drop_schema] or the
    force flag is set, DROP SCHEMA ... CASCADE is issued first and the row
    delete second, and both are gone afterwards; when [auto_drop_schema] is
    false and no force flag is passed, only the row delete is issued and
    the set of physical schemas is unchanged. *)
Theorem delete_schema_then_row self force w k :
  pk self = Some k ->
  connection_schema_name w = schema_name self \/
    connection_schema_name w = get_public_schema_name env ->
  ((Pg.identifier (schema_name self) ∈ pg_schemas w) ->
   auto_drop_schema self = true \/ force = true ->
   exists w',
     delete env self force w = (Ok tt, w') /\
     statements w' =
       (statements w ++ [SqlDropSchemaCascade (schema_name self); SqlDeleteTenant k])%list /\
     (Pg.identifier (schema_name self) ∉ pg_schemas w') /\
     has_tenant_row k w' = false)
  /\
  (auto_drop_schema self = false -> force = false ->
   exists w',
     delete env self force w = (Ok tt, w') /\
     statements w' = (statements w ++ [SqlDeleteTenant k])%list /\
     pg_schemas w' = pg_schemas w /\
     has_tenant_row k w' = false).
Proof.
  intros Hpk Hctx. apply in_own_or_public_iff in Hctx.
  split.
  - intros Hin Hflag. eexists. split; [by apply delete_allowed|].
    rewrite bool_decide_eq_true_2 by done.
    assert (auto_drop_schema self || force = true) as Hor
      by (destruct Hflag as [-> | ->]; [done | apply orb_true_r]).
    rewrite Hor. simpl. split; [by rewrite <- app_assoc|].
    split; [apply schema_dropped_gone|].
    apply has_tenant_row_deleted.
  - intros Ha Hf. eexists. split; [by apply delete_allowed|].
    rewrite Ha, Hf, andb_false_r. simpl. split; [done|]. split; [done|].
    apply has_tenant_row_deleted.
Qed.

(** *** Claims about [save] *)

(** C1, as the code has it.  A new tenant with [auto_create_schema], saved
    from the public schema, whose row the ORM accepted and whose
    provisioning (schema creation, migration, signal) then raised [e]: if
    the connection is then in the public schema or in the tenant's own
    schema, so that the compensating [delete] is allowed, [save] raises the
    same [e], the row is gone, the physical schema does not exist, and the
    connection is still in the schema it was in when provisioning failed. *)
Theorem save_failed_creation_rolls_back self v w self' w1 e w2 :
  pk self = None ->
  auto_create_schema self = true ->
  connection_schema_name w = get_public_schema_name env ->
  Model_save_Tenant self w = (Ok self', w1) ->
  provision env self' v w1 = (Raise e, w2) ->
  connection_schema_name w2 = schema_name self \/
    connection_schema_name w2 = get_public_schema_name env ->
  exists k w3,
    pk self' = Some k /\
    save env self v w = (Raise e, w3) /\
    has_tenant_row k w3 = false /\
    (Pg.identifier (schema_name self) ∉ pg_schemas w3) /\
    connection_schema_name w3 = connection_schema_name w2.
Proof.
  intros Hpk Hauto Hctx Hsave Hprov Hctx2.
  destruct (Model_save_Tenant_ok _ _ _ _ Hsave) as (k & -> & _ & _ & _ & _ & _).
  assert (Hdel : in_own_or_public env (connection_schema_name w2) (with_pk k self) = true)
    by (by apply in_own_or_public_iff).
  exists k. eexists. split; [done|]. split.
  - unfold save, bind, gets. rewrite Hpk, Hctx, String.eqb_refl. simpl.
    rewrite Hsave. simpl. rewrite Hauto. unfold try_except, bind.
    rewrite Hprov.
    rewrite (delete_allowed (with_pk k self) true w2 k) by done.
    reflexivity.
  - split; [apply has_tenant_row_deleted|]. simpl.
    rewrite orb_true_r, andb_true_r.
    destruct (bool_decide (Pg.identifier (schema_name self) ∈ pg_schemas w2)) eqn:Hin; simpl.
    + split; [apply schema_dropped_gone|done].
    + apply bool_decide_eq_false in Hin. done.
Qed.



End Facts.

(** *** Domains *)

Lemma Domain_filter_In t d w r :
  In r (Domain_filter t d w) ->
  In r (domain_table w) /\ pk t = Some (drow_tenant_id r) /\ drow_domain r = d.
Proof.
  unfold Domain_filter. destruct (pk t) as [k|]; [|done].
  rewrite List.filter_In, andb_true_iff, Z.eqb_eq, String.eqb_eq.
  intros (? & -> & ?). done.
Qed.


(** The two ways [add_domain] returns: the row was there, or it was
    inserted. *)
Lemma add_domain_ok self d w obj w' :
  add_domain self d w = (Ok obj, w') ->
  (exists r, Domain_filter self (Py.lower d) w = [r] /\
             obj = domain_of_row r /\ w' = w) \/
  (exists k, pk self = Some k /\
     Domain_filter self (Py.lower d) w = [] /\
     obj = {| domain_pk := Some (domain_seq w + 1); tenant := Some k;
              domain := Py.lower d |} /\
     w' = domain_inserted (domain_seq w + 1) k (Py.lower d) (domain_seq w + 1) w).
Proof.
  unfold add_domain, bind, Domain_get_or_create, Domain_get, ret.
  destruct (Domain_filter self (Py.lower d) w) as [|r [|r' l]] eqn:Hf.
  - unfold Domain_create, Domain_save, Model_save_Domain. simpl.
    destruct (pk self) as [k|] eqn:Hpk; [|discriminate].
    rewrite lower_idempotent.
    destruct (Nat.ltb _ _); [discriminate|].
    destruct (existsb _ _).
    + assert (Domain_filter self (Py.lower d)
                (with_domain_table (domain_table w) (domain_seq w + 1) w) = []) as ->
        by (unfold Domain_filter in *; by rewrite Hpk in *).
      discriminate.
    + intros [= <- <-]. right. exists k. done.
  - intros [= <- <-]. left. by exists r.
  - discriminate.
Qed.

(** A domain nobody holds yet is inserted, and [add_domain] returns it. *)
Lemma add_domain_creates self k d w :
  pk self = Some k ->
  (Py.len (Py.lower d) <= 128)%nat ->
  (forall r, In r (domain_table w) ->
     drow_domain r <> Py.lower d /\ drow_id r <> domain_seq w + 1) ->
  add_domain self d w =
    (Ok {| domain_pk := Some (domain_seq w + 1); tenant := Some k;
           domain := Py.lower d |},
     domain_inserted (domain_seq w + 1) k (Py.lower d) (domain_seq w + 1) w).
Proof.
  intros Hpk Hlen Hfresh.
  unfold add_domain, bind, Domain_get_or_create, Domain_get, ret.
  assert (Hf : Domain_filter self (Py.lower d) w = []).
  { destruct (Domain_filter self (Py.lower d) w) as [|r l] eqn:Hf; [done|].
    assert (Hin : In r (Domain_filter self (Py.lower d) w)) by (rewrite Hf; by left).
    apply Domain_filter_In in Hin as (Hin & _ & Hd).
    by destruct (Hfresh r Hin). }
  rewrite Hf.
  unfold Domain_create, Domain_save, Model_save_Domain. simpl.
  rewrite Hpk, lower_idempotent.
  assert (Nat.ltb 128 (Py.len (Py.lower d)) = false) as -> by (apply Nat.ltb_ge; lia).
  assert (existsb (fun r => String.eqb (drow_domain r) (Py.lower d)
                            || (drow_id r =? domain_seq w + 1)) (domain_table w)
          = false) as ->.
  { apply not_true_is_false. intros (r & Hin & Hr)%existsb_exists.
    destruct (Hfresh r Hin) as [Hd Hid].
    apply orb_true_iff in Hr as [Hr%String.eqb_eq | Hr%Z.eqb_eq]; done. }
  reflexivity.
Qed.

(** What the two write paths leave in the table. *)
Lemma write_paths_store_lower :
  (forall self d w obj w',
     add_domain self d w = (Ok obj, w') ->
     domain obj = Py.lower d /\
     In (Py.lower d) (get_domains self w') /\
     (forall r, In r (domain_table w') ->
                In r (domain_table w) \/ drow_domain r = Py.lower d))
  /\
  (forall self w obj w',
     Domain_save self w = (Ok obj, w') ->
     domain obj = Py.lower (domain self) /\
     (exists r, In r (domain_table w') /\ Some (drow_id r) = domain_pk obj /\
                drow_domain r = Py.lower (domain self)) /\
     (forall r, In r (domain_table w') ->
                In r (domain_table w) \/ drow_domain r = Py.lower (domain self))).
Proof.
  split.
  - intros self d w obj w' H.
    apply add_domain_ok in H as [(r & Hf & -> & ->) | (k & Hk & Hf & -> & ->)].
    + assert (In r (Domain_filter self (Py.lower d) w)) as Hin by (rewrite Hf; by left).
      apply Domain_filter_In in Hin as (Hin & Hpk & Hd).
      split; [done|]. split; [|by left].
      unfold get_domains. rewrite Hpk. apply in_map_iff. exists r. split; [done|].
      apply List.filter_In. split; [done|]. apply Z.eqb_refl.
    + split; [done|]. split.
      * unfold get_domains. rewrite Hk. simpl. rewrite List.filter_app, map_app. simpl.
        rewrite Z.eqb_refl. simpl. apply in_or_app. right. by left.
      * simpl. intros r [Hr | [<- | []]]%in_app_or; [by left | by right].
  - intros self w obj w'. unfold Domain_save, Model_save_Domain. simpl.
    destruct (tenant self) as [t|]; [|discriminate].
    destruct (Nat.ltb _ _); [discriminate|].
    destruct (domain_pk self) as [k|].
    + destruct (existsb _ _); [discriminate|].
      destruct (existsb (fun r => drow_id r =? k) (domain_table w)) eqn:Hex;
        intros [= <- <-]; simpl; (split; [done|]); split.
      * apply existsb_exists in Hex as (r0 & Hr0 & Hid).
        exists (domain_row k t (Py.lower (domain self))). split; [|done].
        apply in_map_iff. exists r0. split; [by rewrite Hid | done].
      * intros r (r0 & <- & Hr0)%in_map_iff.
        destruct (drow_id r0 =? k); [by right | by left].
      * exists (domain_row k t (Py.lower (domain self))). split; [|done].
        apply in_or_app. right. by left.
      * intros r [Hr | [<- | []]]%in_app_or; [by left | by right].
    + destruct (existsb _ _); [discriminate|].
      intros [= <- <-]; simpl. split; [done|]. split.
      * exists (domain_row (domain_seq w + 1) t (Py.lower (domain self))). split; [|done].
        apply in_or_app. right. by left.
      * intros r [Hr | [<- | []]]%in_app_or; [by left | by right].
Qed.

(** C8.  Both write paths store the lower-case form.  When [add_domain]
    returns, the instance it returns holds [d.lower()] (a string that
    lower-casing leaves as it is; for a [d] of ASCII characters it is [d]
    with every letter A-Z replaced by a-z), that form is among
    [get_domains()] of the tenant, and every row of the table was either
    there before or holds that form.  When [Domain.save] returns, the
    instance and its row hold the lower-case form of the domain it was
    given, and no other row was written.  And [add_domain] does return for
    a saved tenant and a domain whose lower-case form has at most 128
    characters and is held by no row yet. *)
Theorem domains_stored_lowercase :
  (forall self d w obj w',
     add_domain self d w = (Ok obj, w') ->
     domain obj = Py.lower d /\
     Py.lower (domain obj) = domain obj /\
     (Py.is_ascii d = true -> domain obj = Py.ascii_lowercase d) /\
     In (Py.lower d) (get_domains self w') /\
     (forall r, In r (domain_table w') ->
                In r (domain_table w) \/ drow_domain r = Py.lower d))
  /\
  (forall self w obj w',
     Domain_save self w = (Ok obj, w') ->
     domain obj = Py.lower (domain self) /\
     Py.lower (domain obj) = domain obj /\
     (Py.is_ascii (domain self) = true ->
      domain obj = Py.ascii_lowercase (domain self)) /\
     (exists r, In r (domain_table w') /\ Some (drow_id r) = domain_pk obj /\
                drow_domain r = Py.lower (domain self)) /\
     (forall r, In r (domain_table w') ->
                In r (domain_table w) \/ drow_domain r = Py.lower (domain self)))
  /\
  (forall self k d w,
     pk self = Some k ->
     (Py.len (Py.lower d) <= 128)%nat ->
     (forall r, In r (domain_table w) ->
        drow_domain r <> Py.lower d /\ drow_id r <> domain_seq w + 1) ->
     exists obj w',
       add_domain self d w = (Ok obj, w') /\
       In (Py.lower d) (get_domains self w')).
Proof.
  destruct write_paths_store_lower as [Hadd Hsave].
  split; [|split].
  - intros self d w obj w' H. destruct (Hadd _ _ _ _ _ H) as (Hd & Hin & Hrows).
    split; [done|]. split; [by rewrite Hd, lower_idempotent|].
    split; [|done]. intros Ha. by rewrite Hd, lower_ascii.
  - intros self w obj w' H. destruct (Hsave _ _ _ _ H) as (Hd & Hrow & Hrows).
    split; [done|]. split; [by rewrite Hd, lower_idempotent|].
    split; [|done]. intros Ha. by rewrite Hd, lower_ascii.
  - intros self k d w Hpk Hlen Hfresh.
    pose proof (add_domain_creates self k d w Hpk Hlen Hfresh) as H.
    eexists _, _. split; [exact H|].
    by destruct (Hadd _ _ _ _ _ H) as (_ & Hin & _).
Qed.


(** *** The claims on concrete databases *)

Lemma t1_in_both : "t1" ∈ ({[ "public"; "t1" ]} : gset string).
Proof. apply elem_of_union. right. by apply elem_of_singleton. Qed.

(** A migration that fails inside the new schema: [create_schema] raises
    and the connection stays where the migration command left it. *)
Lemma create_schema_exit_context_witness :
  snd (create_schema env_migration_fails new_tenant false true 1 w_public) = w_public \/
  (true = true /\
   migrate_schemas env_migration_fails "t1" 1 "public" =
     (Some (CommandError "migration failed"),
      connection_schema_name
        (snd (create_schema env_migration_fails new_tenant false true 1 w_public)))).
Proof.
  apply (create_schema_exit_context env_migration_fails new_tenant false true 1
           w_public (Raise (CommandError "migration failed"))).
  vm_compute. reflexivity.
Defined.

(** C2 as stated fails.  With a migration command that works inside the
    new schema and fails there, [create_schema] raises with the connection
    still in ["t1"]; and on the short circuit from the tenant's own context
    it returns with the connection still in ["t1"]. *)
Lemma create_schema_exits_outside_public :
  (fst (create_schema env_migration_fails new_tenant false true 1 w_public)
     = Raise (CommandError "migration failed") /\
   connection_schema_name
     (snd (create_schema env_migration_fails new_tenant false true 1 w_public)) = "t1") /\
  (create_schema env_ok new_tenant true true 1 (w_with_t1 "t1")
     = (Ok (Some false), w_with_t1 "t1") /\
   connection_schema_name (w_with_t1 "t1") <> get_public_schema_name env_ok).
Proof.
  split; split.
  - vm_compute. reflexivity.
  - vm_compute. reflexivity.
  - vm_compute. reflexivity.
  - vm_compute. discriminate.
Qed.

(** A schema really created, migrations applied: the value is [None]. *)
Lemma create_schema_result_witness :
  exists w',
    create_schema env_ok new_tenant false true 1 w_public = (Ok None, w') /\
    statements w' = [SqlCreateSchema "t1"] /\
    "t1" ∈ pg_schemas w'.
Proof.
  assert (H : create_schema env_ok new_tenant false true 1 w_public
              = (Ok None, snd (create_schema env_ok new_tenant false true 1 w_public)))
    by (vm_compute; reflexivity).
  eexists. split; [exact H|].
  destruct (create_schema_result env_ok new_tenant false true 1 w_public None _ H)
    as [[Hr _] | (_ & _ & Hs & Hin)]; [discriminate Hr|].
  split; [exact Hs | exact Hin].
Defined.

Lemma delete_schema_then_row_witness :
  (exists w',
     delete env_ok saved_tenant true (w_with_t1 "public") = (Ok tt, w') /\
     statements w' = [SqlDropSchemaCascade "t1"; SqlDeleteTenant 1] /\
     ("t1" ∉ pg_schemas w') /\
     has_tenant_row 1 w' = false) /\
  (exists w',
     delete env_ok saved_tenant false (w_with_t1 "t1") = (Ok tt, w') /\
     statements w' = [SqlDeleteTenant 1] /\
     pg_schemas w' = {[ "public"; "t1" ]} /\
     has_tenant_row 1 w' = false).
Proof.
  split.
  - destruct (delete_schema_then_row env_ok saved_tenant true (w_with_t1 "public") 1)
      as [H _]; [reflexivity | right; reflexivity |].
    apply H; [exact t1_in_both | right; reflexivity].
  - destruct (delete_schema_then_row env_ok saved_tenant false (w_with_t1 "t1") 1)
      as [_ H]; [reflexivity | left; reflexivity |].
    apply H; reflexivity.
Defined.

Lemma save_failed_creation_rolls_back_witness :
  exists k w3,
    pk saved_tenant = Some k /\
    save env_migration_fails new_tenant 1 w_public
      = (Raise (CommandError "migration failed"), w3) /\
    has_tenant_row k w3 = false /\
    ("t1" ∉ pg_schemas w3) /\
    connection_schema_name w3 = "t1".
Proof.
  apply (save_failed_creation_rolls_back env_migration_fails new_tenant 1 w_public
           saved_tenant (snd (Model_save_Tenant new_tenant w_public))
           (CommandError "migration failed")
           (snd (provision env_migration_fails saved_tenant 1
                   (snd (Model_save_Tenant new_tenant w_public))))).
  - reflexivity.
  - reflexivity.
  - reflexivity.
  - vm_compute. reflexivity.
  - vm_compute. reflexivity.
  - left. vm_compute. reflexivity.
Defined.

(** C1 as stated fails.  The migration command works inside the new schema
    and fails there; [save] rolls the row and the schema back and raises
    the migration error, and the connection is left in ["t1"], not in the
    public schema. *)
Lemma save_failed_migration_leaves_tenant_context :
  fst (save env_migration_fails new_tenant 1 w_public)
    = Raise (CommandError "migration failed") /\
  connection_schema_name (snd (save env_migration_fails new_tenant 1 w_public)) = "t1" /\
  connection_schema_name (snd (save env_migration_fails new_tenant 1 w_public))
    <> get_public_schema_name env_migration_fails.
Proof.
  split; [|split].
  - vm_compute. reflexivity.
  - vm_compute. reflexivity.
  - vm_compute. discriminate.
Qed.



(** [add_domain("Example.COM")] then [get_domains()]; and a domain with a
    capital letter outside ASCII. *)
Lemma domains_stored_lowercase_witness :
  In "example.com"
     (get_domains saved_tenant
        (snd (add_domain saved_tenant "Example.COM" (w_with_t1 "public")))) /\
  get_domains saved_tenant
    (snd (add_domain saved_tenant "Example.COM" (w_with_t1 "public")))
    = ["example.com"] /\
  get_domains saved_tenant
    (snd (add_domain saved_tenant "École.COM" (w_with_t1 "public")))
    = ["école.com"].
Proof.
  destruct domains_stored_lowercase as [H _].
  destruct (H saved_tenant "Example.COM" (w_with_t1 "public")
              (domain_of_row (domain_row 1 1 "example.com"))
              (snd (add_domain saved_tenant "Example.COM" (w_with_t1 "public"))))
    as (_ & _ & _ & Hin & _).
  - vm_compute. reflexivity.
  - split; [exact Hin | split; vm_compute; reflexivity].
Defined.


End ModelsProofs.

(** ** Properties of the introspection *)

Module IntrospectionProofs.

Import Introspection Scenarios.

(** *** Strings *)

Lemma split1_no_sep s :
  Py.contains Py.dot s = false -> Py.split1 Py.dot s = [s].
Proof.
  induction s as [|c s IH]; simpl; [done|].
  destruct (Ascii.eqb c Py.dot); simpl; [done|].
  intros H. by rewrite IH.
Qed.

Lemma split1_at_first_dot t c :
  Py.contains Py.dot t = false ->
  Py.split1 Py.dot (t ++ "." ++ c) = [t; c].
Proof.
  induction t as [|a t IH]; simpl; [done|].
  destruct (Ascii.eqb a Py.dot); simpl; [done|].
  intros H. by rewrite IH.
Qed.

Lemma split1_join s : Py.join "." (Py.split1 Py.dot s) = s.
Proof.
  induction s as [|c s IH]; simpl; [done|].
  destruct (Ascii.eqb c Py.dot) eqn:E; simpl.
  - apply Ascii.eqb_eq in E. by subst c.
  - destruct (Py.split1 Py.dot s) as [|h [|h' t]]; simpl in *; by subst.
Qed.

(** *** The index loop *)

Lemma index_loop_recorded rows : forall (m : gmap string ConstraintInfo) name ci,
  m !! name = Some ci ->
  fold_left index_step rows m !! name = Some ci.
Proof.
  induction rows as [|[[[n cols] u] p] rows IH]; intros m name ci Hm; simpl; [done|].
  apply IH. destruct (m !! n) eqn:Hn; [done|].
  rewrite lookup_insert_ne; [done|]. intros ->. congruence.
Qed.

Lemma index_loop_fresh rows : forall (m : gmap string ConstraintInfo) name,
  m !! name = None ->
  fold_left index_step rows m !! name =
    match List.find (fun r : IndexRow => String.eqb (fst (fst (fst r))) name) rows with
    | Some (_, cols, u, p) =>
        Some {| columns := cols; primary_key := p; unique := u;
                foreign_key := None; check := false; index := true |}
    | None => None
    end.
Proof.
  induction rows as [|[[[n cols] u] p] rows IH]; intros m name Hm; simpl; [done|].
  destruct (String.eqb n name) eqn:E.
  - apply String.eqb_eq in E. subst n. rewrite Hm.
    apply index_loop_recorded. by rewrite lookup_insert_eq.
  - apply String.eqb_neq in E. apply IH.
    destruct (m !! n); [done|]. by rewrite lookup_insert_ne.
Qed.

(** *** Entries made by the first two loops *)

Lemma append_column_lookup n col (m : gmap string ConstraintInfo) name ci :
  append_column n col m !! name = Some ci ->
  exists ci0, m !! name = Some ci0 /\
    primary_key ci = primary_key ci0 /\ unique ci = unique ci0 /\
    foreign_key ci = foreign_key ci0 /\ check ci = check ci0 /\ index ci = index ci0.
Proof.
  unfold append_column. rewrite lookup_alter. case_decide.
  - subst. destruct (m !! name) as [ci0|]; simpl; [|done].
    intros [= <-]. by exists ci0.
  - intros H1. by exists ci.
Qed.

Lemma In_insert_by {A} (key : A -> Z) x y (l : list A) :
  In y (insert_by key x l) -> y = x \/ In y l.
Proof.
  induction l as [|z l IH]; simpl.
  - intros [<-|[]]. by left.
  - destruct (key z <=? key x); simpl.
    + intros [<-|H]; [right; by left|]. destruct (IH H); [by left|right; by right].
    + intros [<-|[<-|H]]; [by left|right; by left|right; by right].
Qed.

Lemma In_sort_by {A} (key : A -> Z) y (l : list A) :
  In y (sort_by key l) -> In y l.
Proof.
  unfold sort_by.
  assert (G : forall acc, In y (fold_left (fun acc x => insert_by key x acc) l acc) ->
                          In y l \/ In y acc).
  { induction l as [|x l IH]; intros acc; simpl; [by right|].
    intros H. destruct (IH _ H) as [H'|H']; [left; by right|].
    apply In_insert_by in H' as [->|H']; [left; by left|by right]. }
  intros H. destruct (G [] H) as [H'|[]]. done.
Qed.

Lemma key_rows_carry_usage schema table cat :
  Forall (carries_own_usage cat) (key_rows schema table cat).
Proof.
  apply List.Forall_forall. intros row Hin. unfold key_rows in Hin.
  apply in_map_iff in Hin as ([o row'] & <- & Hin). simpl.
  apply In_sort_by in Hin.
  apply in_flat_map in Hin as (kc & _ & Hin).
  apply in_flat_map in Hin as (c & _ & Hin).
  destruct (_ && _); [|done]. destruct Hin as [[= <- <-]|[]]. done.
Qed.

Lemma head_used_cols cat name u :
  head (used_cols_of cat name) = Some u ->
  exists r, List.find (fun r => String.eqb (ccu_constraint_name r) name)
              (constraint_columns cat) = Some r /\
            u = ccu_table_name r ++ "." ++ ccu_column_name r.
Proof.
  unfold used_cols_of.
  induction (constraint_columns cat) as [|r l IH]; simpl; [done|].
  destruct (String.eqb (ccu_constraint_name r) name); simpl; [|done].
  intros [= <-]. by exists r.
Qed.

Section Loops.
Context (cat : Catalog).

Lemma key_step_made (m m' : gmap string ConstraintInfo) row :
  map_Forall (made_by_constraint_loops cat) m ->
  carries_own_usage cat row ->
  key_step m row = Returned m' ->
  map_Forall (made_by_constraint_loops cat) m'.
Proof.
  destruct row as [[[c col] kind] used]. unfold key_step, carries_own_usage.
  intros Hm -> Hstep name ci Hlook.
  destruct (m !! c) eqn:Hc.
  - injection Hstep as <-.
    apply append_column_lookup in Hlook as (ci0 & H0 & _ & _ & Hfk & _ & Hidx).
    destruct (Hm name ci0 H0) as [Hi Hf].
    split; [congruence|]. intros fk. rewrite Hfk. apply Hf.
  - assert (Hnew : exists fk,
        m' = append_column c col
               (<[c := {| columns := [];
                          primary_key := String.eqb (Py.lower kind) "primary key";
                          unique := mem_string (Py.lower kind) ["primary key"; "unique"];
                          foreign_key := fk; check := false; index := false |}]> m) /\
        foreign_key_from_usage cat c
          {| columns := []; primary_key := false; unique := false;
             foreign_key := fk; check := false; index := false |}).
    { destruct (String.eqb (Py.lower kind) "foreign key").
      - destruct (used_cols_of cat c) as [|u us] eqn:Hu; [done|].
        injection Hstep as <-. eexists. split; [done|].
        intros fk [= <-]. exists u. by rewrite Hu.
      - injection Hstep as <-. eexists. split; [done|]. by intros fk. }
    destruct Hnew as (fk0 & -> & Hfk0).
    apply append_column_lookup in Hlook as (ci0 & H0 & _ & _ & Hfk & _ & Hidx).
    rewrite lookup_insert in H0. case_decide.
    + subst name. injection H0 as <-. split; [done|].
      intros fk. rewrite Hfk. apply Hfk0.
    + destruct (Hm name ci0 H0) as [Hi Hf].
      split; [congruence|]. intros fk. rewrite Hfk. apply Hf.
Qed.

Lemma key_loop_made rows : forall (m m' : gmap string ConstraintInfo),
  map_Forall (made_by_constraint_loops cat) m ->
  Forall (carries_own_usage cat) rows ->
  key_loop m rows = Returned m' ->
  map_Forall (made_by_constraint_loops cat) m'.
Proof.
  induction rows as [|row rows IH]; intros m m' Hm Hrows; simpl.
  - by intros [= <-].
  - apply List.Forall_cons_iff in Hrows as [Hrow Hrows].
    destruct (key_step m row) as [m1|] eqn:Hstep; [|done].
    apply IH; [|done]. by eapply key_step_made.
Qed.

Lemma check_step_made (m : gmap string ConstraintInfo) row :
  map_Forall (made_by_constraint_loops cat) m ->
  map_Forall (made_by_constraint_loops cat) (check_step m row).
Proof.
  destruct row as [c col]. unfold check_step. intros Hm name ci Hlook.
  destruct (m !! c) eqn:Hc;
    apply append_column_lookup in Hlook as (ci0 & H0 & _ & _ & Hfk & _ & Hidx).
  - destruct (Hm name ci0 H0) as [Hi Hf].
    split; [congruence|]. intros fk. rewrite Hfk. apply Hf.
  - rewrite lookup_insert in H0. case_decide.
    + subst name. injection H0 as <-. split; [done|].
      intros fk. by rewrite Hfk.
    + destruct (Hm name ci0 H0) as [Hi Hf].
      split; [congruence|]. intros fk. rewrite Hfk. apply Hf.
Qed.

Lemma check_loop_made rows : forall (m : gmap string ConstraintInfo),
  map_Forall (made_by_constraint_loops cat) m ->
  map_Forall (made_by_constraint_loops cat) (fold_left check_step rows m).
Proof.
  induction rows as [|row rows IH]; intros m Hm; simpl; [done|].
  apply IH. by apply check_step_made.
Qed.

Lemma index_loop_foreign_keys rows : forall (m : gmap string ConstraintInfo),
  map_Forall (foreign_key_from_usage cat) m ->
  map_Forall (foreign_key_from_usage cat) (fold_left index_step rows m).
Proof.
  induction rows as [|[[[n cols] u] p] rows IH]; intros m Hm; simpl; [done|].
  apply IH. destruct (m !! n) eqn:Hn; [done|].
  apply map_Forall_insert; [done|]. split; [|done]. by intros fk.
Qed.

End Loops.

Lemma constraints_before_indexes_made self cat table before :
  constraints_before_indexes self cat table = Returned before ->
  map_Forall (made_by_constraint_loops cat) before.
Proof.
  unfold constraints_before_indexes.
  destruct (key_loop _ _) as [m|] eqn:Hloop; [|done].
  intros [= <-]. apply check_loop_made.
  eapply key_loop_made; [|apply key_rows_carry_usage|exact Hloop].
  apply map_Forall_empty.
Qed.

(** C6, as the code has it.  Take the dict as the key-column and CHECK
    loops leave it.  A name recorded there keeps its entry through the
    index loop, untouched, and the index flag of that entry is false: an
    index of the same name is skipped, not merged.  A name not recorded
    there ends up with the entry of the first index row of that name, whose
    index flag is true, or with no entry when there is no such index. *)
Theorem index_pass_first_seen_wins self cat table before name :
  constraints_before_indexes self cat table = Returned before ->
  exists final,
    get_constraints self cat table = Returned final /\
    (forall ci, before !! name = Some ci ->
       final !! name = Some ci /\ index ci = false) /\
    (before !! name = None ->
       final !! name =
         match List.find (fun r : IndexRow => String.eqb (fst (fst (fst r))) name)
                 (index_rows table cat) with
         | Some (_, cols, u, p) =>
             Some {| columns := cols; primary_key := p; unique := u;
                     foreign_key := None; check := false; index := true |}
         | None => None
         end).
Proof.
  intros Hb. unfold get_constraints. rewrite Hb. eexists. split; [done|]. split.
  - intros ci Hci. split; [by apply index_loop_recorded|].
    by destruct (constraints_before_indexes_made _ _ _ _ Hb name ci Hci).
  - apply index_loop_fresh.
Qed.

(** X23.  The [foreign_key] of an entry of the result is the first usage
    string [table.column] found under the constraint's name, in whichever
    schema that usage row lies, cut once at its first dot.  The two parts
    joined by a dot give the usage string back; they are the table and the
    column of that usage row whenever its table name has no dot in it (the
    column name may have dots). *)
Theorem foreign_key_split_at_first_dot self cat table m name ci fk :
  get_constraints self cat table = Returned m ->
  m !! name = Some ci ->
  foreign_key ci = Some fk ->
  exists u,
    List.find (fun u => String.eqb (ccu_constraint_name u) name)
      (constraint_columns cat) = Some u /\
    fk = Py.split1 Py.dot (ccu_table_name u ++ "." ++ ccu_column_name u) /\
    Py.join "." fk = ccu_table_name u ++ "." ++ ccu_column_name u /\
    (Py.contains Py.dot (ccu_table_name u) = false ->
     fk = [ccu_table_name u; ccu_column_name u]).
Proof.
  unfold get_constraints.
  destruct (constraints_before_indexes self cat table) as [before|] eqn:Hb; [|done].
  intros [= <-] Hm Hfk.
  assert (Hall : map_Forall (foreign_key_from_usage cat)
                   (fold_left index_step (index_rows table cat) before)).
  { apply index_loop_foreign_keys.
    intros n c Hn. by destruct (constraints_before_indexes_made _ _ _ _ Hb n c Hn). }
  destruct (Hall name ci Hm fk Hfk) as (s & Hhead & ->).
  apply head_used_cols in Hhead as (u & Hfind & ->).
  exists u. split; [done|]. split; [done|]. split; [apply split1_join|].
  apply split1_at_first_dot.
Qed.

(** *** get_table_list reads only the current schema *)

Lemma flat_map_if_filter {A B} (p : A -> bool) (f : A -> list B) l :
  flat_map (fun x => if p x then f x else []) l = flat_map f (List.filter p l).
Proof.
  induction l as [|a l IH]; simpl; [done|].
  destruct (p a); simpl; by rewrite IH.
Qed.

Lemma flat_map_ext_In {A B} (f g : A -> list B) l :
  (forall x, In x l -> f x = g x) -> flat_map f l = flat_map g l.
Proof.
  induction l as [|a l IH]; simpl; [done|].
  intros H. rewrite (H a) by (by left). rewrite IH; [done|].
  intros x Hx. apply H. by right.
Qed.

Lemma flat_map_nil {A B} (l : list A) :
  flat_map (fun _ : A => @nil B) l = [].
Proof. induction l as [|a l IH]; simpl; done. Qed.

Lemma search_path_head conn :
  exists rest, search_path conn = schema_name conn :: rest.
Proof.
  unfold search_path. destruct (String.eqb _ _) eqn:E; [|by eauto].
  apply String.eqb_eq in E. rewrite <- E. by eauto.
Qed.

Lemma flat_map_left_join {A B} (g : option A -> list B) (l : list A) :
  g None = [] ->
  flat_map g (match l with [] => [None] | p :: l' => map Some (p :: l') end) =
  flat_map (fun x => g (Some x)) l.
Proof.
  intros Hg. destruct l as [|a l]; simpl; [by rewrite Hg|].
  f_equal. induction l as [|b l IH]; simpl; [done|]. by rewrite IH.
Qed.

(** One relation's share of the rows of the table-list query. *)
Lemma table_list_rows_of_class conn cat c :
  flat_map (fun n : option pg_namespace =>
      if mem_string (relkind c) ["r"; "v"; ""]
         && match n with
            | Some n => String.eqb (nspname n) (schema_name conn)
            | None => false
            end
         && pg_table_is_visible cat conn c
      then [(relname c, relkind c)] else [])
    (left_join_namespace cat c) =
  if in_namespace cat (schema_name conn) c
  then flat_map (fun n =>
         if mem_string (relkind c) ["r"; "v"; ""] && (nsp_oid n =? relnamespace c)
         then [(relname c, relkind c)] else [])
         (List.filter (fun n => String.eqb (nspname n) (schema_name conn))
            (namespaces cat))
  else [].
Proof.
  unfold left_join_namespace.
  etrans.
  { apply (flat_map_left_join
             (fun n : option pg_namespace =>
                if mem_string (relkind c) ["r"; "v"; ""]
                   && match n with
                      | Some n => String.eqb (nspname n) (schema_name conn)
                      | None => false
                      end
                   && pg_table_is_visible cat conn c
                then [(relname c, relkind c)] else [])).
    by rewrite andb_false_r. }
  rewrite <- flat_map_if_filter.
  assert (Hvis : in_namespace cat (schema_name conn) c = true ->
                 pg_table_is_visible cat conn c = true).
  { intros Hin. unfold pg_table_is_visible.
    destruct (search_path_head conn) as [rest ->]. simpl. by rewrite Hin. }
  assert (Hmem : forall n, In n (namespaces cat) ->
            (nsp_oid n =? relnamespace c) = true ->
            String.eqb (nspname n) (schema_name conn) = true ->
            in_namespace cat (schema_name conn) c = true).
  { intros n Hn Eo En. apply existsb_exists. exists n. by rewrite Eo, En. }
  destruct (in_namespace cat (schema_name conn) c) eqn:Ein.
  - rewrite <- flat_map_if_filter. apply flat_map_ext_In. intros n Hn.
    rewrite Hvis by done.
    destruct (nsp_oid n =? relnamespace c); destruct (String.eqb (nspname n) _);
      rewrite ?andb_false_r, ?andb_true_r; done.
  - transitivity (flat_map (fun _ : pg_namespace => @nil (string * string))
                    (namespaces cat)).
    + apply flat_map_ext_In. intros n Hn.
      destruct (nsp_oid n =? relnamespace c) eqn:Eo; [|done].
      destruct (String.eqb (nspname n) (schema_name conn)) eqn:En;
        [|by rewrite andb_false_r].
      by specialize (Hmem n Hn Eo En).
    + apply flat_map_nil.
Qed.

Lemma table_list_rows_within conn cat :
  table_list_rows conn cat =
    rows_within (namespaces (restrict_to_schema (schema_name conn) cat))
                (classes (restrict_to_schema (schema_name conn) cat)).
Proof.
  unfold table_list_rows, rows_within. simpl.
  rewrite <- flat_map_if_filter. apply flat_map_ext_In. intros c _.
  apply table_list_rows_of_class.
Qed.

Lemma get_table_list_scoped self cat1 cat2 :
  restrict_to_schema (schema_name (connection self)) cat1 =
  restrict_to_schema (schema_name (connection self)) cat2 ->
  get_table_list self cat1 = get_table_list self cat2.
Proof.
  intros H. unfold get_table_list. by rewrite !table_list_rows_within, H.
Qed.

(** *** The claims on a concrete catalog *)

Lemma index_pass_first_seen_wins_witness :
  exists final,
    get_constraints introspection_t1 catalog_two "foo" = Returned final /\
    (forall ci,
       returned_dict (constraints_before_indexes introspection_t1 catalog_two "foo")
         !! "foo_t2_idx" = Some ci ->
       final !! "foo_t2_idx" = Some ci /\ index ci = false) /\
    (returned_dict (constraints_before_indexes introspection_t1 catalog_two "foo")
       !! "foo_t2_idx" = None ->
     final !! "foo_t2_idx" =
       Some {| columns := [Some "id"]; primary_key := false; unique := false;
               foreign_key := None; check := false; index := true |}).
Proof.
  apply (index_pass_first_seen_wins introspection_t1 catalog_two "foo"
           (returned_dict (constraints_before_indexes introspection_t1 catalog_two "foo"))
           "foo_t2_idx").
  vm_compute. reflexivity.
Defined.

(** C6 as stated fails.  The primary key [foo_pkey] is recorded by the
    first loop; the index that backs it has the same name and is met by the
    third loop; the entry of the result is the one of the first loop, with
    the index flag false. *)
Lemma index_sharing_a_name_is_skipped :
  In ("foo_pkey", [Some "id"], true, true) (index_rows "foo" catalog_one) /\
  constraint_named "foo_pkey"
    (constraints_before_indexes introspection_t1 catalog_one "foo")
  = Some {| columns := [Some "id"]; primary_key := true; unique := true;
            foreign_key := None; check := false; index := false |} /\
  constraint_named "foo_pkey" (get_constraints introspection_t1 catalog_one "foo")
  = Some {| columns := [Some "id"]; primary_key := true; unique := true;
            foreign_key := None; check := false; index := false |}.
Proof.
  split; [|split].
  - vm_compute. by left.
  - vm_compute. reflexivity.
  - vm_compute. reflexivity.
Qed.

Lemma foreign_key_split_at_first_dot_witness :
  exists u,
    List.find (fun u => String.eqb (ccu_constraint_name u) "foo_bar_fk")
      (constraint_columns catalog_one) = Some u /\
    ["bar"; "archive.id"]
      = Py.split1 Py.dot (ccu_table_name u ++ "." ++ ccu_column_name u) /\
    Py.join "." ["bar"; "archive.id"] = ccu_table_name u ++ "." ++ ccu_column_name u /\
    (Py.contains Py.dot (ccu_table_name u) = false ->
     ["bar"; "archive.id"] = [ccu_table_name u; ccu_column_name u]).
Proof.
  apply (foreign_key_split_at_first_dot introspection_t1 catalog_one "foo"
           (returned_dict (get_constraints introspection_t1 catalog_one "foo"))
           "foo_bar_fk"
           {| columns := [Some "bar_id"]; primary_key := false; unique := false;
              foreign_key := Some ["bar"; "archive.id"]; check := false;
              index := false |}).
  - vm_compute. reflexivity.
  - vm_compute. reflexivity.
  - reflexivity.
Defined.

(** A dot in the table name.  The foreign key [foo_bar_fk] refers to column
    [id] of the table named [bar.archive]; the [foreign_key] field is
    [("bar", "archive.id")], not the referenced table and column. *)
Lemma foreign_key_to_dotted_table_is_cut_inside_the_name :
  List.find (fun u => String.eqb (ccu_constraint_name u) "foo_bar_fk")
    (constraint_columns catalog_one)
  = Some {| ccu_table_schema := "t1"; ccu_table_name := "bar.archive";
            ccu_column_name := "id"; ccu_constraint_name := "foo_bar_fk" |} /\
  foreign_key <$>
    constraint_named "foo_bar_fk" (get_constraints introspection_t1 catalog_one "foo")
  = Some (Some ["bar"; "archive.id"]) /\
  ["bar"; "archive.id"] <> ["bar.archive"; "id"].
Proof.
  split; [|split].
  - vm_compute. reflexivity.
  - vm_compute. reflexivity.
  - discriminate.
Qed.

(** C7, on the code.  [catalog_one] and [catalog_two] hold the same rows
    for schema [t1] and differ by one index on [t2.foo].  With the
    connection in [t1], [get_table_list] gives the same list on both, and
    [get_constraints] for [foo] does not: on [catalog_two] it returns an
    entry for the index of the other schema, because the third query
    selects by relation name alone. *)
Theorem index_query_reads_other_schemas :
  restrict_to_schema "t1" catalog_one = restrict_to_schema "t1" catalog_two /\
  get_table_list introspection_t1 catalog_one
    = get_table_list introspection_t1 catalog_two /\
  constraint_named "foo_t2_idx" (get_constraints introspection_t1 catalog_one "foo")
    = None /\
  constraint_named "foo_t2_idx" (get_constraints introspection_t1 catalog_two "foo")
    = Some {| columns := [Some "id"]; primary_key := false; unique := false;
              foreign_key := None; check := false; index := true |} /\
  get_constraints introspection_t1 catalog_one "foo"
    <> get_constraints introspection_t1 catalog_two "foo".
Proof.
  assert (Hsame : restrict_to_schema "t1" catalog_one
                  = restrict_to_schema "t1" catalog_two)
    by (vm_compute; reflexivity).
  assert (H1 : constraint_named "foo_t2_idx"
                 (get_constraints introspection_t1 catalog_one "foo") = None)
    by (vm_compute; reflexivity).
  split; [exact Hsame|].
  split; [apply get_table_list_scoped; exact Hsame|].
  split; [exact H1|].
  split; [vm_compute; reflexivity|].
  intros Heq. rewrite Heq in H1. vm_compute in H1. discriminate H1.
Qed.

(** C9, on the code.  The usage strings of a foreign key are looked up by
    constraint name alone, so the [foreign_key] of a constraint of the
    current schema can be the referenced table and column of a constraint
    of the same name in another schema.  The two catalogs hold the same
    rows for [t1], where [foo_bar_fk] refers to [bar (id)]; with the
    foreign key of the same name in [t2], [get_constraints] for [t1]
    answers [("baz", "code")]. *)
Theorem foreign_key_read_from_other_schema :
  restrict_to_schema "t1" catalog_fk_plain
    = restrict_to_schema "t1" catalog_fk_shadowed /\
  key_rows "t1" "foo" catalog_fk_plain
    = [("foo_bar_fk", "bar_id", "FOREIGN KEY", ["bar.id"])] /\
  constraint_named "foo_bar_fk" (get_constraints introspection_t1 catalog_fk_plain "foo")
    = Some {| columns := [Some "bar_id"]; primary_key := false; unique := false;
              foreign_key := Some ["bar"; "id"]; check := false; index := false |} /\
  key_rows "t1" "foo" catalog_fk_shadowed
    = [("foo_bar_fk", "bar_id", "FOREIGN KEY", ["baz.code"; "bar.id"])] /\
  constraint_named "foo_bar_fk"
    (get_constraints introspection_t1 catalog_fk_shadowed "foo")
    = Some {| columns := [Some "bar_id"]; primary_key := false; unique := false;
              foreign_key := Some ["baz"; "code"]; check := false; index := false |}.
Proof. repeat split; vm_compute; reflexivity. Qed.

End IntrospectionProofs.

(** ** Further properties of the tenant life cycle, the domains and the
    tenant listing *)

Module ModelsExtra.

Import Models Scenarios PyFacts ModelsProofs.

(** An insert by the ORM: the key is the next value of the sequence, no row
    had it, and the row goes to the end of the table. *)
Lemma Model_save_Tenant_insert self w self' w1 :
  pk self = None ->
  Model_save_Tenant self w = (Ok self', w1) ->
  self' = with_pk (tenant_seq w + 1) self /\
  has_tenant_row (tenant_seq w + 1) w = false /\
  w1 = emit (SqlInsertTenant (tenant_seq w + 1))
         (with_tenant_table (tenant_table w ++ [tenant_row (tenant_seq w + 1) self])
            (tenant_seq w + 1) w).
Proof.
  unfold Model_save_Tenant. intros ->.
  destruct (_ || _)%bool; [discriminate|].
  destruct (existsb _ _) eqn:Hex; [discriminate|].
  intros [= <- <-]. split; [done|]. split; [|done].
  unfold has_tenant_row. apply not_true_is_false. intros Hrow.
  apply not_true_iff_false in Hex. apply Hex.
  apply existsb_exists in Hrow as (r & Hr & Hid).
  apply existsb_exists. exists r. split; [done|]. by rewrite Hid, orb_true_r.
Qed.

Lemma filter_absent_row k (l : list TenantRow) :
  existsb (fun r => row_id r =? k) l = false ->
  List.filter (fun r => negb (row_id r =? k)) l = l.
Proof.
  induction l as [|r l IH]; simpl; [done|].
  intros [Hr Hl]%orb_false_iff. by rewrite Hr, IH.
Qed.

Section Saves.
Context (env : Collaborators).

(** [save] on a new tenant from the public schema, once the ORM has
    inserted the row. *)
Lemma save_new_unfold self v w self' w1 :
  pk self = None ->
  connection_schema_name w = get_public_schema_name env ->
  Model_save_Tenant self w = (Ok self', w1) ->
  save env self v w =
    (if auto_create_schema self
     then try_except
            (let* _ := provision env self' v in ret self')
            (fun e => let* _ := delete env self' true in raise e)
     else ret self') w1.
Proof.
  intros Hpk Hctx Hsave.
  destruct (Model_save_Tenant_ok _ _ _ _ Hsave) as (k & -> & _).
  unfold save. unfold bind at 1. unfold gets.
  rewrite Hpk, Hctx, String.eqb_refl. simpl.
  unfold bind at 1. by rewrite Hsave.
Qed.

(** X1.  A new tenant with [auto_create_schema], saved from the public
    schema, with a valid name, no schema of that name yet, and a migration
    command and signal receivers that succeed: once the ORM has inserted
    the row, [save] returns, the physical schema exists under the name the
    server reads in the statement (capital letters folded), the row is in
    the table, the statements issued are the insert and then CREATE SCHEMA
    with the name as the tenant has it, and
    the connection is where the signal receivers left it after
    [create_schema] had reset it to the public schema. *)
Theorem save_new_tenant_provisions self v w self' w1 :
  pk self = None ->
  auto_create_schema self = true ->
  connection_schema_name w = get_public_schema_name env ->
  Model_save_Tenant self w = (Ok self', w1) ->
  check_schema_name env (schema_name self) = true ->
  Pg.identifier (schema_name self) ∉ pg_schemas w ->
  fst (migrate_schemas env (schema_name self) v (get_public_schema_name env)) = None ->
  fst (post_schema_sync_send env self' (get_public_schema_name env)) = None ->
  exists k w',
    pk self' = Some k /\
    save env self v w = (Ok self', w') /\
    (Pg.identifier (schema_name self) ∈ pg_schemas w') /\
    In (tenant_row k self) (tenant_table w') /\
    statements w' =
      (statements w ++ [SqlInsertTenant k; SqlCreateSchema (schema_name self)])%list /\
    connection_schema_name w' =
      snd (post_schema_sync_send env self' (get_public_schema_name env)).
Proof.
  intros Hpk Hauto Hctx Hsave Hvalid Hfresh Hmig Hsig.
  rewrite (save_new_unfold _ _ _ _ _ Hpk Hctx Hsave), Hauto.
  destruct (Model_save_Tenant_insert _ _ _ _ Hpk Hsave) as (-> & _ & ->).
  exists (tenant_seq w + 1).
  unfold try_except, bind, provision, bind.
  rewrite create_schema_fresh by done. simpl.
  rewrite Hctx.
  destruct (migrate_schemas env (schema_name self) v (get_public_schema_name env))
    as [[e|] c]; simpl in Hmig; [discriminate|].
  unfold post_schema_sync. simpl.
  destruct (post_schema_sync_send env _ (get_public_schema_name env)) as [[e|] c'];
    simpl in Hsig; [discriminate|].
  eexists. split; [done|]. split; [reflexivity|]. simpl. split.
  - apply elem_of_union. left. by apply elem_of_singleton.
  - split; [apply in_or_app; right; by left|].
    split; [by rewrite <- app_assoc|done].
Qed.


Lemma provision_keeps_seq self v w r w' :
  provision env self v w = (r, w') -> tenant_seq w' = tenant_seq w.
Proof.
  unfold provision, bind.
  destruct (create_schema env self true true v w) as [[o|e0] wa] eqn:Hc.
  - intros Hp.
    assert (tenant_seq wa = tenant_seq w) as <-.
    { destruct (create_schema_cases env self true true v w)
        as [E | [E | [[msg E] | (r0 & c & E)]]];
        rewrite E in Hc; inversion Hc; subst; done. }
    unfold post_schema_sync in Hp.
    destruct (post_schema_sync_send env self (connection_schema_name wa)) as [[e1|] c1];
      inversion Hp; subst; done.
  - intros [= <- <-].
    destruct (create_schema_cases env self true true v w)
      as [E | [E | [[msg E] | (r0 & c & E)]]];
      rewrite E in Hc; inversion Hc; subst; done.
Qed.

(** X2.  When the schema of a new tenant exists already, [save] adopts
    it: the existence check of [create_schema] short-circuits, so no
    CREATE SCHEMA is issued and the migration command is not called
    (whatever it would do); the only statement is the insert. *)
Theorem save_adopts_existing_schema self v w self' w1 :
  pk self = None ->
  auto_create_schema self = true ->
  connection_schema_name w = get_public_schema_name env ->
  Model_save_Tenant self w = (Ok self', w1) ->
  check_schema_name env (schema_name self) = true ->
  Pg.identifier (schema_name self) ∈ pg_schemas w ->
  fst (post_schema_sync_send env self' (get_public_schema_name env)) = None ->
  exists k w',
    pk self' = Some k /\
    save env self v w = (Ok self', w') /\
    pg_schemas w' = pg_schemas w /\
    statements w' = (statements w ++ [SqlInsertTenant k])%list /\
    connection_schema_name w' =
      snd (post_schema_sync_send env self' (get_public_schema_name env)).
Proof.
  intros Hpk Hauto Hctx Hsave Hvalid Hthere Hsig.
  rewrite (save_new_unfold _ _ _ _ _ Hpk Hctx Hsave), Hauto.
  destruct (Model_save_Tenant_insert _ _ _ _ Hpk Hsave) as (-> & _ & ->).
  exists (tenant_seq w + 1).
  unfold try_except, bind, provision, bind.
  rewrite create_schema_short_circuit by done.
  unfold post_schema_sync. simpl. rewrite Hctx.
  destruct (post_schema_sync_send env _ (get_public_schema_name env)) as [[e|] c'];
    simpl in Hsig; [discriminate|].
  eexists. split; [done|]. split; [reflexivity|]. done.
Qed.


(** X4.  A failed creation that is rolled back leaves the tenant table
    exactly as it was before [save]: only the new row is removed.  The
    sequence value it took is not given back. *)
Theorem save_rollback_restores_tenant_table self v w self' w1 e w2 r w3 :
  pk self = None ->
  auto_create_schema self = true ->
  connection_schema_name w = get_public_schema_name env ->
  Model_save_Tenant self w = (Ok self', w1) ->
  provision env self' v w1 = (Raise e, w2) ->
  connection_schema_name w2 = schema_name self \/
    connection_schema_name w2 = get_public_schema_name env ->
  save env self v w = (r, w3) ->
  r = Raise e /\
  tenant_table w3 = tenant_table w /\
  tenant_seq w3 = tenant_seq w + 1.
Proof.
  intros Hpk Hauto Hctx Hsave Hprov Hctx2.
  rewrite (save_new_unfold _ _ _ _ _ Hpk Hctx Hsave), Hauto.
  destruct (Model_save_Tenant_insert _ _ _ _ Hpk Hsave) as (-> & Hnone & ->).
  unfold try_except, bind. rewrite Hprov.
  rewrite (delete_allowed env _ true _ (tenant_seq w + 1)); [|done|].
  2:{ simpl. by apply in_own_or_public_iff. }
  destruct (provision_frame env _ _ _ _ _ Hprov) as [Ht _].
  pose proof (provision_keeps_seq _ _ _ _ _ Hprov) as Hq. simpl in Hq.
  intros [= <- <-]. split; [done|].
  destruct (bool_decide _ && _); simpl; rewrite Ht; simpl;
    rewrite List.filter_app; simpl; rewrite Z.eqb_refl; simpl;
    rewrite app_nil_r; (split; [by apply filter_absent_row|done]).
Qed.

(** X5.  When provisioning fails with the connection in a schema that is
    neither the public one nor the tenant's own, the compensating [delete]
    is itself rejected: [save] raises the context [Exception] of [delete]
    instead of the original error, nothing is rolled back, and the new row
    stays in the table. *)
Theorem save_rollback_blocked self v w self' w1 e w2 :
  pk self = None ->
  auto_create_schema self = true ->
  connection_schema_name w = get_public_schema_name env ->
  Model_save_Tenant self w = (Ok self', w1) ->
  provision env self' v w1 = (Raise e, w2) ->
  connection_schema_name w2 <> schema_name self ->
  connection_schema_name w2 <> get_public_schema_name env ->
  exists k msg,
    pk self' = Some k /\
    save env self v w = (Raise (Exception_ msg), w2) /\
    In (tenant_row k self) (tenant_table w2).
Proof.
  intros Hpk Hauto Hctx Hsave Hprov Hne1 Hne2.
  rewrite (save_new_unfold _ _ _ _ _ Hpk Hctx Hsave), Hauto.
  destruct (Model_save_Tenant_ok _ _ _ _ Hsave) as (k & -> & _ & Hrow & _).
  destruct (provision_frame env _ _ _ _ _ Hprov) as [Ht _].
  unfold try_except, bind. rewrite Hprov.
  destruct (delete_rejected env (with_pk k self) true w2) as [msg Hdel].
  { unfold in_own_or_public. simpl.
    apply String.eqb_neq in Hne1, Hne2. by rewrite Hne1, Hne2. }
  rewrite Hdel. exists k, msg. split; [done|]. split; [done|]. by rewrite Ht.
Qed.

End Saves.


Lemma Model_save_Tenant_frame self w r w1 :
  Model_save_Tenant self w = (r, w1) ->
  pg_schemas w1 = pg_schemas w /\
  connection_schema_name w1 = connection_schema_name w.
Proof.
  unfold Model_save_Tenant.
  destruct (_ || _)%bool; [by intros [= <- <-]|].
  destruct (pk self) as [k|].
  - destruct (existsb _ _); [by intros [= <- <-]|].
    destruct (has_tenant_row k w); by intros [= <- <-].
  - destruct (existsb _ _); by intros [= <- <-].
Qed.

Section Deletes.
Context (env : Collaborators).

(** X6.  Saving a tenant that is already saved, or one without
    [auto_create_schema], provisions nothing: the outcome does not depend
    on the validator, the migration command or the signal receivers, and
    the physical schemas and the connection's schema are left as they
    were. *)
Theorem save_without_provisioning env' self v w :
  pk self <> None \/ auto_create_schema self = false ->
  get_public_schema_name env = get_public_schema_name env' ->
  save env self v w = save env' self v w /\
  pg_schemas (snd (save env self v w)) = pg_schemas w /\
  connection_schema_name (snd (save env self v w)) = connection_schema_name w.
Proof.
  intros Hcase Hpub.
  assert (Hflag : forall self', auto_create_schema self' = auto_create_schema self ->
            match pk self with None => true | Some _ => false end
            && auto_create_schema self' = false).
  { intros self' ->. destruct Hcase as [Hpk | ->]; [|apply andb_false_r].
    by destruct (pk self). }
  unfold save, in_own_or_public, bind, gets, raise, ret. rewrite <- Hpub.
  destruct (_ && negb _); [done|].
  destruct (negb _ && negb _); [done|].
  destruct (Model_save_Tenant self w) as [[self'|e] w1] eqn:Hsave;
    destruct (Model_save_Tenant_frame _ _ _ _ Hsave) as [Hs Hc]; [|done].
  destruct (Model_save_Tenant_ok _ _ _ _ Hsave) as (k & -> & _).
  by rewrite (Hflag (with_pk k self) eq_refl).
Qed.

(** X7.  [delete] returns exactly when the connection is in the tenant's
    own schema or the public one and the instance has a primary key; the
    force flag does not open any other context. *)
Theorem delete_returns_iff self force w :
  (exists w', delete env self force w = (Ok tt, w')) <->
  (connection_schema_name w = schema_name self \/
   connection_schema_name w = get_public_schema_name env) /\
  pk self <> None.
Proof.
  split.
  - intros [w' H].
    destruct (in_own_or_public env (connection_schema_name w) self) eqn:Hctx.
    + split; [by apply in_own_or_public_iff|].
      intros Hpk. revert H.
      unfold delete, connection_cursor, bind, gets, schema_exists,
        execute_drop_schema_cascade, Model_delete_Tenant, raise, ret.
      rewrite Hctx, Hpk. simpl.
      destruct (bool_decide _) eqn:Hin; simpl; [|discriminate].
      destruct (auto_drop_schema self || force); simpl; rewrite ?Hin; discriminate.
    + destruct (delete_rejected env self force w Hctx) as [msg Hr]. congruence.
  - intros [Hctx Hpk]. apply in_own_or_public_iff in Hctx.
    destruct (pk self) as [k|] eqn:E; [|done].
    eexists. by apply delete_allowed.
Qed.

(** X8.  Deleting a tenant removes its domains with it, and only its:
    afterwards the tenant has no domain, and every other tenant has the
    domains it had. *)
Theorem delete_removes_domains self force w k w' :
  pk self = Some k ->
  delete env self force w = (Ok tt, w') ->
  get_domains self w' = [] /\
  (forall t, pk t <> Some k -> get_domains t w' = get_domains t w).
Proof.
  intros Hpk H.
  assert (Hctx : in_own_or_public env (connection_schema_name w) self = true).
  { destruct (in_own_or_public env (connection_schema_name w) self) eqn:Hctx; [done|].
    destruct (delete_rejected env self force w Hctx) as [msg Hr]. congruence. }
  rewrite (delete_allowed env self force w k Hpk Hctx) in H.
  injection H as <-.
  assert (Hd : forall X, domain_table (tenant_deleted k X)
                 = List.filter (fun r => negb (drow_tenant_id r =? k)) (domain_table X))
    by done.
  assert (Hsame : domain_table
            (if bool_decide (Pg.identifier (schema_name self) ∈ pg_schemas w)
                && (auto_drop_schema self || force)
             then schema_dropped (schema_name self) w else w) = domain_table w)
    by (by destruct (_ && _)).
  unfold get_domains. rewrite Hpk, Hd, Hsame. clear Hd Hsame Hctx. split.
  - induction (domain_table w) as [|r l IH]; simpl; [done|].
    destruct (drow_tenant_id r =? k) eqn:E; simpl; [done|]. by rewrite E.
  - intros t Ht. destruct (pk t) as [k'|]; [|done].
    assert (k' <> k) by congruence. f_equal.
    induction (domain_table w) as [|r l IH]; simpl; [done|].
    destruct (drow_tenant_id r =? k) eqn:E; simpl.
    + apply Z.eqb_eq in E. assert ((drow_tenant_id r =? k') = false) as ->; [|done].
      apply Z.eqb_neq. congruence.
    + by rewrite IH.
Qed.

End Deletes.

(** *** Domains *)

Lemma Domain_filter_fresh self d w :
  ~ In d (get_domains self w) -> Domain_filter self d w = [].
Proof.
  unfold get_domains, Domain_filter. destruct (pk self) as [k|]; [|done].
  induction (domain_table w) as [|r l IH]; simpl; [done|].
  destruct (drow_tenant_id r =? k); simpl; [|done].
  intros Hn. destruct (String.eqb (drow_domain r) d) eqn:E.
  - apply String.eqb_eq in E. exfalso. apply Hn. by left.
  - apply IH. intros Hin. apply Hn. by right.
Qed.

(** X9.  [remove_domain] removes from the tenant's domains every
    occurrence of [d.lower()], keeps the others in their order, reports
    how many it removed, and leaves the domains of every other tenant
    alone. *)
Theorem remove_domain_effect self d w :
  exists w',
    remove_domain self d w
      = (Ok (length (List.filter (String.eqb (Py.lower d)) (get_domains self w))), w') /\
    get_domains self w'
      = List.filter (fun x => negb (String.eqb x (Py.lower d))) (get_domains self w) /\
    (forall t, pk t <> pk self -> get_domains t w' = get_domains t w).
Proof.
  unfold remove_domain, Domain_filter, get_domains. eexists. split; [|split].
  - f_equal. f_equal. destruct (pk self) as [k|]; [|done].
    induction (domain_table w) as [|r l IH]; simpl; [done|].
    destruct (drow_tenant_id r =? k); simpl; [|done].
    rewrite (String.eqb_sym (Py.lower d)).
    destruct (String.eqb (drow_domain r) (Py.lower d)); simpl; by rewrite IH.
  - simpl. destruct (pk self) as [k|]; [|done].
    induction (domain_table w) as [|r l IH]; simpl; [done|].
    destruct (drow_tenant_id r =? k) eqn:E;
      destruct (String.eqb (drow_domain r) (Py.lower d)) eqn:Ed;
      simpl; rewrite ?E, ?Ed; simpl; rewrite ?IH; done.
  - simpl. intros t Ht. destruct (pk t) as [k'|]; [|done].
    destruct (pk self) as [k|].
    + assert (k' <> k) by congruence. f_equal.
      induction (domain_table w) as [|r l IH]; simpl; [done|].
      destruct (drow_tenant_id r =? k) eqn:E; simpl.
      * apply Z.eqb_eq in E.
        assert ((drow_tenant_id r =? k') = false) as Hk by (apply Z.eqb_neq; congruence).
        destruct (String.eqb _ _); simpl; rewrite ?Hk; done.
      * by rewrite IH.
    + assert (Hall : forall l : list DomainRow,
                List.filter (fun _ => true) l = l).
      { intros l. induction l as [|r l IH]; simpl; [done|]. by rewrite IH. }
      by rewrite Hall.
Qed.


(** When [add_domain] inserts, no row of any tenant held the domain. *)
Lemma add_domain_created self d w obj w1 :
  add_domain self d w = (Ok obj, w1) ->
  Domain_filter self (Py.lower d) w = [] ->
  exists k,
    pk self = Some k /\
    (forall r, In r (domain_table w) -> drow_domain r <> Py.lower d) /\
    (Py.len (Py.lower d) <= 128)%nat /\
    obj = domain_of_row (domain_row (domain_seq w + 1) k (Py.lower d)) /\
    w1 = domain_inserted (domain_seq w + 1) k (Py.lower d) (domain_seq w + 1) w.
Proof.
  intros H Hf. revert H.
  unfold add_domain, bind, Domain_get_or_create, Domain_get, ret. rewrite Hf.
  unfold Domain_create, Domain_save, Model_save_Domain. simpl.
  destruct (pk self) as [k|] eqn:Hpk; [|discriminate].
  rewrite lower_idempotent.
  destruct (Nat.ltb 128 (Py.len (Py.lower d))) eqn:Hlen; [discriminate|].
  destruct (existsb _ _) eqn:Hex.
  - assert (Domain_filter self (Py.lower d)
              (with_domain_table (domain_table w) (domain_seq w + 1) w) = []) as ->
      by (unfold Domain_filter in *; by rewrite Hpk in * ).
    discriminate.
  - intros [= <- <-]. exists k. split; [done|]. split.
    + intros r Hr Hd. apply not_true_iff_false in Hex. apply Hex.
      apply existsb_exists. exists r. split; [done|].
      apply orb_true_iff. left. by apply String.eqb_eq.
    + split; [by apply Nat.ltb_ge in Hlen|done].
Qed.

(** X13.  [add_domain] with a domain that a row of another tenant holds
    raises [IntegrityError] (the unique constraint, after the second lookup
    of [get_or_create] found nothing) and leaves the domain table as it
    was. *)
Theorem add_domain_taken self k d w r :
  pk self = Some k ->
  (Py.len (Py.lower d) <= 128)%nat ->
  ~ In (Py.lower d) (get_domains self w) ->
  In r (domain_table w) ->
  drow_domain r = Py.lower d ->
  exists w',
    add_domain self d w = (Raise IntegrityError, w') /\
    domain_table w' = domain_table w.
Proof.
  intros Hpk Hlen Hfresh Hr Hd.
  pose proof (Domain_filter_fresh _ _ _ Hfresh) as Hf.
  unfold add_domain, bind, Domain_get_or_create, Domain_get, ret. rewrite Hf.
  unfold Domain_create, Domain_save, Model_save_Domain. simpl.
  rewrite Hpk, lower_idempotent.
  assert (Nat.ltb 128 (Py.len (Py.lower d)) = false) as -> by (apply Nat.ltb_ge; lia).
  assert (existsb (fun r0 => String.eqb (drow_domain r0) (Py.lower d)
                             || (drow_id r0 =? domain_seq w + 1)) (domain_table w)
          = true) as ->.
  { apply existsb_exists. exists r. split; [done|].
    apply orb_true_iff. left. by apply String.eqb_eq. }
  assert (Domain_filter self (Py.lower d)
            (with_domain_table (domain_table w) (domain_seq w + 1) w) = []) as ->
    by (unfold Domain_filter in *; by rewrite Hpk in * ).
  eexists. split; [reflexivity|done].
Qed.






Section Lookups.
Context (ac ad : bool) (PUB : string).




Lemma handle_all_tenants w : handle ac ad w = all_tenants ac ad w.
Proof.
  unfold handle.
  assert (G : forall (l acc : list (string * string)),
            fold_left (fun written tenant => (written ++ [tenant])%list) l acc
            = (acc ++ l)%list).
  { induction l as [|x l IH]; intros acc; simpl; [by rewrite app_nil_r|].
    by rewrite IH, <- app_assoc. }
  by rewrite G.
Qed.

(** X14.  The listing of [list_tenants] after a domain was added to a
    tenant that did not have it: the row of that tenant shows its former
    domains followed by the new one in lower case, and every other row is
    what it was. *)
Theorem listing_after_add_domain self k d w obj w1 :
  pk self = Some k ->
  ~ In (Py.lower d) (get_domains self w) ->
  add_domain self d w = (Ok obj, w1) ->
  handle ac ad w1 =
    map (fun r =>
           (row_schema_name r,
            Py.join ", "
              (if row_id r =? k
               then (get_domains self w ++ [Py.lower d])%list
               else get_domains (tenant_of_row ac ad r) w)))
      (tenant_table w).
Proof.
  intros Hpk Hfresh Hadd.
  pose proof (Domain_filter_fresh _ _ _ Hfresh) as Hf.
  destruct (add_domain_created _ _ _ _ _ Hadd Hf) as (k' & Hk' & _ & _ & _ & ->).
  assert (k' = k) as -> by congruence.
  rewrite handle_all_tenants. unfold all_tenants. simpl.
  apply map_ext. intros r. f_equal. f_equal.
  unfold get_domains. rewrite Hpk. simpl.
  rewrite List.filter_app, map_app. simpl.
  destruct (row_id r =? k) eqn:E.
  - apply Z.eqb_eq in E. rewrite E, Z.eqb_refl. done.
  - assert ((k =? row_id r) = false) as -> by (rewrite Z.eqb_sym; done).
    simpl. by rewrite app_nil_r.
Qed.

End Lookups.

(** *** The properties on concrete databases *)

Lemma t1_not_in_public : "t1" ∉ ({[ "public" ]} : gset string).
Proof. intros H. apply elem_of_singleton in H. discriminate H. Qed.

Lemma save_new_tenant_provisions_witness :
  exists k w',
    pk (with_pk 1 new_tenant_capitals) = Some k /\
    save env_ok new_tenant_capitals 1 w_public
      = (Ok (with_pk 1 new_tenant_capitals), w') /\
    ("t1" ∈ pg_schemas w') /\
    In (tenant_row k new_tenant_capitals) (tenant_table w') /\
    statements w' = [SqlInsertTenant k; SqlCreateSchema "T1"] /\
    connection_schema_name w' = "public".
Proof.
  apply (save_new_tenant_provisions env_ok new_tenant_capitals 1 w_public
           (with_pk 1 new_tenant_capitals)
           (snd (Model_save_Tenant new_tenant_capitals w_public))).
  - reflexivity.
  - reflexivity.
  - reflexivity.
  - vm_compute. reflexivity.
  - reflexivity.
  - exact t1_not_in_public.
  - reflexivity.
  - reflexivity.
Defined.

Lemma save_adopts_existing_schema_witness :
  exists k w',
    pk saved_tenant = Some k /\
    save env_migration_fails new_tenant 1 w_schema_without_tenant
      = (Ok saved_tenant, w') /\
    pg_schemas w' = {[ "public"; "t1" ]} /\
    statements w' = [SqlInsertTenant k] /\
    connection_schema_name w' = "public".
Proof.
  apply (save_adopts_existing_schema env_migration_fails new_tenant 1
           w_schema_without_tenant saved_tenant
           (snd (Model_save_Tenant new_tenant w_schema_without_tenant))).
  - reflexivity.
  - reflexivity.
  - reflexivity.
  - vm_compute. reflexivity.
  - reflexivity.
  - exact t1_in_both.
  - reflexivity.
Defined.


Lemma save_rollback_restores_tenant_table_witness :
  fst (save env_migration_fails new_tenant 1 w_public)
    = Raise (CommandError "migration failed") /\
  tenant_table (snd (save env_migration_fails new_tenant 1 w_public)) = [] /\
  tenant_seq (snd (save env_migration_fails new_tenant 1 w_public)) = 1.
Proof.
  apply (save_rollback_restores_tenant_table env_migration_fails new_tenant 1 w_public
           saved_tenant (snd (Model_save_Tenant new_tenant w_public))
           (CommandError "migration failed")
           (snd (provision env_migration_fails saved_tenant 1
                   (snd (Model_save_Tenant new_tenant w_public))))).
  - reflexivity.
  - reflexivity.
  - reflexivity.
  - vm_compute. reflexivity.
  - vm_compute. reflexivity.
  - left. vm_compute. reflexivity.
  - vm_compute. reflexivity.
Defined.

Lemma save_rollback_blocked_witness :
  exists k msg,
    pk saved_tenant = Some k /\
    save env_migration_strays new_tenant 1 w_public
      = (Raise (Exception_ msg),
         snd (provision env_migration_strays saved_tenant 1
                (snd (Model_save_Tenant new_tenant w_public)))) /\
    In (tenant_row k new_tenant)
       (tenant_table
          (snd (provision env_migration_strays saved_tenant 1
                  (snd (Model_save_Tenant new_tenant w_public))))).
Proof.
  apply (save_rollback_blocked env_migration_strays new_tenant 1 w_public
           saved_tenant (snd (Model_save_Tenant new_tenant w_public))
           (CommandError "migration failed")).
  - reflexivity.
  - reflexivity.
  - reflexivity.
  - vm_compute. reflexivity.
  - vm_compute. reflexivity.
  - vm_compute. discriminate.
  - vm_compute. discriminate.
Defined.

Lemma save_without_provisioning_witness :
  save env_ok saved_tenant 1 (w_with_t1 "t1")
    = save env_migration_fails saved_tenant 1 (w_with_t1 "t1") /\
  pg_schemas (snd (save env_ok saved_tenant 1 (w_with_t1 "t1"))) = {[ "public"; "t1" ]} /\
  connection_schema_name (snd (save env_ok saved_tenant 1 (w_with_t1 "t1"))) = "t1".
Proof.
  apply (save_without_provisioning env_ok env_migration_fails saved_tenant 1
           (w_with_t1 "t1")).
  - left. discriminate.
  - reflexivity.
Defined.

Lemma delete_returns_iff_witness :
  exists w', delete env_ok saved_tenant false (w_with_t1 "t1") = (Ok tt, w').
Proof.
  apply (proj2 (delete_returns_iff env_ok saved_tenant false (w_with_t1 "t1"))).
  split; [left; reflexivity | discriminate].
Defined.

Lemma delete_removes_domains_witness :
  get_domains tenant_one (snd (delete env_ok tenant_one false w_three_tenants)) = [] /\
  (forall t, pk t <> Some 2 ->
     get_domains t (snd (delete env_ok tenant_one false w_three_tenants))
     = get_domains t w_three_tenants).
Proof.
  apply (delete_removes_domains env_ok tenant_one false w_three_tenants 2).
  - reflexivity.
  - vm_compute. reflexivity.
Defined.

Lemma add_domain_taken_witness :
  exists w',
    add_domain tenant_one "Two.Example.com" w_three_tenants
      = (Raise IntegrityError, w') /\
    domain_table w' = domain_table w_three_tenants.
Proof.
  apply (add_domain_taken tenant_one 2 "Two.Example.com" w_three_tenants
           (domain_row 2 3 "two.example.com")).
  - reflexivity.
  - vm_compute. lia.
  - vm_compute. intros [H|[]]. discriminate H.
  - right. left. reflexivity.
  - reflexivity.
Defined.



Lemma three_tenants_domains_unique :
  List.NoDup (map drow_domain (domain_table w_three_tenants)).
Proof.
  repeat (apply List.NoDup_cons; [simpl; intuition discriminate|]).
  apply List.NoDup_nil.
Qed.




Lemma listing_after_add_domain_witness :
  handle true false (snd (add_domain tenant_one "New.Example.com" w_three_tenants))
  = [("public", ""); ("t1", "one.example.com, new.example.com");
     ("t2", "two.example.com")].
Proof.
  apply (listing_after_add_domain true false tenant_one 2 "New.Example.com"
           w_three_tenants (domain_of_row (domain_row 3 2 "new.example.com"))).
  - reflexivity.
  - vm_compute. intros [H|[]]. discriminate H.
  - vm_compute. reflexivity.
Defined.

(** *** The domain table as a whole *)

Lemma NoDup_map_filter {A B} (f : A -> B) (p : A -> bool) (l : list A) :
  List.NoDup (map f l) -> List.NoDup (map f (List.filter p l)).
Proof.
  induction l as [|a l IH]; simpl; [done|].
  intros [Hna Hnd]%List.NoDup_cons_iff.
  destruct (p a); simpl; [|by apply IH].
  apply List.NoDup_cons; [|by apply IH].
  intros (x & Hx & Hin)%in_map_iff. apply Hna.
  apply List.filter_In in Hin as [Hin _]. rewrite <- Hx. by apply in_map.
Qed.

Lemma NoDup_map_In_eq {A B} (f : A -> B) (l : list A) a b :
  List.NoDup (map f l) -> In a l -> In b l -> f a = f b -> a = b.
Proof.
  induction l as [|x l IH]; simpl; [done|].
  intros [Hna Hnd]%List.NoDup_cons_iff [->|Ha] [->|Hb] Heq; try done.
  - exfalso. apply Hna. rewrite Heq. by apply in_map.
  - exfalso. apply Hna. rewrite <- Heq. by apply in_map.
  - by apply IH.
Qed.

Lemma NoDup_snoc {A} (x : A) (l : list A) :
  List.NoDup l -> ~ In x l -> List.NoDup (l ++ [x]).
Proof.
  induction l as [|a l IH]; simpl; intros Hnd Hx.
  - apply List.NoDup_cons; [by intros []|apply List.NoDup_nil].
  - apply List.NoDup_cons_iff in Hnd as [Hna Hnd].
    apply List.NoDup_cons.
    + intros [Hin|[<-|[]]]%in_app_or; [done|]. apply Hx. by left.
    + apply IH; [done|]. intros Hin. apply Hx. by right.
Qed.

Lemma Forall_filter' {A} (P : A -> Prop) (p : A -> bool) (l : list A) :
  List.Forall P l -> List.Forall P (List.filter p l).
Proof.
  rewrite !List.Forall_forall. intros H x [Hx _]%List.filter_In. by apply H.
Qed.

(** Every outcome of [add_domain] leaves the rows as they were or adds one
    row with a lower-case domain that no row held. *)
Lemma add_domain_table self d w r w' :
  add_domain self d w = (r, w') ->
  domain_table w' = domain_table w \/
  (exists k t,
     domain_table w' = (domain_table w ++ [domain_row k t (Py.lower d)])%list /\
     forall x, In x (domain_table w) -> drow_domain x <> Py.lower d).
Proof.
  unfold add_domain, bind, Domain_get_or_create, Domain_get, ret.
  destruct (Domain_filter self (Py.lower d) w) as [|x [|x' l]] eqn:Hf.
  - unfold Domain_create, Domain_save, Model_save_Domain. simpl.
    destruct (pk self) as [k|] eqn:Hpk; [|intros [= <- <-]; by left].
    rewrite lower_idempotent.
    destruct (Nat.ltb _ _); [intros [= <- <-]; by left|].
    destruct (existsb _ _) eqn:Hex.
    + assert (Domain_filter self (Py.lower d)
                (with_domain_table (domain_table w) (domain_seq w + 1) w) = []) as ->
        by (unfold Domain_filter in *; by rewrite Hpk in * ).
      intros [= <- <-]. by left.
    + intros [= <- <-]. right. exists (domain_seq w + 1), k. split; [done|].
      intros x Hx Hd. apply not_true_iff_false in Hex. apply Hex.
      apply existsb_exists. exists x. split; [done|].
      apply orb_true_iff. left. by apply String.eqb_eq.
  - intros [= <- <-]. by left.
  - intros [= <- <-]. by left.
Qed.

(** X22.  The domain table stays normalized.  If no two rows hold the
    same domain and every stored domain is in lower case, the same is true
    after [add_domain] and after [remove_domain], whatever their outcome;
    and in such a table no two rows hold domains that are equal up to
    case. *)
Theorem domain_table_stays_normalized self d w :
  List.NoDup (map drow_domain (domain_table w)) ->
  List.Forall (fun r => Py.lower (drow_domain r) = drow_domain r) (domain_table w) ->
  (forall r w',
     add_domain self d w = (r, w') ->
     List.NoDup (map drow_domain (domain_table w')) /\
     List.Forall (fun r => Py.lower (drow_domain r) = drow_domain r) (domain_table w'))
  /\
  (forall r w',
     remove_domain self d w = (r, w') ->
     List.NoDup (map drow_domain (domain_table w')) /\
     List.Forall (fun r => Py.lower (drow_domain r) = drow_domain r) (domain_table w'))
  /\
  (forall a b,
     In a (domain_table w) -> In b (domain_table w) ->
     Py.lower (drow_domain a) = Py.lower (drow_domain b) ->
     a = b).
Proof.
  intros Hnd Hlow. split; [|split].
  - intros r w' Hadd.
    destruct (add_domain_table _ _ _ _ _ Hadd) as [-> | (k & t & -> & Hfresh)]; [done|].
    split.
    + rewrite map_app. simpl. apply NoDup_snoc; [done|].
      intros (x & Hx & Hin)%in_map_iff. by apply (Hfresh x Hin).
    + apply List.Forall_app. split; [done|].
      constructor; [apply lower_idempotent|constructor].
  - intros r w'. unfold remove_domain. intros [= <- <-]. simpl.
    split; [by apply NoDup_map_filter|by apply Forall_filter'].
  - intros a b Ha Hb Heq. rewrite List.Forall_forall in Hlow.
    apply (NoDup_map_In_eq drow_domain (domain_table w)); try done.
    by rewrite <- (Hlow a Ha), <- (Hlow b Hb).
Qed.

Lemma domain_table_stays_normalized_witness :
  List.NoDup
    (map drow_domain
       (domain_table (snd (add_domain tenant_one "New.Example.com" w_three_tenants)))) /\
  List.Forall (fun r => Py.lower (drow_domain r) = drow_domain r)
    (domain_table (snd (add_domain tenant_one "New.Example.com" w_three_tenants))).
Proof.
  destruct (domain_table_stays_normalized tenant_one "New.Example.com" w_three_tenants)
    as [H _].
  - exact three_tenants_domains_unique.
  - repeat constructor.
  - apply (H (fst (add_domain tenant_one "New.Example.com" w_three_tenants))).
    vm_compute. reflexivity.
Defined.

End ModelsExtra.

(** ** Further properties of the introspection *)

Module IntrospectionExtra.

Import Introspection Scenarios IntrospectionProofs.

Lemma more_columns_more a b ci :
  more_columns b (more_columns a ci) = more_columns (a ++ b) ci.
Proof. unfold more_columns. simpl. by rewrite app_assoc. Qed.

Lemma more_columns_nil ci : more_columns [] ci = ci.
Proof. destruct ci. unfold more_columns. simpl. by rewrite app_nil_r. Qed.

Lemma append_column_spec n col (m : gmap string ConstraintInfo) name :
  append_column n col m !! name =
    if String.eqb n name then more_columns [Some col] <$> m !! name else m !! name.
Proof.
  unfold append_column. rewrite lookup_alter.
  destruct (String.eqb n name) eqn:E.
  - apply String.eqb_eq in E. subst. by rewrite decide_True.
  - apply String.eqb_neq in E. by rewrite decide_False.
Qed.

(** One turn of the first loop, when it does not raise. *)
Lemma key_step_spec (m : gmap string ConstraintInfo) row m' :
  key_step m row = Returned m' ->
  lacks_usage row = false \/ m !! key_row_name row <> None.
Proof.
  destruct row as [[[c col] kind] used]. unfold key_step, lacks_usage. simpl.
  destruct (m !! c); [by right|].
  destruct (String.eqb (Py.lower kind) "foreign key"); [|by left].
  destruct used; [done|by left].
Qed.

Lemma key_step_lookup (m : gmap string ConstraintInfo) row m' name :
  key_step m row = Returned m' ->
  m' !! name =
    if String.eqb (key_row_name row) name
    then Some (more_columns [Some (key_row_column row)]
                 (default (key_entry row) (m !! name)))
    else m !! name.
Proof.
  destruct row as [[[c col] kind] used].
  unfold key_step, key_entry, key_row_name, key_row_column.
  destruct (m !! c) eqn:Hc.
  - intros [= <-]. rewrite append_column_spec.
    destruct (String.eqb c name) eqn:E; [|done].
    apply String.eqb_eq in E. subst. by rewrite Hc.
  - assert (Hins : forall e : ConstraintInfo,
        append_column c col (<[c := e]> m) !! name
        = if String.eqb c name then Some (more_columns [Some col] e) else m !! name).
    { intros e. rewrite append_column_spec.
      destruct (String.eqb c name) eqn:E.
      - apply String.eqb_eq in E. subst. by rewrite lookup_insert_eq.
      - apply String.eqb_neq in E. by rewrite lookup_insert_ne. }
    destruct (String.eqb (Py.lower kind) "foreign key") eqn:Hk.
    + destruct used as [|u us]; [done|]. intros [= <-]. rewrite Hins.
      destruct (String.eqb c name) eqn:E; [|done].
      apply String.eqb_eq in E. subst. by rewrite Hc.
    + intros [= <-]. rewrite Hins.
      destruct (String.eqb c name) eqn:E; [|done].
      apply String.eqb_eq in E. subst. by rewrite Hc.
Qed.

(** The first loop in closed form. *)
Lemma key_loop_lookup rows : forall (m m' : gmap string ConstraintInfo) name,
  key_loop m rows = Returned m' ->
  m' !! name =
    match m !! name with
    | Some ci => Some (more_columns (key_columns_named name rows) ci)
    | None =>
        match first_key_row name rows with
        | Some row => Some (more_columns (key_columns_named name rows) (key_entry row))
        | None => None
        end
    end.
Proof.
  induction rows as [|row rows IH]; intros m m' name; simpl.
  - intros [= <-]. unfold key_columns_named. simpl.
    destruct (m !! name); [by rewrite more_columns_nil|done].
  - destruct (key_step m row) as [m1|] eqn:Hstep; [|done].
    intros Hloop. rewrite (IH _ _ name Hloop).
    rewrite (key_step_lookup _ _ _ name Hstep).
    unfold key_columns_named, first_key_row. simpl.
    destruct (String.eqb (key_row_name row) name) eqn:E; simpl.
    + rewrite more_columns_more. simpl. by destruct (m !! name).
    + done.
Qed.

Lemma check_step_lookup (m : gmap string ConstraintInfo) row name :
  check_step m row !! name =
    if String.eqb (fst row) name
    then Some (more_columns [Some (snd row)] (default check_entry (m !! name)))
    else m !! name.
Proof.
  destruct row as [c col]. unfold check_step. simpl.
  destruct (m !! c) eqn:Hc; rewrite append_column_spec;
    destruct (String.eqb c name) eqn:E; try done.
  - apply String.eqb_eq in E. subst. by rewrite Hc.
  - apply String.eqb_eq in E. subst. by rewrite lookup_insert_eq, Hc.
  - apply String.eqb_neq in E. by rewrite lookup_insert_ne.
Qed.

Lemma check_loop_lookup rows : forall (m : gmap string ConstraintInfo) name,
  fold_left check_step rows m !! name =
    match m !! name with
    | Some ci => Some (more_columns (check_columns_named name rows) ci)
    | None =>
        match first_check_row name rows with
        | Some _ => Some (more_columns (check_columns_named name rows) check_entry)
        | None => None
        end
    end.
Proof.
  induction rows as [|row rows IH]; intros m name; simpl.
  - unfold check_columns_named. simpl.
    destruct (m !! name); [by rewrite more_columns_nil|done].
  - rewrite IH, check_step_lookup.
    unfold check_columns_named, first_check_row. simpl.
    destruct (String.eqb (fst row) name) eqn:E; simpl.
    + rewrite more_columns_more. simpl. by destruct (m !! name).
    + done.
Qed.

Lemma index_loop_lookup rows (m : gmap string ConstraintInfo) name :
  fold_left index_step rows m !! name =
    match m !! name with
    | Some ci => Some ci
    | None => option_map index_entry (first_index_row name rows)
    end.
Proof.
  destruct (m !! name) as [ci|] eqn:Hm.
  - by apply index_loop_recorded.
  - rewrite (index_loop_fresh rows m name Hm). unfold first_index_row.
    assert (Hext : forall l : list IndexRow,
              List.find (fun r => String.eqb (fst (fst (fst r))) name) l
              = List.find (fun r => String.eqb (index_row_name r) name) l).
    { induction l as [|[[[? ?] ?] ?] l IHl]; simpl; [done|]. by rewrite IHl. }
    rewrite Hext.
    by destruct (List.find _ rows) as [[[[? ?] ?] ?]|].
Qed.

(** X15.  The dict [get_constraints] returns, entry by entry: under every
    name it holds what the first loop that has a row of that name makes of
    that row, with the columns the first two loops append, in row order;
    an index contributes only when neither earlier loop has the name. *)
Theorem get_constraints_entries self cat table final name :
  get_constraints self cat table = Returned final ->
  final !! name =
    expected_entry name
      (key_rows (schema_name (connection self)) table cat)
      (check_rows (schema_name (connection self)) table cat)
      (index_rows table cat).
Proof.
  unfold get_constraints, constraints_before_indexes.
  destruct (key_loop _ _) as [m|] eqn:Hloop; [|done].
  intros [= <-].
  rewrite index_loop_lookup, check_loop_lookup, (key_loop_lookup _ _ _ name Hloop).
  rewrite lookup_empty. unfold expected_entry.
  destruct (first_key_row name _) as [row|].
  - by rewrite more_columns_more.
  - by destruct (first_check_row name _).
Qed.


Lemma key_step_raises (m : gmap string ConstraintInfo) row :
  key_step m row = IndexError <->
  m !! key_row_name row = None /\ lacks_usage row = true.
Proof.
  destruct row as [[[c col] kind] used].
  unfold key_step, lacks_usage, key_row_name.
  destruct (m !! c); [by split; [|intros []]|].
  destruct (String.eqb (Py.lower kind) "foreign key"); simpl.
  - destruct used; by split; [|intros []].
  - by split; [|intros []].
Qed.

Lemma key_step_domain (m : gmap string ConstraintInfo) row m' name :
  key_step m row = Returned m' ->
  m' !! name = None <-> m !! name = None /\ String.eqb (key_row_name row) name = false.
Proof.
  destruct row as [[[c col] kind] used]. unfold key_step, key_row_name.
  assert (Halter : forall (m0 : gmap string ConstraintInfo),
            append_column c col m0 !! name = None <-> m0 !! name = None).
  { intros m0. unfold append_column. rewrite lookup_alter. case_decide; [|done].
    subst. by destruct (m0 !! name). }
  destruct (m !! c) eqn:Hc.
  - intros [= <-]. rewrite Halter. split; [|by intros []].
    intros Hn. split; [done|]. apply String.eqb_neq. intros ->. congruence.
  - assert (Hins : forall e : ConstraintInfo,
              append_column c col (<[c := e]> m) !! name = None <->
              m !! name = None /\ String.eqb c name = false).
    { intros e. rewrite Halter, lookup_insert. case_decide.
      - subst. rewrite String.eqb_refl. by split; [|intros []].
      - apply String.eqb_neq in H. rewrite H. by split; [|intros []]. }
    destruct (String.eqb (Py.lower kind) "foreign key").
    + destruct used; [done|]. intros [= <-]. apply Hins.
    + intros [= <-]. apply Hins.
Qed.

Lemma key_loop_raises rows : forall (m : gmap string ConstraintInfo),
  key_loop m rows = IndexError <->
  exists name row,
    m !! name = None /\ first_key_row name rows = Some row /\ lacks_usage row = true.
Proof.
  induction rows as [|row0 rows IH]; intros m; simpl.
  - split; [done|]. by intros (name & row & _ & Hf & _).
  - destruct (key_step m row0) as [m1|] eqn:Hstep.
    + rewrite IH. split.
      * intros (name & row & Hm1 & Hf & Hl).
        apply (key_step_domain _ _ _ name Hstep) in Hm1 as [Hm Hne].
        exists name, row. split; [done|]. split; [|done].
        unfold first_key_row. simpl. by rewrite Hne.
      * intros (name & row & Hm & Hf & Hl).
        unfold first_key_row in Hf. simpl in Hf.
        destruct (String.eqb (key_row_name row0) name) eqn:E.
        -- injection Hf as <-. apply String.eqb_eq in E. subst name.
           assert (key_step m row0 = IndexError) by (by apply key_step_raises).
           congruence.
        -- exists name, row. split; [|done].
           by apply (key_step_domain _ _ _ name Hstep).
    + split; [|done]. intros _. apply key_step_raises in Hstep as [Hm Hl].
      exists (key_row_name row0), row0. split; [done|]. split; [|done].
      unfold first_key_row. simpl. by rewrite String.eqb_refl.
Qed.

Lemma find_key_row_In name rows row :
  first_key_row name rows = Some row -> In row rows /\ key_row_name row = name.
Proof.
  unfold first_key_row. intros H. apply find_some in H as [Hin Hn].
  by apply String.eqb_eq in Hn.
Qed.

(** X16.  [get_constraints] raises [IndexError] exactly when, for some
    constraint name, the first row of the key-column query is a foreign
    key while [constraint_column_usage] has no row under that name, so
    that [used_cols[0]] is taken of an empty list; in every other case it
    returns. *)
Theorem get_constraints_raises_iff self cat table :
  get_constraints self cat table = IndexError <->
  exists name column kind used_cols,
    first_key_row name (key_rows (schema_name (connection self)) table cat)
      = Some (name, column, kind, used_cols) /\
    Py.lower kind = "foreign key" /\
    used_cols_of cat name = [].
Proof.
  assert (Hget : get_constraints self cat table = IndexError <->
                 key_loop ∅ (key_rows (schema_name (connection self)) table cat)
                 = IndexError).
  { unfold get_constraints, constraints_before_indexes.
    by destruct (key_loop _ _). }
  rewrite Hget, key_loop_raises. split.
  - intros (name & [[[c col] kind] used] & _ & Hf & Hl).
    destruct (find_key_row_In _ _ _ Hf) as [Hin Hn]. simpl in Hn. subst c.
    pose proof (key_rows_carry_usage (schema_name (connection self)) table cat) as Hall.
    rewrite List.Forall_forall in Hall. specialize (Hall _ Hin). simpl in Hall.
    unfold lacks_usage in Hl. apply andb_true_iff in Hl as [Hk Hu].
    exists name, col, kind, used. split; [done|].
    split; [by apply String.eqb_eq|]. rewrite <- Hall. by destruct used.
  - intros (name & col & kind & used & Hf & Hk & Hu).
    destruct (find_key_row_In _ _ _ Hf) as [Hin _].
    pose proof (key_rows_carry_usage (schema_name (connection self)) table cat) as Hall.
    rewrite List.Forall_forall in Hall. specialize (Hall _ Hin). simpl in Hall.
    exists name, (name, col, kind, used). split; [apply lookup_empty|].
    split; [done|]. unfold lacks_usage. rewrite Hk, Hall, Hu. done.
Qed.

Lemma flat_map_all_nil {A B} (f : A -> list B) (l : list A) :
  (forall x, In x l -> f x = []) -> flat_map f l = [].
Proof.
  induction l as [|a l IH]; simpl; [done|]. intros H.
  rewrite H by (by left). apply IH. intros x Hx. apply H. by right.
Qed.

(** X17.  For a table without key-column rows and without usage rows in
    the current schema, and with no relation of that name in any schema,
    [get_constraints] returns the empty dict. *)
Theorem get_constraints_without_rows self cat table :
  (forall kc, In kc (key_columns cat) ->
     kcu_table_schema kc = schema_name (connection self) -> kcu_table_name kc <> table) ->
  (forall u, In u (constraint_columns cat) ->
     ccu_table_schema u = schema_name (connection self) -> ccu_table_name u <> table) ->
  (forall c, In c (classes cat) -> relname c <> table) ->
  get_constraints self cat table = Returned ∅.
Proof.
  intros Hk Hu Hc.
  assert (Hkr : key_rows (schema_name (connection self)) table cat = []).
  { unfold key_rows. rewrite flat_map_all_nil; [done|].
    intros kc Hkc. apply flat_map_all_nil. intros c _.
    destruct (String.eqb (kcu_table_schema kc) (schema_name (connection self))) eqn:Es;
      [|by rewrite andb_false_r].
    apply String.eqb_eq in Es.
    assert (String.eqb (kcu_table_name kc) table = false) as ->
      by (apply String.eqb_neq; by apply Hk).
    by rewrite andb_false_r. }
  assert (Hcr : check_rows (schema_name (connection self)) table cat = []).
  { unfold check_rows. apply flat_map_all_nil.
    intros u Hu'. apply flat_map_all_nil. intros c _.
    destruct (String.eqb (ccu_table_schema u) (schema_name (connection self))) eqn:Es;
      [|by rewrite andb_false_r].
    apply String.eqb_eq in Es.
    assert (String.eqb (ccu_table_name u) table = false) as ->
      by (apply String.eqb_neq; by apply Hu).
    by rewrite andb_false_r. }
  assert (Hir : index_rows table cat = []).
  { unfold index_rows. apply flat_map_all_nil.
    intros c Hc'. apply flat_map_all_nil. intros c2 _. apply flat_map_all_nil.
    intros idx _.
    assert (String.eqb (relname c) table = false) as ->
      by (apply String.eqb_neq; by apply Hc).
    by rewrite andb_false_r. }
  unfold get_constraints, constraints_before_indexes. by rewrite Hkr, Hcr, Hir.
Qed.


(** *** ORDER BY *)

Lemma insert_by_perm {A} (key : A -> Z) x (l : list A) :
  Permutation (insert_by key x l) (x :: l).
Proof.
  induction l as [|y l IH]; simpl; [done|].
  destruct (key y <=? key x); [|done].
  rewrite IH. apply perm_swap.
Qed.

Lemma insert_by_sorted {A} (key : A -> Z) x (l : list A) :
  StronglySorted (fun a b => key a <= key b) l ->
  StronglySorted (fun a b => key a <= key b) (insert_by key x l).
Proof.
  induction l as [|y l IH]; simpl; intros Hs.
  - constructor; [constructor|constructor].
  - apply StronglySorted_inv in Hs as [Hl Hy].
    destruct (key y <=? key x) eqn:E.
    + apply Z.leb_le in E. constructor; [by apply IH|].
      apply List.Forall_forall. intros z Hz.
      apply (Permutation_in _ (insert_by_perm key x l)) in Hz as [<-|Hz]; [done|].
      rewrite List.Forall_forall in Hy. by apply Hy.
    + apply Z.leb_gt in E. constructor; [by constructor|].
      constructor; [lia|].
      apply List.Forall_forall. intros z Hz.
      rewrite List.Forall_forall in Hy. specialize (Hy z Hz). lia.
Qed.

Lemma sort_by_sorted_perm {A} (key : A -> Z) (l : list A) :
  StronglySorted (fun a b => key a <= key b) (sort_by key l) /\
  Permutation (sort_by key l) l.
Proof.
  unfold sort_by.
  assert (G : forall l acc,
            StronglySorted (fun a b => key a <= key b) acc ->
            StronglySorted (fun a b => key a <= key b)
              (fold_left (fun acc x => insert_by key x acc) l acc) /\
            Permutation (fold_left (fun acc x => insert_by key x acc) l acc)
              (acc ++ l)).
  { clear l. induction l as [|x l IH]; intros acc Hacc; simpl.
    - split; [done|]. by rewrite app_nil_r.
    - destruct (IH (insert_by key x acc) (insert_by_sorted key x acc Hacc)) as [Hs Hp].
      split; [done|]. rewrite Hp, insert_by_perm. simpl.
      apply Permutation_middle. }
  destruct (G l [] (SSorted_nil _)) as [Hs Hp]. split; done.
Qed.

Lemma filter_permutation {A} (f : A -> bool) (l l' : list A) :
  Permutation l l' -> Permutation (List.filter f l) (List.filter f l').
Proof.
  induction 1 as [|x l l' _ IH|x y l|l l' l'' _ IH1 _ IH2]; simpl.
  - constructor.
  - destruct (f x); [by constructor|done].
  - destruct (f x), (f y); try done. apply perm_swap.
  - by etrans.
Qed.

Lemma filter_sorted {A} (R : A -> A -> Prop) (f : A -> bool) (l : list A) :
  StronglySorted R l -> StronglySorted R (List.filter f l).
Proof.
  induction 1 as [|x l _ IH Hx]; simpl; [constructor|].
  destruct (f x); [|done]. constructor; [done|].
  apply List.Forall_forall. intros y Hy. apply List.filter_In in Hy as [Hy _].
  rewrite List.Forall_forall in Hx. by apply Hx.
Qed.

Lemma find_none_filter {A} (f : A -> bool) (l : list A) :
  List.find f l = None -> List.filter f l = [].
Proof.
  induction l as [|x l IH]; simpl; [done|]. destruct (f x); [done|]. exact IH.
Qed.

Lemma key_columns_named_sorted name schema table cat :
  key_columns_named name (key_rows schema table cat) =
    map (fun x => Some (key_row_column (snd x)))
      (List.filter (fun x => String.eqb (key_row_name (snd x)) name)
         (sort_by fst (key_rows_unordered schema table cat))).
Proof.
  unfold key_columns_named.
  change (key_rows schema table cat)
    with (map snd (sort_by fst (key_rows_unordered schema table cat))).
  generalize (sort_by fst (key_rows_unordered schema table cat)).
  intros l. induction l as [|x l IH]; simpl; [done|].
  destruct (String.eqb (key_row_name (snd x)) name); simpl; by rewrite IH.
Qed.

(** X18.  In the dict [get_constraints] returns, the columns of an entry
    that is not an index are the columns of the joined key rows of that
    name in ascending ordinal position, none lost and none added, followed
    by the columns of the CHECK rows of that name. *)
Theorem key_columns_in_ordinal_order self cat table final name ci :
  get_constraints self cat table = Returned final ->
  final !! name = Some ci ->
  index ci = false ->
  exists rows : list (Z * KeyRow),
    columns ci =
      (map (fun x => Some (key_row_column (snd x))) rows
       ++ check_columns_named name
            (check_rows (schema_name (connection self)) table cat))%list /\
    StronglySorted (fun a b => fst a <= fst b) rows /\
    Permutation rows
      (List.filter (fun x => String.eqb (key_row_name (snd x)) name)
         (key_rows_unordered (schema_name (connection self)) table cat)).
Proof.
  intros Hget Hci Hidx.
  exists (List.filter (fun x => String.eqb (key_row_name (snd x)) name)
            (sort_by fst (key_rows_unordered (schema_name (connection self)) table cat))).
  destruct (sort_by_sorted_perm fst
              (key_rows_unordered (schema_name (connection self)) table cat)) as [Hs Hp].
  split; [|split; [by apply filter_sorted | by apply filter_permutation]].
  rewrite <- key_columns_named_sorted.
  revert Hget Hci. unfold get_constraints, constraints_before_indexes.
  destruct (key_loop _ _) as [m|] eqn:Hloop; [|done].
  intros [= <-].
  rewrite index_loop_lookup, check_loop_lookup, (key_loop_lookup _ _ _ name Hloop).
  rewrite lookup_empty.
  destruct (first_key_row name _) as [row|] eqn:Hk.
  - rewrite more_columns_more. intros [= <-].
    destruct row as [[[c col] kind] used]. reflexivity.
  - unfold key_columns_named, first_key_row in *. rewrite (find_none_filter _ _ Hk).
    destruct (first_check_row name _).
    + intros [= <-]. reflexivity.
    + destruct (first_index_row name _) as [[[[i cols] u] p]|]; [|done].
      intros [= <-]. simpl in Hidx. discriminate.
Qed.

Lemma key_columns_in_ordinal_order_witness :
  exists rows : list (Z * KeyRow),
    [Some "id"] =
      (map (fun x => Some (key_row_column (snd x))) rows
       ++ check_columns_named "foo_pkey" (check_rows "t1" "foo" catalog_one))%list /\
    StronglySorted (fun a b => fst a <= fst b) rows /\
    Permutation rows
      (List.filter (fun x => String.eqb (key_row_name (snd x)) "foo_pkey")
         (key_rows_unordered "t1" "foo" catalog_one)).
Proof.
  apply (key_columns_in_ordinal_order introspection_t1 catalog_one "foo"
           (returned_dict (get_constraints introspection_t1 catalog_one "foo"))
           "foo_pkey"
           {| columns := [Some "id"]; primary_key := true; unique := true;
              foreign_key := None; check := false; index := false |}).
  - vm_compute. reflexivity.
  - vm_compute. reflexivity.
  - reflexivity.
Defined.


(** *** get_table_list *)

(** X20.  [get_table_list] lists exactly the relations of kind [r], [v]
    or empty whose namespace row carries the connection's current schema
    name and whose name is not among [ignored_tables], each with the letter
    of its kind; the visibility test never removes one of them. *)
Theorem get_table_list_members self cat ti :
  In ti (get_table_list self cat) <->
  exists c n,
    In c (classes cat) /\ In n (namespaces cat) /\
    nsp_oid n = relnamespace c /\
    nspname n = schema_name (connection self) /\
    mem_string (relkind c) ["r"; "v"; ""] = true /\
    mem_string (relname c) (ignored_tables self) = false /\
    ti = {| ti_name := relname c; ti_type := kind_letter (relkind c) |}.
Proof.
  unfold get_table_list. rewrite table_list_rows_within.
  unfold rows_within, restrict_to_schema. cbn [namespaces classes].
  rewrite in_map_iff. split.
  - intros ([nm kd] & <- & Hin). apply List.filter_In in Hin as [Hin Hig].
    apply in_flat_map in Hin as (c & Hc & Hin).
    apply in_flat_map in Hin as (n & Hn & Hin).
    apply List.filter_In in Hc as [Hc _]. apply List.filter_In in Hn as [Hn Hs].
    destruct (mem_string (relkind c) ["r"; "v"; ""]) eqn:Hk; [|done].
    destruct (nsp_oid n =? relnamespace c) eqn:Ho; [|done].
    destruct Hin as [[= <- <-]|[]]. cbn [fst snd] in *.
    exists c, n. split; [done|]. split; [done|].
    split; [by apply Z.eqb_eq|]. split; [by apply String.eqb_eq|].
    split; [done|]. split; [by apply negb_true_iff|done].
  - intros (c & n & Hc & Hn & Ho & Hs & Hk & Hig & ->).
    exists (relname c, relkind c). split; [done|].
    apply List.filter_In. split; [|cbn [fst]; by rewrite Hig].
    apply in_flat_map. exists c. split.
    + apply List.filter_In. split; [done|].
      apply existsb_exists. exists n. split; [done|].
      apply andb_true_iff. split; [by apply Z.eqb_eq|by apply String.eqb_eq].
    + apply in_flat_map. exists n. split.
      * apply List.filter_In. split; [done|by apply String.eqb_eq].
      * rewrite Hk. apply Z.eqb_eq in Ho. rewrite Ho. by left.
Qed.

Lemma filter_filter_same {A} (p : A -> bool) (l : list A) :
  List.filter p (List.filter p l) = List.filter p l.
Proof.
  induction l as [|a l IH]; simpl; [done|].
  destruct (p a) eqn:E; simpl; rewrite ?E, IH; done.
Qed.

Lemma filter_ext_In' {A} (p q : A -> bool) (l : list A) :
  (forall x, In x l -> p x = q x) -> List.filter p l = List.filter q l.
Proof.
  induction l as [|a l IH]; simpl; [done|]. intros H.
  rewrite (H a) by (by left). rewrite IH; [done|].
  intros x Hx. apply H. by right.
Qed.

Lemma in_namespace_restrict cat s c :
  in_namespace (restrict_to_schema s cat) s c = in_namespace cat s c.
Proof.
  unfold in_namespace. simpl.
  induction (namespaces cat) as [|n l IH]; simpl; [done|].
  destruct (String.eqb (nspname n) s) eqn:E; simpl; rewrite ?E, IH; [done|].
  by rewrite andb_false_r.
Qed.

(** X21.  [get_table_list] gives on a catalog what it gives on the part
    of that catalog that belongs to the connection's current schema. *)
Theorem get_table_list_of_own_schema self cat :
  get_table_list self cat =
  get_table_list self (restrict_to_schema (schema_name (connection self)) cat).
Proof.
  unfold get_table_list. rewrite !table_list_rows_within. simpl.
  rewrite filter_filter_same.
  rewrite (filter_ext_In' (in_namespace (restrict_to_schema _ cat) _)
             (in_namespace cat (schema_name (connection self)))).
  - by rewrite filter_filter_same.
  - intros c _. apply in_namespace_restrict.
Qed.


Lemma flat_map_support {A B} (p : A -> bool) (f : A -> list B) (l : list A) :
  (forall x, In x l -> p x = false -> f x = []) ->
  flat_map f l = flat_map f (List.filter p l).
Proof.
  induction l as [|a l IH]; simpl; [done|]. intros H.
  rewrite IH by (intros x Hx; apply H; by right).
  destruct (p a) eqn:E; simpl; [done|].
  by rewrite (H a (or_introl eq_refl) E).
Qed.

Lemma key_rows_unordered_own_schema schema table cat :
  key_rows_unordered schema table cat =
  key_rows_unordered schema table
    {| namespaces := []; classes := []; indexes := []; attributes := [];
       key_columns := List.filter (fun k => String.eqb (kcu_table_schema k) schema)
                        (key_columns cat);
       constraints_of_tables :=
         List.filter (fun c => String.eqb (tc_table_schema c) schema)
           (constraints_of_tables cat);
       constraint_columns := constraint_columns cat |}.
Proof.
  unfold key_rows_unordered. cbn [key_columns constraints_of_tables].
  rewrite (flat_map_support (fun k => String.eqb (kcu_table_schema k) schema)).
  - apply flat_map_ext_In. intros kc Hkc.
    apply List.filter_In in Hkc as [_ Hs]. apply String.eqb_eq in Hs.
    rewrite (flat_map_support (fun c => String.eqb (tc_table_schema c) schema)).
    + done.
    + intros c _ Hc. rewrite Hs, String.eqb_sym, Hc. done.
  - intros kc _ Hs. apply flat_map_all_nil. intros c _.
    rewrite Hs. by rewrite andb_false_r.
Qed.

Lemma check_rows_own_schema schema table cat :
  check_rows schema table cat =
  check_rows schema table
    {| namespaces := []; classes := []; indexes := []; attributes := [];
       key_columns := [];
       constraints_of_tables :=
         List.filter (fun c => String.eqb (tc_table_schema c) schema)
           (constraints_of_tables cat);
       constraint_columns := constraint_columns cat |}.
Proof.
  unfold check_rows. cbn [constraint_columns constraints_of_tables].
  apply flat_map_ext_In. intros u _.
  apply (flat_map_support (fun c => String.eqb (tc_table_schema c) schema)).
  intros c _ Hc.
  destruct (String.eqb (ccu_table_schema u) schema) eqn:Es;
    [|by rewrite andb_false_r].
  apply String.eqb_eq in Es. by rewrite Es, String.eqb_sym, Hc.
Qed.

(** X19.  The dict as the key-column and CHECK loops leave it is the same
    on two catalogs that hold the same rows for the connection's current
    schema and the same [constraint_column_usage] rows: the two queries
    select by schema, apart from the usage strings, which are looked up by
    constraint name alone. *)
Theorem constraint_loops_read_own_schema self cat1 cat2 table :
  restrict_to_schema (schema_name (connection self)) cat1 =
  restrict_to_schema (schema_name (connection self)) cat2 ->
  constraint_columns cat1 = constraint_columns cat2 ->
  constraints_before_indexes self cat1 table =
  constraints_before_indexes self cat2 table.
Proof.
  intros Hr Hu.
  assert (Hk : key_columns (restrict_to_schema (schema_name (connection self)) cat1)
               = key_columns (restrict_to_schema (schema_name (connection self)) cat2))
    by (by rewrite Hr).
  assert (Hc : constraints_of_tables
                 (restrict_to_schema (schema_name (connection self)) cat1)
               = constraints_of_tables
                   (restrict_to_schema (schema_name (connection self)) cat2))
    by (by rewrite Hr).
  cbn [restrict_to_schema key_columns constraints_of_tables] in Hk, Hc.
  unfold constraints_before_indexes.
  change (key_rows (schema_name (connection self)) table cat1)
    with (map snd (sort_by fst
            (key_rows_unordered (schema_name (connection self)) table cat1))).
  change (key_rows (schema_name (connection self)) table cat2)
    with (map snd (sort_by fst
            (key_rows_unordered (schema_name (connection self)) table cat2))).
  rewrite (key_rows_unordered_own_schema _ _ cat1),
          (key_rows_unordered_own_schema _ _ cat2),
          (check_rows_own_schema _ _ cat1), (check_rows_own_schema _ _ cat2).
  by rewrite Hk, Hc, Hu.
Qed.

(** *** The properties on concrete catalogs *)

Lemma get_constraints_entries_witness :
  returned_dict (get_constraints introspection_t1 catalog_one "foo") !! "foo_pkey"
  = Some {| columns := [Some "id"]; primary_key := true; unique := true;
            foreign_key := None; check := false; index := false |}.
Proof.
  rewrite (get_constraints_entries introspection_t1 catalog_one "foo"
             (returned_dict (get_constraints introspection_t1 catalog_one "foo"))
             "foo_pkey").
  - vm_compute. reflexivity.
  - vm_compute. reflexivity.
Defined.

Lemma get_constraints_raises_iff_witness :
  get_constraints introspection_t1 catalog_fk_without_usage "foo" = IndexError.
Proof.
  apply (proj2 (get_constraints_raises_iff introspection_t1
                  catalog_fk_without_usage "foo")).
  exists "foo_bar_fk", "bar_id", "FOREIGN KEY", [].
  split; [vm_compute; reflexivity|]. split; vm_compute; reflexivity.
Defined.

Lemma get_constraints_without_rows_witness :
  get_constraints introspection_t1 catalog_one "nothing" = Returned ∅.
Proof.
  apply (get_constraints_without_rows introspection_t1 catalog_one "nothing").
  - intros kc [<-|[<-|[]]] _; discriminate.
  - intros u [<-|[<-|[<-|[]]]] _; discriminate.
  - intros c [<-|[<-|[<-|[<-|[<-|[]]]]]]; discriminate.
Defined.

Lemma constraint_loops_read_own_schema_witness :
  constraints_before_indexes introspection_t1 catalog_one "foo"
  = constraints_before_indexes introspection_t1 catalog_two "foo".
Proof.
  apply (constraint_loops_read_own_schema introspection_t1 catalog_one catalog_two "foo").
  - vm_compute. reflexivity.
  - reflexivity.
Defined.

Lemma get_table_list_members_witness :
  In {| ti_name := "foo_view"; ti_type := Some "v" |}
     (get_table_list introspection_t1 catalog_one).
Proof.
  apply (proj2 (get_table_list_members introspection_t1 catalog_one
                  {| ti_name := "foo_view"; ti_type := Some "v" |})).
  exists {| oid := 12; relname := "foo_view"; relkind := "v"; relnamespace := 2 |},
         {| nsp_oid := 2; nspname := "t1" |}.
  split; [right; right; left; reflexivity|].
  split; [right; left; reflexivity|].
  repeat split; reflexivity.
Defined.

End IntrospectionExtra.
